(** * nfj-server: a shallow embedding of [index.js] and its properties

    The server is one Express application.  The handlers of its routes
    /api/translate, /api/create-checkout-session, /webhook,
    /api/certificate/:name/:level, /api/register and /api/me/:id are
    embedded below, each as a program over the calls it
    makes to its collaborators (the relational store behind [db.query], the
    Stripe library, the two translation upstreams reached through axios,
    the console).  The Express middleware chain (cors, the body parsers)
    is outside the embedding: a handler is modelled from the point where
    it receives [req].  Strings are byte strings; the numbers of the
    certificate route are doubles, those of the store are integers.

    A few interpolated strings of the source are written with an [f] prefix
    and braces; they are read as the template literals they stand for. *)

From Stdlib Require Import ZArith List String Ascii Bool Lia QArith.
From Stdlib Require Import DecimalString.
From Stdlib Require DecimalPos.
Import ListNotations.
Open Scope string_scope.
Open Scope Z_scope.

(** ** JavaScript values the handlers compute with *)

Module Js.

(** Values that reach a response body. *)
#[local] Set Warnings "-register-all".
Inductive value : Type :=
| Undefined
| Null
| Bool (b : bool)
| Num (z : Z)
| Str (s : string)
| Obj (fields : list (string * value)).

(** [v.k], for an object [v] that has the key [k]. *)
Definition field (v : value) (k : string) : option value :=
  match v with
  | Obj fields =>
      match find (fun kv => String.eqb (fst kv) k) fields with
      | Some kv => Some (snd kv)
      | None => None
      end
  | _ => None
  end.

(** Truthiness of a string that may be absent ([undefined] or [null]): the
    empty string and the absent one are falsy. *)
Definition truthy (s : option string) : bool :=
  match s with
  | Some EmptyString | None => false
  | Some _ => true
  end.

(** Truthiness of an integer that may be absent: [0] and absent are falsy. *)
Definition truthy_num (z : option Z) : bool :=
  match z with
  | Some 0 | None => false
  | Some _ => true
  end.

(** [a || b] on strings and on integers. *)
Definition or_else (a : option string) (b : string) : string :=
  match a with
  | Some s => if truthy a then s else b
  | None => b
  end.

Definition or_else_num (a : option Z) (b : Z) : Z :=
  match a with
  | Some z => if truthy_num a then z else b
  | None => b
  end.

(** [userId || null]. *)
Definition or_null (a : option string) : option string :=
  if truthy a then a else None.

(** *** Decimal rendering of integers, as template literals do it *)

Definition string_of_Z (z : Z) : string :=
  NilZero.string_of_int (Z.to_int z).

(** *** [String.prototype.toUpperCase], on the ASCII letters

    The bytes a to z are upper-cased and every other byte is kept, the
    bytes of a letter outside ASCII among them, which JavaScript would
    upper-case too.  The route applies it to language codes. *)

Definition upper_ascii (c : ascii) : ascii :=
  let n := nat_of_ascii c in
  if (Nat.leb 97 n && Nat.leb n 122)%bool then ascii_of_nat (n - 32) else c.

Fixpoint toUpperCase (s : string) : string :=
  match s with
  | EmptyString => EmptyString
  | String c r => String (upper_ascii c) (toUpperCase r)
  end.

(** *** Numbers

    A number is a double.  A finite double other than -0 is given by the
    rational it is, in lowest terms. *)
Inductive number : Type :=
| Fin (q : Q)
| NegZero
| NaN
| Inf (negative : bool).

(** The double of a small integer, as the literals [1] and [20] are. *)
Definition Int (z : Z) : number := Fin (Qmake z 1).

(** **** Rounding a rational to the nearest double *)

(** The integer nearest to [p/q], the even one of two equally near
    ([0 <= p], [0 < q]). *)
Definition round_half_even (p q : Z) : Z :=
  let d := p / q in
  match 2 * (p mod q) ?= q with
  | Lt => d
  | Gt => d + 1
  | Eq => if Z.even d then d else d + 1
  end.

(** [p/q] divided by [2^u], as a fraction. *)
Definition scale2 (p q u : Z) : Z * Z :=
  if 0 <=? u then (p, q * 2 ^ u) else (p * 2 ^ (- u), q).

(** The [e] with [2^e <= p/q < 2^(e+1)] ([0 < p], [0 < q]). *)
Definition ilog2 (p q : Z) : Z :=
  let e := Z.log2 p - Z.log2 q in
  let (a, b) := scale2 p q e in
  if b <=? a then e else e - 1.

Definition zero (neg : bool) : number :=
  if neg then NegZero else Fin (Qmake 0 1).

(** The double nearest to [p/q] with the sign [neg] ([0 <= p], [0 < q]):
    53 significant bits down to the exponent -1022, multiples of 2^-1074
    below, ties to the even significand, an infinity from 2^1024 on. *)
Definition of_rational (neg : bool) (p q : Z) : number :=
  if p =? 0 then zero neg
  else
    let u := Z.max (ilog2 p q - 52) (-1074) in
    let (a, b) := scale2 p q u in
    let m := round_half_even a b in
    if m =? 0 then zero neg
    else if (0 <=? u) && (2 ^ 1024 <=? m * 2 ^ u) then Inf neg
    else
      let s := if neg then - m else m in
      Fin (Qred (if 0 <=? u then Qmake (s * 2 ^ u) 1
                 else Qmake s (Z.to_pos (2 ^ (- u))))).

(** The double nearest to [m * 10^x]. *)
Definition of_decimal (neg : bool) (m x : Z) : number :=
  if 0 <=? x then of_rational neg (m * 10 ^ x) 1
  else of_rational neg m (10 ^ (- x)).

(** **** [Number(s)] on a string: StringToNumber *)

(** White space and line terminators, in UTF-8: the one-byte ones, U+00A0,
    and the three-byte ones U+1680, U+2000 to U+200A, U+2028, U+2029,
    U+202F, U+205F, U+3000 and U+FEFF. *)
Definition byte (c : ascii) : Z := Z.of_nat (nat_of_ascii c).

Definition space1 (a : ascii) : bool :=
  let x := byte a in (x =? 32) || ((9 <=? x) && (x <=? 13)).

Definition space2 (a b : ascii) : bool :=
  (byte a =? 194) && (byte b =? 160).

Definition space3 (a b c : ascii) : bool :=
  let x := byte a in let y := byte b in let z := byte c in
  ((x =? 225) && (y =? 154) && (z =? 128))
  || ((x =? 226) && (y =? 128)
      && (((128 <=? z) && (z <=? 138)) || (z =? 168) || (z =? 169) || (z =? 175)))
  || ((x =? 226) && (y =? 129) && (z =? 159))
  || ((x =? 227) && (y =? 128) && (z =? 128))
  || ((x =? 239) && (y =? 187) && (z =? 191)).

(** White space stripped from the front; with [back], from the front of
    the reversed string. *)
Fixpoint strip (back : bool) (s : list ascii) : list ascii :=
  match s with
  | a :: r =>
      if space1 a then strip back r
      else
        match r with
        | b :: r2 =>
            if (if back then space2 b a else space2 a b) then strip back r2
            else
              match r2 with
              | c :: r3 =>
                  if (if back then space3 c b a else space3 a b c)
                  then strip back r3
                  else s
              | [] => s
              end
        | [] => s
        end
  | [] => []
  end.

Definition trim (s : list ascii) : list ascii :=
  rev (strip true (rev (strip false s))).

(** The value of a digit in a base up to 16, if it is one. *)
Definition digit_value (base : Z) (c : ascii) : option Z :=
  let n := byte c in
  let v := if (48 <=? n) && (n <=? 57) then Some (n - 48)
           else if (97 <=? n) && (n <=? 102) then Some (n - 87)
           else if (65 <=? n) && (n <=? 70) then Some (n - 55)
           else None in
  match v with
  | Some d => if d <? base then Some d else None
  | None => None
  end.

(** All of [s] as digits of [base], most significant first. *)
Fixpoint digits_value (base : Z) (acc : Z) (s : list ascii) : option Z :=
  match s with
  | [] => Some acc
  | c :: r =>
      match digit_value base c with
      | Some d => digits_value base (base * acc + d) r
      | None => None
      end
  end.

(** The decimal digits at the front of [s]: their value on top of [acc],
    their number on top of [cnt], and what follows them. *)
Fixpoint read_digits (acc cnt : Z) (s : list ascii) : Z * Z * list ascii :=
  match s with
  | c :: r =>
      match digit_value 10 c with
      | Some d => read_digits (10 * acc + d) (cnt + 1) r
      | None => (acc, cnt, s)
      end
  | [] => (acc, cnt, [])
  end.

(** What may follow the significand, to the end of the string: nothing, or
    [e] or [E], an optional sign and at least one digit. *)
Definition exponent_part (s : list ascii) : option Z :=
  match s with
  | [] => Some 0
  | c :: r =>
      if (Ascii.eqb c "e" || Ascii.eqb c "E")%bool then
        let (neg, r') :=
          match r with
          | d :: t => if Ascii.eqb d "-" then (true, t)
                      else if Ascii.eqb d "+" then (false, t)
                      else (false, r)
          | [] => (false, r)
          end in
        match read_digits 0 0 r' with
        | (v, cnt, []) => if 0 <? cnt then Some (if neg then - v else v) else None
        | _ => None
        end
      else None
  end.

(** An unsigned decimal literal: digits, a dot and more digits (one of the
    two runs may be empty), an exponent part. *)
Definition decimal_literal (neg : bool) (s : list ascii) : number :=
  let '(i, ic, r1) := read_digits 0 0 s in
  match r1 with
  | "."%char :: r2 =>
      let '(m, fc, r3) := read_digits i 0 r2 in
      if 0 <? ic + fc then
        match exponent_part r3 with
        | Some x => of_decimal neg m (x - fc)
        | None => NaN
        end
      else NaN
  | _ =>
      if 0 <? ic then
        match exponent_part r1 with
        | Some x => of_decimal neg i x
        | None => NaN
        end
      else NaN
  end.

Definition unsigned_literal (neg : bool) (s : list ascii) : number :=
  if list_eq_dec ascii_dec s (list_ascii_of_string "Infinity")
  then Inf neg
  else decimal_literal neg s.

Definition prefixed_literal (base : Z) (s : list ascii) : number :=
  match s with
  | [] => NaN
  | _ :: _ =>
      match digits_value base 0 s with
      | Some z => of_rational false z 1
      | None => NaN
      end
  end.

Definition Number (str : string) : number :=
  match trim (list_ascii_of_string str) with
  | [] => zero false
  | "0"%char :: x :: r =>
      if (Ascii.eqb x "x" || Ascii.eqb x "X")%bool then prefixed_literal 16 r
      else if (Ascii.eqb x "o" || Ascii.eqb x "O")%bool then prefixed_literal 8 r
      else if (Ascii.eqb x "b" || Ascii.eqb x "B")%bool then prefixed_literal 2 r
      else unsigned_literal false ("0"%char :: x :: r)
  | "+"%char :: r => unsigned_literal false r
  | "-"%char :: r => unsigned_literal true r
  | s => unsigned_literal false s
  end.

(** **** [Math.min], [Math.max] *)

(** [a <= b], with -0 below +0; false when one of them is NaN. *)
Definition le (a b : number) : bool :=
  match a, b with
  | NaN, _ | _, NaN => false
  | Inf true, _ | _, Inf false => true
  | Inf false, _ | _, Inf true => false
  | NegZero, NegZero => true
  | NegZero, Fin q => Qle_bool (Qmake 0 1) q
  | Fin p, NegZero => negb (Qle_bool (Qmake 0 1) p)
  | Fin p, Fin q => Qle_bool p q
  end.

Definition min (a b : number) : number :=
  match a, b with
  | NaN, _ | _, NaN => NaN
  | _, _ => if le a b then a else b
  end.

Definition max (a b : number) : number :=
  match a, b with
  | NaN, _ | _, NaN => NaN
  | _, _ => if le a b then b else a
  end.

(** **** Number to string, as a template literal does it *)

(** [p/q] divided by [10^x], as a fraction. *)
Definition scale10 (p q x : Z) : Z * Z :=
  if 0 <=? x then (p, q * 10 ^ x) else (p * 10 ^ (- x), q).

(** [10^n <= p/q]. *)
Definition ge_pow10 (p q n : Z) : bool :=
  let (a, b) := scale10 p q n in b <=? a.

Fixpoint raise (fuel : nat) (p q n : Z) : Z :=
  match fuel with
  | O => n
  | S f => if ge_pow10 p q n then raise f p q (n + 1) else n
  end.

Fixpoint lower (fuel : nat) (p q n : Z) : Z :=
  match fuel with
  | O => n
  | S f => if ge_pow10 p q (n - 1) then n else lower f p q (n - 1)
  end.

(** The [n] with [10^(n-1) <= p/q < 10^n] ([0 < p], [0 < q]), found from
    the binary exponent. *)
Definition magnitude (p q : Z) : Z :=
  let est := (ilog2 p q * 30103) / 100000 + 1 in
  lower 4 p q (raise 4 p q est).

(** Does [s * 10^x] read back as the double [p/q]? *)
Definition reads_back (p q s x : Z) : bool :=
  match of_decimal false s x with
  | Fin r => Qeq_bool r (Qmake p (Z.to_pos q))
  | _ => false
  end.

(** The decimal of [k] digits nearest to [p/q] among those that read back
    as it, if there is one: its digits [s] and its [n] (the value is
    [s * 10^(n-k)]). *)
Definition with_digits (p q n k : Z) : option (Z * Z) :=
  let (a, b) := scale10 p q (n - k) in
  let lo := a / b in
  let hi := lo + 1 in
  let ok_lo := reads_back p q lo (n - k) in
  let ok_hi := reads_back p q hi (n - k) in
  let carry := if hi =? 10 ^ k then (10 ^ (k - 1), n + 1) else (hi, n) in
  match ok_lo, ok_hi with
  | true, true =>
      match 2 * a ?= (2 * lo + 1) * b with
      | Lt => Some (lo, n)
      | Gt => Some carry
      | Eq => if Z.even lo then Some (lo, n) else Some carry
      end
  | true, false => Some (lo, n)
  | false, true => Some carry
  | false, false => None
  end.

Fixpoint shortest (fuel : nat) (p q n k : Z) : Z * Z * Z :=
  match fuel with
  | O => (p / q, k, n)
  | S f =>
      match with_digits p q n k with
      | Some (s, n') => (s, k, n')
      | None => shortest f p q n (k + 1)
      end
  end.

Fixpoint zeros (n : nat) : string :=
  match n with
  | O => EmptyString
  | S m => String "0" (zeros m)
  end.

Definition take (n : Z) (s : string) : string := substring 0 (Z.to_nat n) s.
Definition drop (n : Z) (s : string) : string :=
  substring (Z.to_nat n) (String.length s - Z.to_nat n) s.

(** The digits [s] ([k] of them) of a value [s * 10^(n-k)], written out. *)
Definition write (s k n : Z) : string :=
  let d := string_of_Z s in
  if (k <=? n) && (n <=? 21) then d ++ zeros (Z.to_nat (n - k))
  else if (0 <? n) && (n <=? 21) then take n d ++ "." ++ drop n d
  else if (-6 <? n) && (n <=? 0) then "0." ++ zeros (Z.to_nat (- n)) ++ d
  else
    let e := n - 1 in
    let sign := if 0 <=? e then "+" else "-" in
    (if k =? 1 then d else take 1 d ++ "." ++ drop 1 d)
      ++ "e" ++ sign ++ string_of_Z (Z.abs e).

Definition write_positive (p q : Z) : string :=
  let '(s, k, n) := shortest 17 p q (magnitude p q) 1 in
  write s k n.

Definition toString (x : number) : string :=
  match x with
  | NaN => "NaN"
  | NegZero => "0"
  | Inf false => "Infinity"
  | Inf true => "-Infinity"
  | Fin q =>
      let p := Qnum q in
      let d := Z.pos (Qden q) in
      if p =? 0 then "0"
      else if p <? 0 then "-" ++ write_positive (- p) d
      else write_positive p d
  end.

(** A value interpolated in a template literal, where it may be
    [undefined]. *)
Definition interpolate (s : option string) : string :=
  match s with
  | Some t => t
  | None => "undefined"
  end.

End Js.

(** ** Responses *)

Inductive body : Type :=
| Json (v : Js.value)          (* res.json(v) *)
| Text (s : string).           (* res.send(s) *)

Record response : Type := mkResponse {
  status : Z;
  headers : list (string * string);
  content : body
}.

(** The value of a header, by name. *)
Fixpoint header (h : list (string * string)) (n : string) : option string :=
  match h with
  | [] => None
  | (k, v) :: r => if String.eqb k n then Some v else header r n
  end.

(** [res.json(v)] and [res.status(c).json(v)], [res.status(c).send(s)]. *)
Definition json (v : Js.value) : response := mkResponse 200 [] (Json v).
Definition status_json (c : Z) (v : Js.value) : response := mkResponse c [] (Json v).
Definition status_send (c : Z) (s : string) : response := mkResponse c [] (Text s).

Definition is_client_error (r : response) : bool :=
  (400 <=? status r) && (status r <? 500).

(** The double quote, for header values that contain one. *)
Definition dq : string := String "034"%char EmptyString.

(** ** Errors and results of calls *)

(** A thrown value: an Error with its name and message and, for an error of
    axios that carries the upstream's answer, [err.response.data], the body
    of that answer as text. *)
Record error : Type := mkThrown {
  name : string;
  message : string;
  response_data : option string
}.

(** An error that carries no upstream answer. *)
Definition mkError (n m : string) : error := mkThrown n m None.

Inductive outcome (A : Type) : Type :=
| Ok (a : A)      (* the call returned, the promise resolved *)
| Err (e : error) (* the call threw, the promise rejected *).
Arguments Ok {A} a.
Arguments Err {A} e.

(** ** GET /api/certificate/:name/:level *)

Module Certificate.

Definition TITLES : list string :=
  ["Ruderer"; "Bootsmann"; "Wächter"; "Seefahrer"; "Schildträger"; "Seemann";
   "Wikingerjung"; "Skalde"; "Krieger"; "Navigator"; "Fährmann";
   "Stammesmitglied"; "Hafenmeister"; "Herscher"; "Schiffbauer"; "Häuptling";
   "Jarl"; "Erzjäger"; "Schildoberst"; "König"].

(** [Number(level || 1)]. *)
Definition level_number (level : string) : Js.number :=
  if Js.truthy (Some level) then Js.Number level else Js.Int 1.

(** [Math.max(1, Math.min(20, Number(level || 1)))]. *)
Definition clamp (n : Js.number) : Js.number :=
  Js.max (Js.Int 1) (Js.min (Js.Int 20) n).

Definition titleIndex (level : string) : Js.number :=
  clamp (level_number level).

Definition filename (ti : Js.number) : string :=
  "nfj_certificate_level_" ++ Js.toString ti ++ ".pdf".

(** What the handler did to the response by the time it returned or threw:
    the headers it set, the text lines it handed to the renderer (each
    with its font size), and how it ended. *)
Record rendering : Type := mkRendering {
  headers_set : list (string * string);
  lines : list (Z * string);
  ended : outcome unit
}.

(** [PDFDocument] is a class; line 83 calls it without [new]. *)
Definition not_invoked_with_new : error :=
  mkError "TypeError"
    "Class constructor PDFDocument cannot be invoked without 'new'".

(** The handler: it computes the index, sets the two headers, and throws
    at the call of [PDFDocument]; the lines that pipe the document and
    write its text are never reached, and [name] is never read. *)
Definition certificate (name level : string) : rendering :=
  let titleIndex := titleIndex level in
  mkRendering
    [("Content-Type", "application/pdf");
     ("Content-Disposition",
       "attachment; filename=" ++ dq ++ filename titleIndex ++ dq)]
    []
    (Err not_invoked_with_new).

(** The file name the interface description gives for level [n]. *)
Definition described_filename (n : Z) : string :=
  "certificate_level_" ++ Js.string_of_Z n ++ ".pdf".

End Certificate.

(** ** The store behind [db.query] *)

Module Storage.

Record user : Type := mkUser {
  id : string;
  email : string;
  points : Z;
  level : Z;
  is_premium : bool
}.

Record purchase : Type := mkPurchase {
  user_id : option string;
  provider : string;
  provider_id : string;
  amount : Z;
  currency : string
}.

(** Modelled from the spec: the [db] module and the schema it connects to
    are not among the sources.  The persisted state is two tables, users
    (id, email unique, points, level, is_premium) and purchases (user_id
    nullable reference to a user, provider, provider_id, amount, currency)
    with a uniqueness constraint on (provider, provider_id).  An id is an
    opaque identifier; here the store draws it from a sequence.  The
    generated id of a purchase row is not represented. *)
Record store : Type := mkStore {
  users : list user;
  purchases : list purchase;
  next_id : Z
}.

(** The four statements the handlers send, with their parameters. *)
Inductive stmt : Type :=
| UpdatePremium (uid : string)
    (* UPDATE users SET is_premium = true WHERE id = $1 *)
| InsertPurchase (p : purchase)
    (* INSERT INTO purchases (user_id, provider, provider_id, amount, currency)
       VALUES ($1,$2,$3,$4,$5) *)
| UpsertUser (e : string)
    (* INSERT INTO users (email) VALUES ($1) ON CONFLICT (email)
       DO UPDATE SET email = EXCLUDED.email
       RETURNING id, email, points, level, is_premium *)
| SelectUser (uid : string)
    (* SELECT id,email,points,level,is_premium FROM users WHERE id=$1 *).

Definition has_id (uid : string) (u : user) : bool := String.eqb (id u) uid.
Definition has_email (e : string) (u : user) : bool := String.eqb (email u) e.

Definition has_key (prov pid : string) (p : purchase) : bool :=
  String.eqb (provider p) prov && String.eqb (provider_id p) pid.

Definition set_premium (uid : string) (u : user) : user :=
  if has_id uid u
  then mkUser (id u) (email u) (points u) (level u) true
  else u.

Definition references_missing_user (p : purchase) (s : store) : bool :=
  match user_id p with
  | Some uid => negb (existsb (has_id uid) (users s))
  | None => false
  end.

Definition foreign_key_violation : error :=
  mkError "error" "insert or update on table purchases violates foreign key constraint".
Definition unique_violation : error :=
  mkError "error" "duplicate key value violates unique constraint".
Definition unavailable : error :=
  mkError "Error" "connection terminated".

(** Modelled from the spec: a fresh users row; the column defaults are
    those of the absent schema (points at least 0, level at least 1, not
    premium). *)
Definition new_user (s : store) (e : string) : user :=
  mkUser (Js.string_of_Z (next_id s)) e 0 1 false.

(** Modelled from the spec: what the store does with one statement, and the
    rows it returns.  The constraints are those of the persisted state
    layout; the upsert is the one the statement text spells out. *)
Definition exec (q : stmt) (s : store) : outcome (list user) * store :=
  match q with
  | UpdatePremium uid =>
      (Ok [], mkStore (map (set_premium uid) (users s)) (purchases s) (next_id s))
  | InsertPurchase p =>
      if references_missing_user p s then (Err foreign_key_violation, s)
      else if existsb (has_key (provider p) (provider_id p)) (purchases s)
      then (Err unique_violation, s)
      else (Ok [], mkStore (users s) (purchases s ++ [p]) (next_id s))
  | UpsertUser e =>
      match find (has_email e) (users s) with
      | Some u => (Ok [u], s)
      | None =>
          let u := new_user s e in
          (Ok [u], mkStore (users s ++ [u]) (purchases s) (next_id s + 1))
      end
  | SelectUser uid => (Ok (filter (has_id uid) (users s)), s)
  end.

(** The row as [res.json] receives it. *)
Definition row (u : user) : Js.value :=
  Js.Obj [("id", Js.Str (id u)); ("email", Js.Str (email u));
          ("points", Js.Num (points u)); ("level", Js.Num (level u));
          ("is_premium", Js.Bool (is_premium u))].

(** Rows of the ledger under one (provider, provider_id) key. *)
Definition ledger_rows (prov pid : string) (s : store) : list purchase :=
  filter (has_key prov pid) (purchases s).

Definition key (p : purchase) : string * string := (provider p, provider_id p).

(** No two rows of the ledger share a key. *)
Definition ledger_unique (s : store) : Prop := NoDup (map key (purchases s)).

End Storage.

(** ** What the upstream services hand back *)

Module Stripe.

Record metadata : Type := mkMetadata { userId : option string }.

Record session : Type := mkSession {
  id : string;
  session_metadata : option metadata;   (* session.metadata *)
  amount_total : option Z;
  currency : option string
}.

Record event : Type := mkEvent {
  type : string;
  object : session   (* event.data.object *)
}.

End Stripe.

Module Deepl.
Record translation : Type := mkTranslation { text : option string }.
Record data : Type := mkData { translations : option (list translation) }.
Record response : Type := mkResponse { response_data : option data }.
End Deepl.

Module Libre.
Record data : Type := mkData { translatedText : option string }.
Record response : Type := mkResponse { response_data : option data }.
End Libre.

(** ** Handlers as programs over calls *)

Inductive call : Type -> Type :=
| ConstructEvent (payload : string) (sig secret : option string) : call Stripe.event
    (* stripe.webhooks.constructEvent(req.body, sig, secret) *)
| Query (q : Storage.stmt) : call (list Storage.user)
    (* db.query(text, params); the result is r.rows *)
| DeeplPost (auth_key text source_lang target_lang : string) : call Deepl.response
| LibrePost (url q source target : string) : call Libre.response
| ConsoleError (args : list string) : call unit.

Inductive prog (A : Type) : Type :=
| Ret (a : A)
| Throw (e : error)
| Call {R : Type} (c : call R) (k : outcome R -> prog A).
Arguments Ret {A} a.
Arguments Throw {A} e.
Arguments Call {A R} c k.

Fixpoint bind {A B : Type} (p : prog A) (f : A -> prog B) : prog B :=
  match p with
  | Ret a => f a
  | Throw e => Throw e
  | Call c k => Call c (fun r => bind (k r) f)
  end.

(** [try { p } catch (e) { h e }]. *)
Fixpoint try_catch {A : Type} (p : prog A) (h : error -> prog A) : prog A :=
  match p with
  | Ret a => Ret a
  | Throw e => h e
  | Call c k => Call c (fun r => try_catch (k r) h)
  end.

(** A call whose failure is thrown at the call site, as [await] does. *)
Definition perform {R : Type} (c : call R) : prog R :=
  Call c (fun r => match r with Ok a => Ret a | Err e => Throw e end).

Notation "x <- p ;; q" := (bind p (fun x => q))
  (at level 61, p at next level, right associativity).
Notation "p ;;; q" := (bind p (fun _ => q))
  (at level 61, right associativity).

(** ** The world a program runs in *)

(** The upstream services, as functions of what they are sent. *)
Record services : Type := mkServices {
  constructEvent : string -> option string -> option string -> outcome Stripe.event;
  deepl : string -> string -> string -> string -> outcome Deepl.response;
  libre : string -> string -> string -> string -> outcome Libre.response
}.

(** The store, the storage failures still to come (one flag per query,
    [true] for a query that fails before it has any effect; none left means
    none fails), and what was written to the console. *)
Record world : Type := mkWorld {
  db : Storage.store;
  faults : list bool;
  console : list (list string)
}.

Definition answer (sv : services) {R : Type} (c : call R) (w : world)
  : outcome R * world :=
  match c in call T return outcome T * world with
  | ConstructEvent payload sig secret => (constructEvent sv payload sig secret, w)
  | Query q =>
      match faults w with
      | true :: rest => (Err Storage.unavailable, mkWorld (db w) rest (console w))
      | _ => let (r, s) := Storage.exec q (db w) in
             (r, mkWorld s (tl (faults w)) (console w))
      end
  | DeeplPost k t s d => (deepl sv k t s d, w)
  | LibrePost u q s t => (libre sv u q s t, w)
  | ConsoleError args => (Ok tt, mkWorld (db w) (faults w) (console w ++ [args]))
  end.

(** One request handled from start to end. *)
Fixpoint run {A : Type} (sv : services) (p : prog A) (w : world)
  : outcome A * world :=
  match p with
  | Ret a => (Ok a, w)
  | Throw e => (Err e, w)
  | Call c k => let (r, w') := answer sv c w in run sv (k r) w'
  end.

(** The calls a handler makes while it runs, in the order it makes them. *)
Inductive made : Type :=
| Made {R : Type} (c : call R).

Fixpoint calls {A : Type} (sv : services) (p : prog A) (w : world)
  : list made :=
  match p with
  | Call c k => let (r, w') := answer sv c w in Made c :: calls sv (k r) w'
  | _ => []
  end.

(** Two requests in flight at once: each call is one step, and the
    schedule says whose step is next ([true] for the first).  The steps
    are finer than the event loop makes them (it switches at an [await]
    only), so every order the server can produce, in one process or in
    several, is among the schedules. *)
Definition step {A : Type} (sv : services) (p : prog A) (w : world)
  : prog A * world :=
  match p with
  | Call c k => let (r, w') := answer sv c w in (k r, w')
  | _ => (p, w)
  end.

Fixpoint run_pair {A : Type} (sv : services) (sched : list bool)
  (p1 p2 : prog A) (w : world) : prog A * prog A * world :=
  match sched with
  | [] => (p1, p2, w)
  | true :: rest => let (p1', w') := step sv p1 w in run_pair sv rest p1' p2 w'
  | false :: rest => let (p2', w') := step sv p2 w in run_pair sv rest p1 p2' w'
  end.

Definition finished {A : Type} (p : prog A) : bool :=
  match p with
  | Call _ _ => false
  | _ => true
  end.

(** ** The routes *)

Module Server.

(** [process.env], the variables the routes below read. *)
Record env : Type := mkEnv {
  STRIPE_SECRET_KEY : option string;
  STRIPE_WEBHOOK_SECRET : option string;
  DEEPL_API_KEY : option string;
  LIBRETRANSLATE_URL : option string
}.

(** [const stripe = process.env.STRIPE_SECRET_KEY ? Stripe(...) : null],
    as far as the routes test it. *)
Definition stripe (cfg : env) : bool := Js.truthy (STRIPE_SECRET_KEY cfg).

Definition console_error (args : list string) : prog unit :=
  perform (ConsoleError args).

Definition query (q : Storage.stmt) : prog (list Storage.user) :=
  perform (Query q).

(** *** POST /api/translate *)

(** [req.body || {}], destructured: each field is a string or is absent. *)
Record translate_body : Type := mkTranslateBody {
  q : option string;
  source : option string;
  target : option string
}.

Definition fallback_text (text : string) : string :=
  "(Übersetzung benötigt API) " ++ text.

Definition optional (s : option string) : Js.value :=
  match s with
  | Some t => Js.Str t
  | None => Js.Undefined
  end.

Definition translated (text : Js.value) (tag : string) : response :=
  json (Js.Obj [("translatedText", text); ("provider", Js.Str tag)]).

(** [dlRes.data && dlRes.data.translations && dlRes.data.translations[0]],
    and the response made of it. *)
Definition deepl_result (r : Deepl.response) : option response :=
  match Deepl.response_data r with
  | Some d =>
      match Deepl.translations d with
      | Some (t :: _) => Some (translated (optional (Deepl.text t)) "deepl")
      | _ => None
      end
  | None => None
  end.

(** [lt.data && lt.data.translatedText]. *)
Definition libre_result (r : Libre.response) : option response :=
  match Libre.response_data r with
  | Some d =>
      if Js.truthy (Libre.translatedText d)
      then Some (translated (optional (Libre.translatedText d)) "libre")
      else None
  | None => None
  end.

(** The body of the [try] block, for fields already known to be there. *)
Definition translate_try (cfg : env) (text src tgt : string) : prog response :=
  r1 <- match DEEPL_API_KEY cfg with
        | Some key =>
            if Js.truthy (Some key) then
              dlRes <- perform (DeeplPost key text (Js.toUpperCase src)
                                  (Js.toUpperCase tgt)) ;;
              Ret (deepl_result dlRes)
            else Ret None
        | None => Ret None
        end ;;
  match r1 with
  | Some res => Ret res
  | None =>
      r2 <- match LIBRETRANSLATE_URL cfg with
            | Some url =>
                if Js.truthy (Some url) then
                  lt <- perform (LibrePost (url ++ "/translate") text src tgt) ;;
                  Ret (libre_result lt)
                else Ret None
            | None => Ret None
            end ;;
      match r2 with
      | Some res => Ret res
      | None => Ret (translated (Js.Str (fallback_text text)) "none")
      end
  end.

Definition missing_fields : response :=
  status_json 400 (Js.Obj [("error", Js.Str "Missing q/source/target")]).

(** [err?.response?.data || err.message || err], as the console line
    records it: the body of the upstream's answer when the error carries a
    non-empty one, and else the message of the error; when that is empty
    too the console is handed the error object itself, which the line
    records by its (empty) message. *)
Definition logged (err : error) : string :=
  Js.or_else (response_data err) (message err).

Definition translation_failed : response :=
  status_json 500 (Js.Obj [("error", Js.Str "Translation failed")]).

Definition translate (cfg : env) (body : translate_body) : prog response :=
  match q body, source body, target body with
  | Some text, Some src, Some tgt =>
      if (negb (Js.truthy (Some text)) || negb (Js.truthy (Some src))
          || negb (Js.truthy (Some tgt)))%bool
      then Ret missing_fields
      else try_catch (translate_try cfg text src tgt)
             (fun err =>
                console_error ["translate error"; logged err] ;;;
                Ret translation_failed)
  | _, _, _ => Ret missing_fields
  end.

(** *** POST /webhook *)

(** The request as the handler sees it: the headers under their lower-cased
    names, and in [req.body] whatever the body parsers left there, which is
    handed to [constructEvent] as it is. *)
Record webhook_request : Type := mkWebhookRequest {
  req_headers : list (string * string);
  req_body : string
}.

(** [req.headers.get ? req.headers.get('stripe-signature')
                     : req.headers['stripe-signature']].
    [req.headers] is a plain object of strings: when the request carries a
    non-empty header called [get], the first branch calls a string. *)
Definition signature (req : webhook_request) : prog (option string) :=
  if Js.truthy (header (req_headers req) "get")
  then Throw (mkError "TypeError" "req.headers.get is not a function")
  else Ret (header (req_headers req) "stripe-signature").

Definition completed : string := "checkout.session.completed".

(** [session.metadata?.userId]. *)
Definition session_userId (session : Stripe.session) : option string :=
  match Stripe.session_metadata session with
  | Some m => Stripe.userId m
  | None => None
  end.

(** The parameters of the ledger insert. *)
Definition purchase_of (session : Stripe.session) : Storage.purchase :=
  Storage.mkPurchase
    (Js.or_null (session_userId session))
    "stripe"
    (Stripe.id session)
    (Js.or_else_num (Stripe.amount_total session) 499)
    (Js.or_else (Stripe.currency session) "eur").

(** [if (userId) await db.query('UPDATE ...', [userId])]. *)
Definition update_premium (session : Stripe.session) : prog unit :=
  match session_userId session with
  | Some u => if Js.truthy (Some u)
              then query (Storage.UpdatePremium u) ;;; Ret tt
              else Ret tt
  | None => Ret tt
  end.

Definition insert_purchase (session : Stripe.session) : prog unit :=
  query (Storage.InsertPurchase (purchase_of session)) ;;; Ret tt.

Definition log_apply_error (e : error) : prog unit :=
  console_error ["db webhook handler error"; message e].

(** The [try] block of the completion branch and its [catch]. *)
Definition apply_session (session : Stripe.session) : prog unit :=
  try_catch (update_premium session ;;; insert_purchase session)
            log_apply_error.

Definition received : response := json (Js.Obj [("received", Js.Bool true)]).

Definition rejected (e : error) : response :=
  status_send 400 ("Webhook Error: " ++ message e).

Definition verify (cfg : env) (req : webhook_request) (sig : option string)
  : prog Stripe.event :=
  if stripe cfg
  then perform (ConstructEvent (req_body req) sig (STRIPE_WEBHOOK_SECRET cfg))
  else Throw (mkError "Error" "Stripe not configured").

(** The outcome of [verify] for a request whose signature header was
    read: the event Stripe constructs, or the error thrown inside the first
    [try]. *)
Definition verification (sv : services) (cfg : env) (req : webhook_request)
  : outcome Stripe.event :=
  fst (run sv (verify cfg req (header (req_headers req) "stripe-signature"))
         (mkWorld (Storage.mkStore [] [] 0) [] [])).

(** What follows a verified event. *)
Definition dispatch (event : Stripe.event) : prog response :=
  (if String.eqb (Stripe.type event) completed
   then apply_session (Stripe.object event)
   else Ret tt) ;;;
  Ret received.

Definition webhook (cfg : env) (req : webhook_request) : prog response :=
  sig <- signature req ;;
  r <- try_catch (event <- verify cfg req sig ;; Ret (inl event))
         (fun err =>
            console_error ["Webhook signature verification failed.";
                           message err] ;;;
            Ret (inr (rejected err))) ;;
  match r with
  | inl event => dispatch event
  | inr res => Ret res
  end.

(** *** POST /api/register and GET /api/me/:id *)

Definition db_error : response :=
  status_json 500 (Js.Obj [("error", Js.Str "db error")]).

Definition first_row (rows : list Storage.user) : option Js.value :=
  match rows with
  | u :: _ => Some (Storage.row u)
  | [] => None
  end.

Definition register (email : option string) : prog response :=
  match email with
  | Some e =>
      if Js.truthy (Some e) then
        try_catch
          (rows <- query (Storage.UpsertUser e) ;;
           Ret (json (match first_row rows with
                      | Some v => v
                      | None => Js.Undefined
                      end)))
          (fun err => console_error [message err] ;;; Ret db_error)
      else Ret (status_json 400 (Js.Obj [("error", Js.Str "email required")]))
  | None => Ret (status_json 400 (Js.Obj [("error", Js.Str "email required")]))
  end.

Definition me (uid : string) : prog response :=
  try_catch
    (rows <- query (Storage.SelectUser uid) ;;
     Ret (json (match first_row rows with
                | Some v => v
                | None => Js.Null
                end)))
    (fun _ => Ret db_error).

End Server.

(** ** Worlds whose storage does not fail *)

Definition reliable (w : world) : Prop :=
  forall b, In b (faults w) -> b = false.


(** ** The apply step of the webhook, in terms of the tables *)

(** The users table after [update_premium] went through. *)
Definition premium_update (session : Stripe.session) (us : list Storage.user)
  : list Storage.user :=
  match Server.session_userId session with
  | Some u => if Js.truthy (Some u) then map (Storage.set_premium u) us else us
  | None => us
  end.

(** The console line of the [catch] of the apply step. *)
Definition apply_error_line (e : error) : list string :=
  ["db webhook handler error"; message e].


(** ** A deployment to evaluate the routes on *)

Module Sample.

(** A completion event for user 1 that carries neither amount nor currency. *)
Definition session_1 : Stripe.session :=
  Stripe.mkSession "cs_test_1" (Some (Stripe.mkMetadata (Some "1"))) None None.

Definition event_1 : Stripe.event := Stripe.mkEvent Server.completed session_1.

(** Upstreams: Stripe accepts exactly the payload "signed"; DeepL times
    out; LibreTranslate answers "Hallo". *)
Definition upstream : services :=
  mkServices
    (fun payload _ _ =>
       if String.eqb payload "signed" then Ok event_1
       else Err (mkError "StripeSignatureVerificationError"
                   "No signatures found matching the expected signature for payload"))
    (fun _ _ _ _ => Err (mkError "AxiosError" "timeout of 5000ms exceeded"))
    (fun _ _ _ _ => Ok (Libre.mkResponse (Some (Libre.mkData (Some "Hallo"))))).

(** Upstreams whose translators both answer without a translation. *)
Definition upstream_empty : services :=
  mkServices (constructEvent upstream)
    (fun _ _ _ _ => Ok (Deepl.mkResponse (Some (Deepl.mkData (Some [])))))
    (fun _ _ _ _ => Ok (Libre.mkResponse None)).

(** DeepL answers without a translation, LibreTranslate with "Hallo". *)
Definition upstream_secondary : services :=
  mkServices (constructEvent upstream) (deepl upstream_empty) (libre upstream).

Definition configured : Server.env :=
  Server.mkEnv (Some "sk_test") (Some "whsec_test") (Some "deepl-key")
    (Some "http://libre").

Definition only_deepl : Server.env :=
  Server.mkEnv (Some "sk_test") (Some "whsec_test") (Some "deepl-key") None.

Definition delivery : Server.webhook_request :=
  Server.mkWebhookRequest [("stripe-signature", "t=1,v1=abc")] "signed".

Definition forged : Server.webhook_request :=
  Server.mkWebhookRequest [("stripe-signature", "t=1,v1=abc")] "tampered".

Definition hello : Server.translate_body :=
  Server.mkTranslateBody (Some "Hello") (Some "en") (Some "de").

(** One registered user, not premium, and an empty ledger. *)
Definition store_1 : Storage.store :=
  Storage.mkStore [Storage.mkUser "1" "erik@example.org" 0 1 false] [] 2.

Definition world_1 : world := mkWorld store_1 [] [].

(** The same world, where the second query to come fails. *)
Definition world_1_second_query_fails : world := mkWorld store_1 [false; true] [].

End Sample.


(** ** Where a delivery in flight stands *)

(** The handler of a verified completion event between two of its calls:
    before the verification, before the apply step, before the insert,
    before the console line of the [catch], and after its last call. *)
Inductive stage : Type :=
| AtVerify
| AtApply
| AtInsert
| AtLog (e : error)
| Done.

(** What is left of the apply step once the update went through, and once
    an error was caught. *)
Definition after_update (session : Stripe.session) : prog response :=
  try_catch (Server.insert_purchase session) Server.log_apply_error ;;;
  Ret Server.received.

Definition after_error (e : error) : prog response :=
  Server.log_apply_error e ;;; Ret Server.received.

Definition prog_of_stage (cfg : Server.env) (req : Server.webhook_request)
  (event : Stripe.event) (s : stage) : prog response :=
  match s with
  | AtVerify => Server.webhook cfg req
  | AtApply => Server.dispatch event
  | AtInsert => after_update (Stripe.object event)
  | AtLog e => after_error e
  | Done => Ret Server.received
  end.

(** The key of the ledger row of a session. *)
Definition session_key (session : Stripe.session) : string * string :=
  ("stripe", Stripe.id session).

(** A delivery that is past its insert has its key in the ledger. *)
Definition stage_inv (session : Stripe.session) (s : stage) (w : world) : Prop :=
  match s with
  | AtLog _ | Done =>
      In (session_key session) (map Storage.key (Storage.purchases (db w)))
  | _ => True
  end.

(** The result of a finished program, as a program. *)
Definition done_of {A : Type} (o : outcome A) : prog A :=
  match o with
  | Ok a => Ret a
  | Err e => Throw e
  end.


(** The world a delivery of a session can go through without losing its
    row: the storage does not fail, and the user the row refers to, if
    any, is registered. *)
Definition ready_for (session : Stripe.session) (w : world) : Prop :=
  reliable w /\
  Storage.references_missing_user (Server.purchase_of session) (db w) = false.


(** ** POST /api/create-checkout-session *)

Module Checkout.

(** The argument of [stripe.checkout.sessions.create]. *)
Record price_data : Type := mkPriceData {
  currency : string;
  product_name : string;       (* product_data.name *)
  unit_amount : Z
}.

Record line_item : Type := mkLineItem {
  item_price : price_data;     (* price_data *)
  quantity : Z
}.

Record params : Type := mkParams {
  payment_method_types : list string;
  line_items : list line_item;
  mode : string;
  success_url : string;
  cancel_url : string;
  metadata : Stripe.metadata
}.

(** What the provider hands back, as far as the route reads it:
    [session.id], and [session.url], which the provider may leave null. *)
Record created : Type := mkCreated {
  id : string;
  url : option string
}.

(** The object built in the call; [public_url] is
    [process.env.PUBLIC_URL], interpolated even when it is not set. *)
Definition params_of (public_url userId : option string) : params :=
  mkParams
    ["card"]
    [mkLineItem (mkPriceData "eur" "NFJ Premium" 499) 1]
    "payment"
    (Js.interpolate public_url
       ++ "/payment-success?session_id={CHECKOUT_SESSION_ID}")
    (Js.interpolate public_url ++ "/payment-cancel")
    (Stripe.mkMetadata (Some (Js.or_else userId EmptyString))).

Definition not_configured : response :=
  status_json 500 (Js.Obj [("error", Js.Str "Stripe not configured")]).

Definition stripe_error : response :=
  status_json 500 (Js.Obj [("error", Js.Str "stripe error")]).

Definition session_json (s : created) : response :=
  json (Js.Obj [("id", Js.Str (id s));
                ("url", match url s with
                        | Some u => Js.Str u
                        | None => Js.Null
                        end)]).

(** The handler.  Its one call goes to the provider, given here as the
    function [create] of what it is sent; the result is the response and
    the lines written to the console.  [userId] is [req.body.userId], a
    string or absent. *)
Definition create_checkout_session
  (cfg : Server.env) (public_url userId : option string)
  (create : params -> outcome created) : response * list (list string) :=
  if negb (Server.stripe cfg) then (not_configured, [])
  else match create (params_of public_url userId) with
       | Ok session => (session_json session, [])
       | Err e => (stripe_error, [[message e]])
       end.

End Checkout.

(** ** Tables that only grow *)

(** A row of users that kept its identity: the same id, email, points and
    level, and the premium flag if it had it. *)
Definition user_kept (u u' : Storage.user) : Prop :=
  Storage.id u' = Storage.id u /\ Storage.email u' = Storage.email u /\
  Storage.points u' = Storage.points u /\ Storage.level u' = Storage.level u /\
  (Storage.is_premium u = true -> Storage.is_premium u' = true).

(** [s'] has every ledger row of [s], in place and unchanged, and every
    user of [s], in place and kept; new rows come after. *)
Definition extends (s s' : Storage.store) : Prop :=
  (exists added,
     Storage.purchases s' = (Storage.purchases s ++ added)%list) /\
  (exists kept added,
     Storage.users s' = (kept ++ added)%list /\
     Forall2 user_kept (Storage.users s) kept).

(** The same delivery handled [n] times, one after the other. *)
Fixpoint deliveries (sv : services) (cfg : Server.env)
  (req : Server.webhook_request) (n : nat) (w : world) : world :=
  match n with
  | O => w
  | S m => deliveries sv cfg req m (snd (run sv (Server.webhook cfg req) w))
  end.


(** Nothing of [s] is lost in [s']: every ledger row is still there, and
    every user, with the id, email, points and level it had and with the
    premium flag if it had it. *)
Definition nothing_lost (s s' : Storage.store) : Prop :=
  (forall p, In p (Storage.purchases s) -> In p (Storage.purchases s')) /\
  (forall u, In u (Storage.users s) ->
     exists u', In u' (Storage.users s') /\
       Storage.id u' = Storage.id u /\ Storage.email u' = Storage.email u /\
       Storage.points u' = Storage.points u /\
       Storage.level u' = Storage.level u /\
       (Storage.is_premium u = true -> Storage.is_premium u' = true)).


(** A registration of [e] in flight: not yet at its query, or answered
    with the row the users table holds under [e]. *)
Definition registering (e : string) (p : prog response) (w : world) : Prop :=
  p = Server.register (Some e) \/
  exists u, p = Ret (json (Storage.row u)) /\
            find (Storage.has_email e) (Storage.users (db w)) = Some u.

(** The store while registrations of [e] are in flight on [s0]: untouched,
    or with the one new row. *)
Definition registered_on (e : string) (s0 : Storage.store) (w : world) : Prop :=
  db w = s0 \/
  exists u, find (Storage.has_email e) (Storage.users s0) = None /\
            Storage.email u = e /\
            Storage.users (db w) = (Storage.users s0 ++ [u])%list /\
            Storage.purchases (db w) = Storage.purchases s0.


(** ** More of the sample deployment *)

Module Cases.

(** DeepL answers "Hallo"; LibreTranslate is down. *)
Definition upstream_deepl : services :=
  mkServices (constructEvent Sample.upstream)
    (fun _ _ _ _ =>
       Ok (Deepl.mkResponse
             (Some (Deepl.mkData (Some [Deepl.mkTranslation (Some "Hallo")])))))
    (fun _ _ _ _ => Err (mkError "AxiosError" "connect ECONNREFUSED")).

(** DeepL answers an empty list; LibreTranslate is down. *)
Definition upstream_libre_down : services :=
  mkServices (constructEvent Sample.upstream) (deepl Sample.upstream_empty)
    (libre upstream_deepl).

Definition no_source : Server.translate_body :=
  Server.mkTranslateBody (Some "Hello") (Some EmptyString) (Some "de").

(** DeepL answers an empty list; LibreTranslate refuses with an answer
    of its own. *)
Definition upstream_libre_refuses : services :=
  mkServices (constructEvent Sample.upstream) (deepl Sample.upstream_empty)
    (fun _ _ _ _ =>
       Err (mkThrown "AxiosError" "Request failed with status code 429"
              (Some "Slowdown: 20 per 1 minute"))).

(** The level 12 behind a no-break space (U+00A0, two bytes). *)
Definition level_padded : string :=
  String "194"%char (String "160"%char "12").

(** A forged delivery that also carries a header named get. *)
Definition forged_with_get_header : Server.webhook_request :=
  Server.mkWebhookRequest
    [("stripe-signature", "t=1,v1=abc"); ("get", "1")] "tampered".

(** A signed delivery that also carries a header named get. *)
Definition with_get_header : Server.webhook_request :=
  Server.mkWebhookRequest
    [("stripe-signature", "t=1,v1=abc"); ("get", "1")] "signed".




(** The sample world, where the next query fails. *)
Definition world_1_next_query_fails : world :=
  mkWorld Sample.store_1 [true] [].

End Cases.

(** * Properties *)

(** ** The certificate route *)

Section CertificateFacts.
Import Certificate.

Lemma TITLES_length : List.length TITLES = 20%nat.
Proof. reflexivity. Qed.

Lemma clamp_Int (z : Z) : clamp (Js.Int z) = Js.Int (Z.max 1 (Z.min 20 z)).
Proof.
  unfold clamp, Js.min, Js.max, Js.le, Js.Int, Qle_bool. cbn [Qnum Qden].
  rewrite !Z.mul_1_r.
  destruct (20 <=? z) eqn:H20.
  - apply Z.leb_le in H20. cbn. f_equal. f_equal. lia.
  - apply Z.leb_gt in H20. cbn [Qnum Qden]. rewrite !Z.mul_1_r.
    destruct (1 <=? z) eqn:H1.
    + apply Z.leb_le in H1. f_equal. f_equal. lia.
    + apply Z.leb_gt in H1. f_equal. f_equal. lia.
Qed.

(** [Number(level || 1)] and [Number(level)] clamp alike: the empty level
    reads as 0. *)
Lemma level_number_Int (level : string) (z : Z) :
  Js.Number level = Js.Int z ->
  exists z', level_number level = Js.Int z' /\
             Z.max 1 (Z.min 20 z') = Z.max 1 (Z.min 20 z).
Proof.
  intros H. unfold level_number.
  destruct level as [|c r].
  - simpl. exists 1. split; [reflexivity|].
    vm_compute in H. injection H as <-. reflexivity.
  - simpl. exists z. split; [exact H | reflexivity].
Qed.

Lemma title_in_range (n : Z) :
  1 <= n <= 20 -> exists t, nth_error TITLES (Z.to_nat (n - 1)) = Some t.
Proof.
  intros Hn.
  destruct (nth_error TITLES (Z.to_nat (n - 1))) as [t|] eqn:Ht.
  - exists t. reflexivity.
  - apply nth_error_None in Ht. rewrite TITLES_length in Ht. lia.
Qed.

(** What the template literal writes for the integers 1 to 20. *)
Lemma toString_clamped (n : Z) :
  1 <= n <= 20 -> Js.toString (Js.Int n) = Js.string_of_Z n.
Proof.
  intros [H1 H2]. destruct n as [|p|p]; try lia.
  do 5 (try (destruct p as [p|p|]; try lia)); vm_compute; reflexivity.
Qed.

(** Whatever the name and the level, the handler hands no line to the
    renderer and ends by throwing at the call of [PDFDocument]. *)
Lemma certificate_never_rendered (name level : string) :
  lines (certificate name level) = [] /\
  ended (certificate name level) = Err not_invoked_with_new.
Proof. split; reflexivity. Qed.

(** C8, as it is written, fails: for the request /api/certificate/Erik/0
    the attachment is named nfj_certificate_level_1.pdf, which is not the
    described certificate_level_1.pdf. *)
Lemma certificate_filename_has_prefix :
  titleIndex "0" = Js.Int 1 /\
  header (headers_set (certificate "Erik" "0")) "Content-Disposition"
  = Some ("attachment; filename=" ++ dq ++ "nfj_certificate_level_1.pdf" ++ dq) /\
  filename (Js.Int 1) <> described_filename 1.
Proof.
  split; [vm_compute; reflexivity|]. split; [vm_compute; reflexivity|].
  vm_compute. discriminate.
Qed.

(** C8 (amended): when [Number] reads the level parameter as an integer
    [z], the index is [z] clamped to 1..20 (0 gives 1, 99 gives 20), the
    20-entry table has an entry at the index minus one, and the handler
    sets Content-Type application/pdf and Content-Disposition attachment
    with the file name nfj_certificate_level_N.pdf for the clamped N. *)
Theorem certificate_clamps_integer_level (name level : string) (z : Z) :
  Js.Number level = Js.Int z ->
  let n := Z.max 1 (Z.min 20 z) in
  1 <= n <= 20 /\
  titleIndex level = Js.Int n /\
  (exists t, nth_error TITLES (Z.to_nat (n - 1)) = Some t) /\
  headers_set (certificate name level) =
    [("Content-Type", "application/pdf");
     ("Content-Disposition",
       "attachment; filename=" ++ dq
         ++ ("nfj_certificate_level_" ++ Js.string_of_Z n ++ ".pdf")
         ++ dq)] /\
  titleIndex "0" = Js.Int 1 /\
  titleIndex "99" = Js.Int 20.
Proof.
  intros H n.
  assert (Hn : 1 <= n <= 20) by (unfold n; lia).
  destruct (level_number_Int level z H) as (z' & Hl & Hz).
  assert (Hti : titleIndex level = Js.Int n).
  { unfold titleIndex. rewrite Hl, clamp_Int, Hz. reflexivity. }
  split; [exact Hn|]. split; [exact Hti|].
  split; [exact (title_in_range n Hn)|].
  split.
  - unfold certificate, filename. rewrite Hti, (toString_clamped n Hn).
    reflexivity.
  - split; vm_compute; reflexivity.
Qed.

(** The request /api/certificate/Erik/99, and levels that read as integers
    without being written as one: 1e1, and 12 behind a no-break space. *)
Lemma certificate_clamps_integer_level_witness :
  Js.Number "99" = Js.Int 99 /\
  titleIndex "99" = Js.Int 20 /\
  header (headers_set (certificate "Erik" "99")) "Content-Disposition"
  = Some ("attachment; filename=" ++ dq ++ "nfj_certificate_level_20.pdf" ++ dq) /\
  Js.Number "1e1" = Js.Int 10 /\
  titleIndex "1e1" = Js.Int 10 /\
  Js.Number Cases.level_padded = Js.Int 12 /\
  titleIndex Cases.level_padded = Js.Int 12.
Proof.
  assert (H99 : Js.Number "99" = Js.Int 99) by (vm_compute; reflexivity).
  assert (H10 : Js.Number "1e1" = Js.Int 10) by (vm_compute; reflexivity).
  assert (H12 : Js.Number Cases.level_padded = Js.Int 12)
    by (vm_compute; reflexivity).
  split; [exact H99|].
  destruct (certificate_clamps_integer_level "Erik" "99" 99 H99)
    as (_ & Hti & _ & Hh & _).
  split; [exact Hti|]. split; [rewrite Hh; reflexivity|].
  split; [exact H10|].
  split; [exact (proj1 (proj2 (certificate_clamps_integer_level "Erik" "1e1" 10 H10)))|].
  split; [exact H12|].
  exact (proj1 (proj2 (certificate_clamps_integer_level "Erik" Cases.level_padded
                         12 H12))).
Defined.

End CertificateFacts.

(** ** The webhook route: verification *)

Section WebhookVerification.
Import Server.

Variable sv : services.
Variable cfg : env.

#[local] Abbreviation verification := (Server.verification sv cfg).

Lemma verification_eq (req : webhook_request) :
  verification req =
  if stripe cfg
  then constructEvent sv (req_body req)
         (header (req_headers req) "stripe-signature")
         (STRIPE_WEBHOOK_SECRET cfg)
  else Err (mkError "Error" "Stripe not configured").
Proof.
  unfold Server.verification, verify. destruct (stripe cfg); simpl; [|reflexivity].
  destruct (constructEvent sv _ _ _); reflexivity.
Qed.

Lemma run_verify (req : webhook_request) (w : world) :
  run sv (verify cfg req (header (req_headers req) "stripe-signature")) w
  = (verification req, w).
Proof.
  rewrite verification_eq. unfold verify. destruct (stripe cfg); simpl; [|reflexivity].
  destruct (constructEvent sv _ _ _); reflexivity.
Qed.

(** The handler after the signature header was read: either the rejection
    or the dispatch of the verified event. *)
Lemma run_webhook (req : webhook_request) (w : world) :
  Js.truthy (header (req_headers req) "get") = false ->
  run sv (webhook cfg req) w =
  match verification req with
  | Ok event => run sv (dispatch event) w
  | Err e =>
      (Ok (rejected e),
       mkWorld (db w) (faults w)
         (console w ++ [["Webhook signature verification failed."; message e]]))
  end.
Proof.
  intros Hget. rewrite verification_eq. unfold webhook, signature, verify.
  rewrite Hget. simpl.
  destruct (stripe cfg); simpl; [|reflexivity].
  destruct (constructEvent sv _ _ _); reflexivity.
Qed.

(** A request with a non-empty header called [get] never reaches the
    verification: the handler throws outside its [try] blocks, sends
    nothing, and the store is as it was. *)
Lemma run_webhook_get_header (req : webhook_request) (w : world) :
  Js.truthy (header (req_headers req) "get") = true ->
  run sv (webhook cfg req) w
  = (Err (mkError "TypeError" "req.headers.get is not a function"), w).
Proof.
  intros Hget. unfold webhook, signature. rewrite Hget. reflexivity.
Qed.

(** Where the headers have none called [get], the endpoint fails closed:
    when the verification of a delivery fails with error [e] (Stripe is
    not configured, or constructEvent throws for a bad signature, a
    missing secret or a malformed header), the response has status 400, a
    client error, its text is "Webhook Error: " followed by the message of
    [e], and the store is untouched: the ledger has the rows it had and
    every user the premium flag it had. *)
Theorem webhook_fails_closed (req : webhook_request) (w : world) (e : error) :
  Js.truthy (header (req_headers req) "get") = false ->
  verification req = Err e ->
  exists res w',
    run sv (webhook cfg req) w = (Ok res, w') /\
    status res = 400 /\ is_client_error res = true /\
    content res = Text ("Webhook Error: " ++ message e) /\
    db w' = db w /\
    Storage.purchases (db w') = Storage.purchases (db w) /\
    map Storage.is_premium (Storage.users (db w'))
      = map Storage.is_premium (Storage.users (db w)).
Proof.
  intros Hget Hv. rewrite (run_webhook req w Hget), Hv.
  eexists. eexists. split; [reflexivity|].
  repeat split.
Qed.

(** Whatever the request, a delivery that is not verified leaves the store
    alone. *)
Lemma webhook_unverified_store (req : webhook_request) (w : world) :
  (forall event, verification req <> Ok event) ->
  db (snd (run sv (webhook cfg req) w)) = db w.
Proof.
  intros Hv.
  destruct (Js.truthy (header (req_headers req) "get")) eqn:Hget.
  - rewrite (run_webhook_get_header req w Hget). reflexivity.
  - rewrite (run_webhook req w Hget).
    destruct (verification req) as [event|e]; [|reflexivity].
    exfalso. exact (Hv event eq_refl).
Qed.

Lemma verification_not_configured (req : webhook_request) :
  stripe cfg = false ->
  verification req = Err (mkError "Error" "Stripe not configured").
Proof. intros H. rewrite verification_eq, H. reflexivity. Qed.

End WebhookVerification.

(** ** Running programs *)

Section Running.

Variable sv : services.

Lemma run_bind {A B : Type} (p : prog A) (f : A -> prog B) (w : world) :
  run sv (bind p f) w =
  match run sv p w with
  | (Ok a, w') => run sv (f a) w'
  | (Err e, w') => (Err e, w')
  end.
Proof.
  revert w. induction p as [a|e|R c k IH]; intros w; simpl; try reflexivity.
  destruct (answer sv c w) as [r w']. apply IH.
Qed.

Lemma run_try_catch {A : Type} (p : prog A) (h : error -> prog A) (w : world) :
  run sv (try_catch p h) w =
  match run sv p w with
  | (Ok a, w') => (Ok a, w')
  | (Err e, w') => run sv (h e) w'
  end.
Proof.
  revert w. induction p as [a|e|R c k IH]; intros w; simpl; try reflexivity.
  destruct (answer sv c w) as [r w']. apply IH.
Qed.

Lemma calls_bind {A B : Type} (p : prog A) (f : A -> prog B) (w : world) :
  calls sv (bind p f) w =
  (calls sv p w ++
   match run sv p w with
   | (Ok a, w') => calls sv (f a) w'
   | (Err _, _) => []
   end)%list.
Proof.
  revert w. induction p as [a|e|R c k IH]; intros w; simpl; try reflexivity.
  destruct (answer sv c w) as [r w']. simpl. f_equal. apply IH.
Qed.

Lemma calls_try_catch {A : Type} (p : prog A) (h : error -> prog A) (w : world) :
  calls sv (try_catch p h) w =
  (calls sv p w ++
   match run sv p w with
   | (Ok _, _) => []
   | (Err e, w') => calls sv (h e) w'
   end)%list.
Proof.
  revert w. induction p as [a|e|R c k IH]; intros w; simpl; try reflexivity.
  destruct (answer sv c w) as [r w']. simpl. f_equal. apply IH.
Qed.

Lemma run_perform {R : Type} (c : call R) (w : world) :
  run sv (perform c) w = answer sv c w.
Proof.
  unfold perform. simpl. destruct (answer sv c w) as [[a|e] w']; reflexivity.
Qed.

(** A query: it fails when a failure is due, and is executed otherwise. *)
Lemma answer_query (q : Storage.stmt) (w : world) :
  answer sv (Query q) w =
  match faults w with
  | true :: rest => (Err Storage.unavailable, mkWorld (db w) rest (console w))
  | _ => (fst (Storage.exec q (db w)),
          mkWorld (snd (Storage.exec q (db w))) (tl (faults w)) (console w))
  end.
Proof.
  simpl. destruct (faults w) as [|[|] rest];
    try reflexivity; destruct (Storage.exec q (db w)); reflexivity.
Qed.

Lemma answer_query_no_fault (q : Storage.stmt) (w : world) :
  hd false (faults w) = false ->
  answer sv (Query q) w =
  (fst (Storage.exec q (db w)),
   mkWorld (snd (Storage.exec q (db w))) (tl (faults w)) (console w)).
Proof.
  intros H. rewrite answer_query.
  destruct (faults w) as [|[|] rest]; try reflexivity. discriminate.
Qed.

Lemma reliable_hd (w : world) : reliable w -> hd false (faults w) = false.
Proof.
  unfold reliable. destruct (faults w) as [|b rest]; intros H; [reflexivity|].
  simpl. apply H. left. reflexivity.
Qed.

Lemma reliable_tl (w : world) (s : Storage.store) (c : list (list string)) :
  reliable w -> reliable (mkWorld s (tl (faults w)) c).
Proof.
  unfold reliable. simpl. intros H b Hb. apply H.
  destruct (faults w); [contradiction | right; exact Hb].
Qed.

Lemma run_console_error (args : list string) (w : world) :
  run sv (Server.console_error args) w
  = (Ok tt, mkWorld (db w) (faults w) (console w ++ [args])).
Proof. reflexivity. Qed.

End Running.

(** ** The store *)

Section StorageFacts.
Import Storage.

Lemma truthy_Some (s : string) : Js.truthy (Some s) = true <-> s <> EmptyString.
Proof.
  destruct s; simpl; split; intros H; try reflexivity; try discriminate.
  - contradiction.
Qed.

Lemma set_premium_id (uid : string) (u : user) : id (set_premium uid u) = id u.
Proof. unfold set_premium. destruct (has_id uid u); reflexivity. Qed.

Lemma has_id_set_premium (x uid : string) (u : user) :
  has_id x (set_premium uid u) = has_id x u.
Proof. unfold has_id. rewrite set_premium_id. reflexivity. Qed.

Lemma existsb_has_id_set_premium (x uid : string) (l : list user) :
  existsb (has_id x) (map (set_premium uid) l) = existsb (has_id x) l.
Proof.
  induction l as [|u l IH]; simpl; [reflexivity|].
  rewrite has_id_set_premium, IH. reflexivity.
Qed.

Lemma set_premium_premium (uid : string) (u : user) :
  has_id uid u = true -> is_premium (set_premium uid u) = true.
Proof. intros H. unfold set_premium. rewrite H. reflexivity. Qed.

(** Setting the flag of a user who has it changes nothing. *)
Lemma set_premium_noop (uid : string) (u : user) :
  (has_id uid u = true -> is_premium u = true) -> set_premium uid u = u.
Proof.
  intros H. unfold set_premium. destruct (has_id uid u); [|reflexivity].
  destruct u as [i e p l b]. simpl in *. rewrite (H eq_refl). reflexivity.
Qed.

Lemma set_premium_twice (uid : string) (u : user) :
  set_premium uid (set_premium uid u) = set_premium uid u.
Proof.
  apply set_premium_noop. intros H. rewrite has_id_set_premium in H.
  apply set_premium_premium. exact H.
Qed.

Lemma filter_has_id_set_premium (uid : string) (l : list user) :
  filter (has_id uid) (map (set_premium uid) l)
  = map (set_premium uid) (filter (has_id uid) l).
Proof.
  induction l as [|u l IH]; simpl; [reflexivity|].
  rewrite has_id_set_premium. destruct (has_id uid u); simpl; rewrite IH; reflexivity.
Qed.

Lemma filter_has_id_nonempty (uid : string) (u : user) (l : list user) :
  In u l -> id u = uid -> exists v r, filter (has_id uid) l = v :: r /\ id v = uid.
Proof.
  intros Hin Hid.
  assert (Hf : In u (filter (has_id uid) l)).
  { apply filter_In. split; [exact Hin|].
    unfold has_id. rewrite Hid. apply String.eqb_refl. }
  destruct (filter (has_id uid) l) as [|v r] eqn:E; [contradiction|].
  exists v, r. split; [reflexivity|].
  assert (Hv : In v (filter (has_id uid) l)) by (rewrite E; left; reflexivity).
  apply filter_In in Hv. destruct Hv as [_ Hv]. unfold has_id in Hv.
  apply String.eqb_eq. exact Hv.
Qed.

Lemma references_missing_user_update (p : purchase) (uid : string) (s : store) :
  references_missing_user p (snd (exec (UpdatePremium uid) s))
  = references_missing_user p s.
Proof.
  unfold references_missing_user. simpl. destruct (user_id p); [|reflexivity].
  rewrite existsb_has_id_set_premium. reflexivity.
Qed.

(** The insert changes no user; the other statements change no ledger row. *)
Lemma exec_insert_users (p : purchase) (s : store) :
  users (snd (exec (InsertPurchase p) s)) = users s.
Proof.
  simpl. destruct (references_missing_user p s); [reflexivity|].
  destruct (existsb _ _); reflexivity.
Qed.

Lemma exec_purchases_other (q : stmt) (s : store) :
  (forall p, q <> InsertPurchase p) ->
  purchases (snd (exec q s)) = purchases s.
Proof.
  intros H. destruct q as [uid|p|e|uid]; simpl; try reflexivity.
  - exfalso. exact (H p eq_refl).
  - destruct (find (has_email e) (users s)); reflexivity.
Qed.

(** What the insert does to the ledger: one row more when it succeeds,
    nothing when it fails. *)
Lemma exec_insert_purchases (p : purchase) (s : store) :
  (exists rows, fst (exec (InsertPurchase p) s) = Ok rows /\
     purchases (snd (exec (InsertPurchase p) s)) = (purchases s ++ [p])%list) \/
  (exists e, fst (exec (InsertPurchase p) s) = Err e /\
     snd (exec (InsertPurchase p) s) = s).
Proof.
  simpl. destruct (references_missing_user p s).
  - right. eexists. split; reflexivity.
  - destruct (existsb _ _).
    + right. eexists. split; reflexivity.
    + left. eexists. split; reflexivity.
Qed.

Lemma exec_insert_accepted (p : purchase) (s : store) :
  references_missing_user p s = false ->
  existsb (has_key (provider p) (provider_id p)) (purchases s) = false ->
  exec (InsertPurchase p) s = (Ok [], mkStore (users s) (purchases s ++ [p]) (next_id s)).
Proof. intros H1 H2. simpl. rewrite H1, H2. reflexivity. Qed.

Lemma has_key_iff (prov pid : string) (p : purchase) :
  has_key prov pid p = true <-> key p = (prov, pid).
Proof.
  unfold has_key, key. rewrite andb_true_iff, !String.eqb_eq.
  split; [intros [-> ->]; reflexivity | intros H; injection H; auto].
Qed.

Lemma existsb_has_key_In (prov pid : string) (l : list purchase) :
  existsb (has_key prov pid) l = true <-> In (prov, pid) (map key l).
Proof.
  rewrite existsb_exists, in_map_iff. split.
  - intros (p & Hin & Hk). exists p. split; [apply has_key_iff; exact Hk | exact Hin].
  - intros (p & Hk & Hin). exists p. split; [exact Hin | apply has_key_iff; exact Hk].
Qed.

(** Every statement keeps the keys of the ledger distinct. *)
Lemma exec_ledger_unique (q : stmt) (s : store) :
  ledger_unique s -> ledger_unique (snd (exec q s)).
Proof.
  unfold ledger_unique. intros H.
  destruct q as [uid|p|e|uid]; simpl; try exact H.
  - destruct (references_missing_user p s); [exact H|].
    destruct (existsb (has_key (provider p) (provider_id p)) (purchases s)) eqn:E;
      [exact H|].
    simpl. rewrite map_app. simpl.
    apply NoDup_app.
    + exact H.
    + constructor; [intros []|constructor].
    + intros k Hk [Hk'|[]]. subst k.
      apply existsb_has_key_In in Hk. unfold key in Hk. simpl in Hk.
      rewrite Hk in E. discriminate.
  - destruct (find (has_email e) (users s)); exact H.
Qed.

(** No statement removes a key from the ledger. *)
Lemma exec_ledger_grows (q : stmt) (s : store) (k : string * string) :
  In k (map key (purchases s)) -> In k (map key (purchases (snd (exec q s)))).
Proof.
  intros H. destruct q as [uid|p|e|uid]; simpl; try exact H.
  - destruct (references_missing_user p s); [exact H|].
    destruct (existsb _ _); [exact H|].
    simpl. rewrite map_app. apply in_or_app. left. exact H.
  - destruct (find (has_email e) (users s)); exact H.
Qed.

(** No statement removes a user. *)
Lemma exec_users_stay (q : stmt) (s : store) (uid : string) :
  existsb (has_id uid) (users s) = true ->
  existsb (has_id uid) (users (snd (exec q s))) = true.
Proof.
  intros H. destruct q as [u|p|e|u]; simpl.
  - rewrite existsb_has_id_set_premium. exact H.
  - destruct (references_missing_user p s); [exact H|].
    destruct (existsb _ (purchases s)); exact H.
  - destruct (find (has_email e) (users s)); [exact H|].
    simpl. rewrite existsb_app, H. reflexivity.
  - exact H.
Qed.

(** After an insert that did not break the user reference, the key is in
    the ledger, whether the row went in or was already there. *)
Lemma exec_insert_key (p : purchase) (s : store) :
  references_missing_user p s = false ->
  In (key p) (map key (purchases (snd (exec (InsertPurchase p) s)))).
Proof.
  intros H. simpl. rewrite H.
  destruct (existsb (has_key (provider p) (provider_id p)) (purchases s)) eqn:E.
  - simpl. apply existsb_has_key_In in E. exact E.
  - simpl. rewrite map_app. apply in_or_app. right. left. reflexivity.
Qed.

End StorageFacts.

(** ** The webhook route: applying a verified event *)

Section WebhookApply.
Import Server.

Variable sv : services.
Variable cfg : env.

#[local] Abbreviation verification := (Server.verification sv cfg).

Lemma query_cases (q : Storage.stmt) (w : world) :
  (exists rest, faults w = true :: rest /\
     answer sv (Query q) w
     = (Err Storage.unavailable, mkWorld (db w) rest (console w))) \/
  (hd false (faults w) = false /\
     answer sv (Query q) w
     = (fst (Storage.exec q (db w)),
        mkWorld (snd (Storage.exec q (db w))) (tl (faults w)) (console w))).
Proof.
  rewrite answer_query. destruct (faults w) as [|[|] rest].
  - right. split; reflexivity.
  - left. exists rest. split; reflexivity.
  - right. split; reflexivity.
Qed.

Lemma run_update_premium_present (session : Stripe.session) (u : string) (w : world) :
  session_userId session = Some u -> Js.truthy (Some u) = true ->
  run sv (update_premium session) w =
  match answer sv (Query (Storage.UpdatePremium u)) w with
  | (Ok _, w1) => (Ok tt, w1)
  | (Err e, w1) => (Err e, w1)
  end.
Proof.
  intros Hu Ht. unfold update_premium. rewrite Hu, Ht.
  unfold query. rewrite run_bind, run_perform.
  destruct (answer sv (Query (Storage.UpdatePremium u)) w) as [[rows|e] w1];
    reflexivity.
Qed.

Lemma run_update_premium_absent (session : Stripe.session) (w : world) :
  Js.truthy (session_userId session) = false ->
  run sv (update_premium session) w = (Ok tt, w).
Proof.
  intros Ht. unfold update_premium.
  destruct (session_userId session) as [u|]; [rewrite Ht|]; reflexivity.
Qed.

Lemma run_log_apply_error (e : error) (w : world) :
  run sv (log_apply_error e) w
  = (Ok tt, mkWorld (db w) (faults w) (console w ++ [apply_error_line e])).
Proof. reflexivity. Qed.

Lemma run_apply_session (session : Stripe.session) (w : world) :
  run sv (apply_session session) w =
  match run sv (update_premium session) w with
  | (Err e, w1) => run sv (log_apply_error e) w1
  | (Ok _, w1) =>
      match answer sv (Query (Storage.InsertPurchase (purchase_of session))) w1 with
      | (Ok _, w2) => (Ok tt, w2)
      | (Err e, w2) => run sv (log_apply_error e) w2
      end
  end.
Proof.
  unfold apply_session. rewrite run_try_catch, run_bind.
  destruct (run sv (update_premium session) w) as [[[]|e] w1]; [|reflexivity].
  unfold insert_purchase, query. rewrite run_bind, run_perform.
  destruct (answer sv (Query _) w1) as [[rows|e] w2]; reflexivity.
Qed.

Lemma premium_update_present
  (session : Stripe.session) (u : string) (us : list Storage.user) :
  session_userId session = Some u -> Js.truthy (Some u) = true ->
  premium_update session us = map (Storage.set_premium u) us.
Proof. intros Hu Ht. unfold premium_update. rewrite Hu, Ht. reflexivity. Qed.

Lemma premium_update_absent (session : Stripe.session) (us : list Storage.user) :
  Js.truthy (session_userId session) = false ->
  premium_update session us = us.
Proof.
  intros Ht. unfold premium_update.
  destruct (session_userId session) as [u|]; [rewrite Ht|]; reflexivity.
Qed.

(** The update step: it either failed before any effect, or set the flag
    (of the user named in the metadata, if one is named). *)
Lemma update_premium_cases (session : Stripe.session) (w : world) :
  (exists e rest, faults w = true :: rest /\
     Js.truthy (session_userId session) = true /\
     run sv (update_premium session) w = (Err e, mkWorld (db w) rest (console w))) \/
  (exists w1, run sv (update_premium session) w = (Ok tt, w1) /\
     Storage.users (db w1) = premium_update session (Storage.users (db w)) /\
     Storage.purchases (db w1) = Storage.purchases (db w) /\
     Storage.next_id (db w1) = Storage.next_id (db w) /\
     console w1 = console w /\
     (Js.truthy (session_userId session) = true -> faults w1 = tl (faults w)) /\
     (Js.truthy (session_userId session) = false -> w1 = w)).
Proof.
  destruct (Js.truthy (session_userId session)) eqn:Ht.
  - destruct (session_userId session) as [u|] eqn:Hu; [|discriminate].
    rewrite (run_update_premium_present session u w Hu Ht).
    destruct (query_cases (Storage.UpdatePremium u) w) as [(rest & Hf & ->)|[Hf ->]].
    + left. exists Storage.unavailable, rest. repeat split. exact Hf.
    + right. eexists. split; [reflexivity|]. simpl.
      rewrite (premium_update_present session u _ Hu Ht).
      repeat split. intros; discriminate.
  - right. exists w. rewrite (run_update_premium_absent session w Ht).
    rewrite (premium_update_absent session _ Ht).
    repeat split. intros; discriminate.
Qed.

(** The three ways the apply step can end.  It never throws. *)
Lemma apply_session_cases (session : Stripe.session) (w : world) :
  exists w', run sv (apply_session session) w = (Ok tt, w') /\
  ((Storage.users (db w') = premium_update session (Storage.users (db w)) /\
    Storage.purchases (db w')
      = (Storage.purchases (db w) ++ [purchase_of session])%list /\
    console w' = console w)
   \/
   (Js.truthy (session_userId session) = true /\ db w' = db w /\
    exists e, console w' = (console w ++ [apply_error_line e])%list)
   \/
   (Storage.users (db w') = premium_update session (Storage.users (db w)) /\
    Storage.purchases (db w') = Storage.purchases (db w) /\
    exists e, console w' = (console w ++ [apply_error_line e])%list)).
Proof.
  rewrite run_apply_session.
  destruct (update_premium_cases session w)
    as [(e & rest & Hf & Ht & ->)|(w1 & -> & Hu & Hp & Hn & Hc & _)].
  - rewrite run_log_apply_error. eexists. split; [reflexivity|].
    right. left. simpl. split; [exact Ht|]. split; [reflexivity|].
    exists e. reflexivity.
  - destruct (query_cases (Storage.InsertPurchase (purchase_of session)) w1)
      as [(rest & Hf & ->)|[Hf ->]].
    + rewrite run_log_apply_error. eexists. split; [reflexivity|].
      right. right. simpl. split; [exact Hu|]. split; [exact Hp|].
      exists Storage.unavailable. rewrite Hc. reflexivity.
    + pose proof (exec_insert_users (purchase_of session) (db w1)) as Hus.
      pose proof (exec_insert_purchases (purchase_of session) (db w1)) as Hins.
      destruct (Storage.exec (Storage.InsertPurchase (purchase_of session)) (db w1))
        as [r s2].
      simpl in Hus, Hins |- *.
      destruct Hins as [(rows & -> & Hl)|(e & -> & Hl)].
      * eexists. split; [reflexivity|]. left. simpl.
        rewrite Hus, Hl, Hu, Hp, Hc. repeat split.
      * eexists. split; [reflexivity|].
        right. right. simpl. rewrite Hl, Hu, Hp, Hc.
        repeat split. exists e. reflexivity.
Qed.

Lemma run_dispatch (event : Stripe.event) (w : world) :
  run sv (dispatch event) w =
  if String.eqb (Stripe.type event) completed
  then (Ok received, snd (run sv (apply_session (Stripe.object event)) w))
  else (Ok received, w).
Proof.
  unfold dispatch. rewrite run_bind.
  destruct (String.eqb (Stripe.type event) completed); [|reflexivity].
  destruct (apply_session_cases (Stripe.object event) w) as (w' & -> & _).
  reflexivity.
Qed.

Lemma run_webhook_verified (req : webhook_request) (w : world) (event : Stripe.event) :
  Js.truthy (header (req_headers req) "get") = false ->
  verification req = Ok event ->
  run sv (webhook cfg req) w = run sv (dispatch event) w.
Proof. intros Hget Hv. rewrite (run_webhook sv cfg req w Hget), Hv. reflexivity. Qed.

(** C3: every verified event is acknowledged with [{received: true}] and
    status 200, whatever the storage does: for a completion event the apply
    step either went through, or its failure was caught and written to the
    console; any other event leaves store and console alone. *)
Theorem webhook_acknowledges_verified
  (req : webhook_request) (w : world) (event : Stripe.event) :
  Js.truthy (header (req_headers req) "get") = false ->
  verification req = Ok event ->
  exists w',
    run sv (webhook cfg req) w = (Ok received, w') /\
    status received = 200 /\
    content received = Json (Js.Obj [("received", Js.Bool true)]) /\
    (if String.eqb (Stripe.type event) completed
     then (Storage.purchases (db w')
             = (Storage.purchases (db w) ++ [purchase_of (Stripe.object event)])%list
           /\ console w' = console w)
          \/ (exists e, console w' = (console w ++ [apply_error_line e])%list /\
                Storage.purchases (db w') = Storage.purchases (db w))
     else db w' = db w /\ console w' = console w).
Proof.
  intros Hget Hv. rewrite (run_webhook_verified req w event Hget Hv), run_dispatch.
  destruct (String.eqb (Stripe.type event) completed).
  - destruct (apply_session_cases (Stripe.object event) w)
      as (w' & -> & [(Hu & Hp & Hc)|[(Ht & Hd & e & Hc)|(Hu & Hp & e & Hc)]]);
      exists w'; simpl; repeat split.
    + left. split; assumption.
    + right. exists e. split; [exact Hc | rewrite Hd; reflexivity].
    + right. exists e. split; assumption.
  - exists w. repeat split.
Qed.

End WebhookApply.

(** ** The webhook route: what a completion event does to the tables *)

Section WebhookEffects.
Import Server.

Variable sv : services.
Variable cfg : env.

#[local] Abbreviation verification := (Server.verification sv cfg).

Lemma run_webhook_completed (req : webhook_request) (w : world) (event : Stripe.event) :
  Js.truthy (header (req_headers req) "get") = false ->
  verification req = Ok event ->
  Stripe.type event = completed ->
  run sv (webhook cfg req) w
  = (Ok received, snd (run sv (apply_session (Stripe.object event)) w)).
Proof.
  intros Hget Hv Ht.
  rewrite (run_webhook_verified sv cfg req w event Hget Hv), run_dispatch, Ht.
  reflexivity.
Qed.

(** When the first query does not fail, the users table after the apply
    step is the updated one, whatever happens to the insert. *)
Lemma apply_session_users (session : Stripe.session) (w : world) :
  hd false (faults w) = false ->
  Storage.users (db (snd (run sv (apply_session session) w)))
  = premium_update session (Storage.users (db w)).
Proof.
  intros Hf.
  destruct (apply_session_cases sv session w)
    as (w' & Hrun & [(Hu & _)|[(Ht & Hd & _)|(Hu & _)]]);
    rewrite Hrun; simpl; try exact Hu.
  (* the update itself failed: excluded, its query was the first one *)
  rewrite run_apply_session in Hrun.
  destruct (update_premium_cases sv session w)
    as [(e & rest & Hfw & _)|(w1 & Hup & Hu1 & Hp1 & _)].
  - rewrite Hfw in Hf. discriminate.
  - rewrite Hup in Hrun.
    pose proof (exec_insert_users (purchase_of session) (db w1)) as Hus.
    destruct (query_cases sv (Storage.InsertPurchase (purchase_of session)) w1)
      as [(rest & _ & Ha)|[_ Ha]]; rewrite Ha in Hrun.
    + rewrite run_log_apply_error in Hrun. injection Hrun as <-. simpl. exact Hu1.
    + destruct (Storage.exec (Storage.InsertPurchase (purchase_of session)) (db w1))
        as [[rows|e] s2]; simpl in Hus, Hrun; injection Hrun as <-; simpl;
        rewrite Hus; exact Hu1.
Qed.

Lemma run_me (uid : string) (w : world) :
  hd false (faults w) = false ->
  fst (run sv (me uid) w)
  = Ok (json (match first_row (filter (Storage.has_id uid) (Storage.users (db w))) with
              | Some v => v
              | None => Js.Null
              end)).
Proof.
  intros Hf. unfold me, query.
  rewrite run_try_catch, run_bind, run_perform, (answer_query_no_fault sv _ w Hf).
  reflexivity.
Qed.

(** C5 (amended): after a verified completion event whose metadata names
    user [U], when [U] is a registered user and the update is executed,
    GET /api/me/U answers with the row of [U] and its premium flag true,
    which the row carries under the key is_premium; and the update leaves
    a store in which [U] is premium already exactly as it is. *)
Theorem webhook_grants_premium
  (req : webhook_request) (w : world) (event : Stripe.event)
  (U : string) (u : Storage.user) :
  Js.truthy (header (req_headers req) "get") = false ->
  verification req = Ok event ->
  Stripe.type event = completed ->
  session_userId (Stripe.object event) = Some U ->
  U <> EmptyString ->
  In u (Storage.users (db w)) -> Storage.id u = U ->
  hd false (faults w) = false ->
  (forall w2,
     db w2 = db (snd (run sv (webhook cfg req) w)) ->
     hd false (faults w2) = false ->
     exists u',
       fst (run sv (me U) w2) = Ok (json (Storage.row u')) /\
       Storage.id u' = U /\
       Storage.is_premium u' = true /\
       In ("is_premium", Js.Bool true)
          (match Storage.row u' with Js.Obj fields => fields | _ => [] end)) /\
  (forall s,
     (forall v, In v (Storage.users s) -> Storage.id v = U ->
                Storage.is_premium v = true) ->
     Storage.exec (Storage.UpdatePremium U) s = (Ok [], s)).
Proof.
  intros Hget Hv Ht HU Hne Hin Hid Hf. split.
  - intros w2 Hdb Hf2.
    rewrite (run_webhook_completed req w event Hget Hv Ht) in Hdb. simpl in Hdb.
    rewrite (run_me U w2 Hf2), Hdb, (apply_session_users _ w Hf).
    rewrite (premium_update_present _ U _ HU (proj2 (truthy_Some U) Hne)).
    rewrite filter_has_id_set_premium.
    destruct (filter_has_id_nonempty U u _ Hin Hid) as (v & r & E & Hv').
    rewrite E. simpl.
    assert (Hhas : Storage.has_id U v = true).
    { unfold Storage.has_id. rewrite Hv'. apply String.eqb_refl. }
    exists (Storage.set_premium U v).
    split; [reflexivity|].
    rewrite set_premium_id.
    split; [exact Hv'|].
    split; [apply set_premium_premium; exact Hhas|].
    unfold Storage.row. rewrite (set_premium_premium U v Hhas).
    simpl. auto 10.
  - intros s Hall. simpl. f_equal.
    destruct s as [us ps n]. simpl in *. f_equal.
    induction us as [|v us IH]; [reflexivity|]. simpl.
    rewrite set_premium_noop.
    + f_equal. apply IH. intros v' Hv'. apply Hall. right. exact Hv'.
    + intros Hh. apply Hall; [left; reflexivity|].
      unfold Storage.has_id in Hh. apply String.eqb_eq. exact Hh.
Qed.

Lemma reliable_hd_tl (w : world) : reliable w -> hd false (tl (faults w)) = false.
Proof.
  unfold reliable. destruct (faults w) as [|b [|c rest]]; intros H; try reflexivity.
  simpl. apply H. right. left. reflexivity.
Qed.

Lemma references_missing_user_premium_update
  (p : Storage.purchase) (session : Stripe.session) (s1 s2 : Storage.store) :
  Storage.users s1 = premium_update session (Storage.users s2) ->
  Storage.references_missing_user p s1 = Storage.references_missing_user p s2.
Proof.
  intros H. unfold Storage.references_missing_user. rewrite H.
  destruct (Storage.user_id p) as [x|]; [|reflexivity].
  unfold premium_update. destruct (session_userId session) as [u|]; [|reflexivity].
  destruct (Js.truthy (Some u)); [|reflexivity].
  rewrite existsb_has_id_set_premium. reflexivity.
Qed.

(** The values of the row: the defaults stand in for what the session
    lacks. *)
Lemma purchase_of_fields (session : Stripe.session) :
  Storage.provider (purchase_of session) = "stripe" /\
  Storage.provider_id (purchase_of session) = Stripe.id session /\
  (Stripe.amount_total session = None -> Storage.amount (purchase_of session) = 499) /\
  (Stripe.currency session = None -> Storage.currency (purchase_of session) = "eur") /\
  (Js.truthy (session_userId session) = false ->
   Storage.user_id (purchase_of session) = None) /\
  (Js.truthy (session_userId session) = true ->
   Storage.user_id (purchase_of session) = session_userId session) /\
  (forall a, Stripe.amount_total session = Some a -> a <> 0 ->
             Storage.amount (purchase_of session) = a) /\
  (forall c, Stripe.currency session = Some c -> c <> EmptyString ->
             Storage.currency (purchase_of session) = c).
Proof.
  unfold purchase_of. simpl. repeat split.
  - intros ->. reflexivity.
  - intros ->. reflexivity.
  - intros H. unfold Js.or_null. rewrite H. reflexivity.
  - intros H. unfold Js.or_null. rewrite H. reflexivity.
  - intros a -> Ha. unfold Js.or_else_num, Js.truthy_num.
    destruct a; [contradiction| |]; reflexivity.
  - intros c -> Hc. unfold Js.or_else.
    rewrite (proj2 (truthy_Some c) Hc). reflexivity.
Qed.

(** C10: for a verified completion event, when the storage does not fail,
    the user reference (if any) is to a registered user and the ledger has
    no row for the session yet, the ledger gains exactly one row: provider
    stripe, the session id, amount 499 when the session has no
    amount_total, currency eur when it has no currency, and a null user
    when metadata.userId is absent or empty. *)
Theorem webhook_ledger_row_defaults
  (req : webhook_request) (w : world) (event : Stripe.event) :
  Js.truthy (header (req_headers req) "get") = false ->
  verification req = Ok event ->
  Stripe.type event = completed ->
  reliable w ->
  Storage.references_missing_user (purchase_of (Stripe.object event)) (db w) = false ->
  existsb (Storage.has_key "stripe" (Stripe.id (Stripe.object event)))
          (Storage.purchases (db w)) = false ->
  exists row,
    Storage.purchases (db (snd (run sv (webhook cfg req) w)))
      = (Storage.purchases (db w) ++ [row])%list /\
    Storage.provider row = "stripe" /\
    Storage.provider_id row = Stripe.id (Stripe.object event) /\
    (Stripe.amount_total (Stripe.object event) = None -> Storage.amount row = 499) /\
    (Stripe.currency (Stripe.object event) = None -> Storage.currency row = "eur") /\
    (Js.truthy (session_userId (Stripe.object event)) = false ->
     Storage.user_id row = None).
Proof.
  intros Hget Hv Ht Hrel Hfk Hnew.
  set (session := Stripe.object event) in *.
  exists (purchase_of session).
  destruct (purchase_of_fields session) as (Hp & Hi & Ha & Hc & Hn & _).
  repeat split; try assumption.
  rewrite (run_webhook_completed req w event Hget Hv Ht). simpl.
  fold session. rewrite run_apply_session.
  destruct (update_premium_cases sv session w)
    as [(e & rest & Hfw & _)|(w1 & -> & Hu1 & Hp1 & _ & _ & Hf1 & Hw1)].
  - pose proof (reliable_hd w Hrel) as Hh. rewrite Hfw in Hh. discriminate.
  - assert (Hh1 : hd false (faults w1) = false).
    { destruct (Js.truthy (session_userId session)) eqn:E.
      - rewrite (Hf1 eq_refl). apply reliable_hd_tl. exact Hrel.
      - rewrite (Hw1 eq_refl). apply reliable_hd. exact Hrel. }
    rewrite (answer_query_no_fault sv _ w1 Hh1).
    rewrite exec_insert_accepted.
    + simpl. rewrite Hp1. reflexivity.
    + rewrite (references_missing_user_premium_update _ session _ (db w) Hu1).
      exact Hfk.
    + rewrite Hp, Hi, Hp1. exact Hnew.
Qed.

(** C4 (amended): the premium update and the ledger insert of a verified
    completion event are two statements sent one after the other, the
    insert only once the update (if there is one) went through.  So the
    delivery ends in one of three ways: both took effect; neither did; or
    the flag is set and the ledger is as before.  A ledger row is never
    added without the update. *)
Theorem webhook_apply_update_then_insert
  (req : webhook_request) (w : world) (event : Stripe.event) :
  Js.truthy (header (req_headers req) "get") = false ->
  verification req = Ok event ->
  Stripe.type event = completed ->
  let session := Stripe.object event in
  let w' := snd (run sv (webhook cfg req) w) in
  (Storage.users (db w') = premium_update session (Storage.users (db w)) /\
   Storage.purchases (db w')
     = (Storage.purchases (db w) ++ [purchase_of session])%list)
  \/ db w' = db w
  \/ (Storage.users (db w') = premium_update session (Storage.users (db w)) /\
      Storage.purchases (db w') = Storage.purchases (db w)).
Proof.
  intros Hget Hv Ht session w'. unfold w'.
  rewrite (run_webhook_completed req w event Hget Hv Ht). simpl. fold session.
  destruct (apply_session_cases sv session w)
    as (w1 & -> & [(Hu & Hp & _)|[(_ & Hd & _)|(Hu & Hp & _)]]); simpl.
  - left. split; assumption.
  - right. left. exact Hd.
  - right. right. split; assumption.
Qed.

End WebhookEffects.

(** ** The webhook route on the sample deployment *)

Section WebhookOnSample.
Import Server Sample.

(** The theorems above, applied to the sample deployment. *)

Lemma reliable_world_1 : reliable world_1.
Proof. intros b []. Defined.

(** C1: the endpoint does not fail closed with a 400 on every delivery
    that fails verification.  The forged delivery below carries a header
    named get; its verification fails, yet the handler answers nothing: it
    throws a TypeError at the line that reads the signature, outside its
    [try] blocks.  The store is as it was. *)
Lemma webhook_forged_get_header_unanswered :
  verification upstream configured Cases.forged_with_get_header
    = Err (mkError "StripeSignatureVerificationError"
             "No signatures found matching the expected signature for payload") /\
  run upstream (webhook configured Cases.forged_with_get_header) world_1
    = (Err (mkError "TypeError" "req.headers.get is not a function"), world_1) /\
  calls upstream (webhook configured Cases.forged_with_get_header) world_1 = [].
Proof. repeat split. Qed.

(** A forged delivery without such a header is rejected. *)
Lemma webhook_fails_closed_witness :
  verification upstream configured forged
    = Err (mkError "StripeSignatureVerificationError"
             "No signatures found matching the expected signature for payload") /\
  exists res w',
    run upstream (webhook configured forged) world_1 = (Ok res, w') /\
    status res = 400 /\ is_client_error res = true /\
    content res = Text "Webhook Error: No signatures found matching the expected signature for payload" /\
    db w' = db world_1 /\
    Storage.purchases (db w') = Storage.purchases (db world_1) /\
    map Storage.is_premium (Storage.users (db w'))
      = map Storage.is_premium (Storage.users (db world_1)).
Proof.
  split; [reflexivity|].
  exact (webhook_fails_closed upstream configured forged world_1 _ eq_refl eq_refl).
Defined.

(** A signed delivery is acknowledged although its insert fails. *)
Lemma webhook_acknowledges_verified_witness :
  verification upstream configured delivery = Ok event_1 /\
  exists w',
    run upstream (webhook configured delivery) world_1_second_query_fails
      = (Ok received, w') /\
    status received = 200 /\
    content received = Json (Js.Obj [("received", Js.Bool true)]) /\
    ((Storage.purchases (db w')
        = (Storage.purchases (db world_1_second_query_fails)
             ++ [purchase_of session_1])%list
      /\ console w' = console world_1_second_query_fails)
     \/ (exists e,
           console w' = (console world_1_second_query_fails
                           ++ [apply_error_line e])%list /\
           Storage.purchases (db w')
             = Storage.purchases (db world_1_second_query_fails))).
Proof.
  split; [reflexivity|].
  exact (webhook_acknowledges_verified upstream configured delivery
           world_1_second_query_fails event_1 eq_refl eq_refl).
Defined.

(** C5, as it is written, fails: after the signed delivery for user 1,
    GET /api/me/1 answers an object that has no field isPremium; the flag
    is its field is_premium. *)
Lemma webhook_then_me_has_no_isPremium :
  exists v,
    fst (run upstream (me "1")
           (snd (run upstream (webhook configured delivery) world_1)))
      = Ok (json v) /\
    Js.field v "isPremium" = None /\
    Js.field v "is_premium" = Some (Js.Bool true).
Proof. eexists. repeat split. Qed.

(** After the signed delivery, user 1 reads as premium. *)
Lemma webhook_grants_premium_witness :
  exists u',
    fst (run upstream (me "1")
           (snd (run upstream (webhook configured delivery) world_1)))
      = Ok (json (Storage.row u')) /\
    Storage.id u' = "1" /\
    Storage.is_premium u' = true /\
    In ("is_premium", Js.Bool true)
       (match Storage.row u' with Js.Obj fields => fields | _ => [] end).
Proof.
  refine (proj1 (webhook_grants_premium upstream configured delivery world_1
                   event_1 "1" (Storage.mkUser "1" "erik@example.org" 0 1 false)
                   eq_refl eq_refl eq_refl eq_refl _ _ eq_refl eq_refl)
            _ eq_refl eq_refl).
  - discriminate.
  - left. reflexivity.
Defined.

(** The signed delivery has neither amount nor currency: its row has the
    defaults. *)
Lemma webhook_ledger_row_defaults_witness :
  exists row,
    Storage.purchases (db (snd (run upstream (webhook configured delivery) world_1)))
      = (Storage.purchases (db world_1) ++ [row])%list /\
    Storage.provider row = "stripe" /\
    Storage.provider_id row = "cs_test_1" /\
    (Stripe.amount_total session_1 = None -> Storage.amount row = 499) /\
    (Stripe.currency session_1 = None -> Storage.currency row = "eur") /\
    (Js.truthy (session_userId session_1) = false -> Storage.user_id row = None).
Proof.
  exact (webhook_ledger_row_defaults upstream configured delivery world_1 event_1
           eq_refl eq_refl eq_refl reliable_world_1 eq_refl eq_refl).
Defined.

(** C4, as it is written, fails: when the storage fails between the two
    statements, user 1 is premium after the delivery and the ledger has no
    row for it. *)
Lemma webhook_apply_not_atomic :
  let w' := snd (run upstream (webhook configured delivery)
                   world_1_second_query_fails) in
  verification upstream configured delivery = Ok event_1 /\
  map Storage.is_premium (Storage.users (db world_1_second_query_fails)) = [false] /\
  map Storage.is_premium (Storage.users (db w')) = [true] /\
  Storage.purchases (db world_1_second_query_fails) = [] /\
  Storage.purchases (db w') = [].
Proof. repeat split. Qed.

(** The three ways the signed delivery can end, on the sample world. *)
Lemma webhook_apply_update_then_insert_witness :
  let w' := snd (run upstream (webhook configured delivery) world_1) in
  (Storage.users (db w') = premium_update session_1 (Storage.users (db world_1)) /\
   Storage.purchases (db w')
     = (Storage.purchases (db world_1) ++ [purchase_of session_1])%list)
  \/ db w' = db world_1
  \/ (Storage.users (db w') = premium_update session_1 (Storage.users (db world_1)) /\
      Storage.purchases (db w') = Storage.purchases (db world_1)).
Proof.
  exact (webhook_apply_update_then_insert upstream configured delivery world_1
           event_1 eq_refl eq_refl eq_refl).
Defined.

End WebhookOnSample.

(** ** The translation route *)

Section Translate.
Import Server.

Variable sv : services.
Variable cfg : env.

(** The payloads of the first upstream that count as no translation. *)
Lemma deepl_result_None (r : Deepl.response) :
  deepl_result r = None <->
  Deepl.response_data r = None \/
  exists d, Deepl.response_data r = Some d /\
            (Deepl.translations d = None \/ Deepl.translations d = Some []).
Proof.
  unfold deepl_result. destruct (Deepl.response_data r) as [d|].
  - destruct (Deepl.translations d) as [[|t l]|] eqn:E.
    + split; [intros _; right; exists d; auto | reflexivity].
    + split; [discriminate|].
      intros [H|(d' & H & [H'|H'])]; try discriminate;
        injection H as <-; rewrite E in H'; discriminate.
    + split; [intros _; right; exists d; auto | reflexivity].
  - split; [intros _; left; reflexivity | reflexivity].
Qed.

(** The payloads of the second upstream that count as no translation. *)
Lemma libre_result_None (r : Libre.response) :
  libre_result r = None <->
  Libre.response_data r = None \/
  exists d, Libre.response_data r = Some d /\
            Js.truthy (Libre.translatedText d) = false.
Proof.
  unfold libre_result. destruct (Libre.response_data r) as [d|].
  - destruct (Js.truthy (Libre.translatedText d)) eqn:E.
    + split; [discriminate|].
      intros [H|(d' & H & H')]; [discriminate|].
      injection H as <-. rewrite E in H'. discriminate.
    + split; [intros _; right; exists d; auto | reflexivity].
  - split; [intros _; left; reflexivity | reflexivity].
Qed.

Lemma run_translate (text src tgt : string) (w : world) :
  text <> EmptyString -> src <> EmptyString -> tgt <> EmptyString ->
  run sv (translate cfg (mkTranslateBody (Some text) (Some src) (Some tgt))) w =
  match run sv (translate_try cfg text src tgt) w with
  | (Ok res, w') => (Ok res, w')
  | (Err e, w') =>
      (Ok translation_failed,
       mkWorld (db w') (faults w') (console w' ++ [["translate error"; logged e]]))
  end.
Proof.
  intros H1 H2 H3. unfold translate. cbn [q source target].
  rewrite (proj2 (truthy_Some text) H1), (proj2 (truthy_Some src) H2),
    (proj2 (truthy_Some tgt) H3). cbn [negb orb].
  rewrite run_try_catch.
  destruct (run sv (translate_try cfg text src tgt) w) as [[res|e] w'];
    reflexivity.
Qed.

(** The first adapter, when it is configured. *)
Lemma run_translate_try_deepl (text src tgt key : string) (w : world) :
  DEEPL_API_KEY cfg = Some key -> key <> EmptyString ->
  run sv (translate_try cfg text src tgt) w =
  match deepl sv key text (Js.toUpperCase src) (Js.toUpperCase tgt) with
  | Err e => (Err e, w)
  | Ok dl =>
      match deepl_result dl with
      | Some res => (Ok res, w)
      | None =>
          match LIBRETRANSLATE_URL cfg with
          | Some url =>
              if Js.truthy (Some url) then
                match libre sv (url ++ "/translate") text src tgt with
                | Err e => (Err e, w)
                | Ok lt =>
                    match libre_result lt with
                    | Some res => (Ok res, w)
                    | None => (Ok (translated (Js.Str (fallback_text text)) "none"), w)
                    end
                end
              else (Ok (translated (Js.Str (fallback_text text)) "none"), w)
          | None => (Ok (translated (Js.Str (fallback_text text)) "none"), w)
          end
      end
  end.
Proof.
  intros Hk Hne. unfold translate_try. rewrite Hk, (proj2 (truthy_Some key) Hne).
  cbn -[Js.truthy].
  destruct (deepl sv key text _ _) as [dl|e]; cbn -[Js.truthy]; [|reflexivity].
  destruct (deepl_result dl) as [res|]; cbn -[Js.truthy]; [reflexivity|].
  destruct (LIBRETRANSLATE_URL cfg) as [url|]; [|reflexivity].
  destruct (Js.truthy (Some url)); [|reflexivity].
  cbn -[Js.truthy].
  destruct (libre sv (url ++ "/translate") text src tgt) as [lt|e];
    cbn -[Js.truthy]; [|reflexivity].
  destruct (libre_result lt); reflexivity.
Qed.

(** The second adapter, when the first is not configured. *)
Lemma run_translate_try_no_deepl (text src tgt : string) (w : world) :
  Js.truthy (DEEPL_API_KEY cfg) = false ->
  run sv (translate_try cfg text src tgt) w =
  match LIBRETRANSLATE_URL cfg with
  | Some url =>
      if Js.truthy (Some url) then
        match libre sv (url ++ "/translate") text src tgt with
        | Err e => (Err e, w)
        | Ok lt =>
            match libre_result lt with
            | Some res => (Ok res, w)
            | None => (Ok (translated (Js.Str (fallback_text text)) "none"), w)
            end
        end
      else (Ok (translated (Js.Str (fallback_text text)) "none"), w)
  | None => (Ok (translated (Js.Str (fallback_text text)) "none"), w)
  end.
Proof.
  intros Hk. unfold translate_try.
  assert (E : match DEEPL_API_KEY cfg with
              | Some key =>
                  if Js.truthy (Some key) then
                    dlRes <- perform (DeeplPost key text (Js.toUpperCase src)
                                        (Js.toUpperCase tgt)) ;;
                    Ret (deepl_result dlRes)
                  else Ret None
              | None => Ret None
              end = Ret None).
  { destruct (DEEPL_API_KEY cfg) as [key|]; [rewrite Hk|]; reflexivity. }
  rewrite E. cbn -[Js.truthy].
  destruct (LIBRETRANSLATE_URL cfg) as [url|]; [|reflexivity].
  destruct (Js.truthy (Some url)); [|reflexivity].
  cbn -[Js.truthy].
  destruct (libre sv (url ++ "/translate") text src tgt) as [lt|e];
    cbn -[Js.truthy]; [|reflexivity].
  destruct (libre_result lt); reflexivity.
Qed.

(** The calls of the route, for a request with its three fields. *)
Lemma calls_translate (text src tgt : string) (w : world) :
  text <> EmptyString -> src <> EmptyString -> tgt <> EmptyString ->
  calls sv (translate cfg (mkTranslateBody (Some text) (Some src) (Some tgt))) w =
  (calls sv (translate_try cfg text src tgt) w ++
   match run sv (translate_try cfg text src tgt) w with
   | (Ok _, _) => []
   | (Err e, _) => [Made (ConsoleError ["translate error"; logged e])]
   end)%list.
Proof.
  intros H1 H2 H3. unfold translate. cbn [q source target].
  rewrite (proj2 (truthy_Some text) H1), (proj2 (truthy_Some src) H2),
    (proj2 (truthy_Some tgt) H3). cbn [negb orb].
  rewrite calls_try_catch.
  destruct (run sv (translate_try cfg text src tgt) w) as [[res|e] w'];
    reflexivity.
Qed.

(** The calls of the adapters, when the first is configured: the second
    is called only after the first has answered without a translation. *)
Lemma calls_translate_try_deepl (text src tgt key : string) (w : world) :
  DEEPL_API_KEY cfg = Some key -> key <> EmptyString ->
  calls sv (translate_try cfg text src tgt) w =
  Made (DeeplPost key text (Js.toUpperCase src) (Js.toUpperCase tgt)) ::
  match deepl sv key text (Js.toUpperCase src) (Js.toUpperCase tgt) with
  | Err e => []
  | Ok dl =>
      match deepl_result dl with
      | Some res => []
      | None =>
          match LIBRETRANSLATE_URL cfg with
          | Some url =>
              if Js.truthy (Some url)
              then [Made (LibrePost (url ++ "/translate") text src tgt)]
              else []
          | None => []
          end
      end
  end.
Proof.
  intros Hk Hne. unfold translate_try. rewrite Hk, (proj2 (truthy_Some key) Hne).
  cbn -[Js.truthy]. f_equal.
  destruct (deepl sv key text _ _) as [dl|e]; cbn -[Js.truthy]; [|reflexivity].
  destruct (deepl_result dl) as [res|]; cbn -[Js.truthy]; [reflexivity|].
  destruct (LIBRETRANSLATE_URL cfg) as [url|]; [|reflexivity].
  destruct (Js.truthy (Some url)); [|reflexivity].
  cbn -[Js.truthy].
  destruct (libre sv (url ++ "/translate") text src tgt) as [lt|e];
    cbn -[Js.truthy]; [|reflexivity].
  destruct (libre_result lt); reflexivity.
Qed.

(** C6 (amended): with both adapters configured and all three fields
    non-empty, when the first adapter answers without throwing but without
    a first translation, and the second answers with a non-empty
    translatedText, the response is that text tagged libre, and nothing
    else happens; when the call to the first adapter throws, the second is
    not consulted (the calls made are the one to the first adapter and the
    console line, which records the error) and the response is 500
    Translation failed. *)
Theorem translate_secondary_after_empty_primary
  (text src tgt key url : string) (w : world) :
  text <> EmptyString -> src <> EmptyString -> tgt <> EmptyString ->
  DEEPL_API_KEY cfg = Some key -> key <> EmptyString ->
  LIBRETRANSLATE_URL cfg = Some url -> url <> EmptyString ->
  (forall dl lt t,
     deepl sv key text (Js.toUpperCase src) (Js.toUpperCase tgt) = Ok dl ->
     deepl_result dl = None ->
     libre sv (url ++ "/translate") text src tgt = Ok lt ->
     Libre.response_data lt = Some (Libre.mkData (Some t)) ->
     t <> EmptyString ->
     run sv (translate cfg (mkTranslateBody (Some text) (Some src) (Some tgt))) w
     = (Ok (json (Js.Obj [("translatedText", Js.Str t);
                          ("provider", Js.Str "libre")])), w)) /\
  (forall e,
     deepl sv key text (Js.toUpperCase src) (Js.toUpperCase tgt) = Err e ->
     run sv (translate cfg (mkTranslateBody (Some text) (Some src) (Some tgt))) w
     = (Ok (status_json 500 (Js.Obj [("error", Js.Str "Translation failed")])),
        mkWorld (db w) (faults w)
          (console w ++ [["translate error"; logged e]])) /\
     calls sv (translate cfg (mkTranslateBody (Some text) (Some src) (Some tgt))) w
     = [Made (DeeplPost key text (Js.toUpperCase src) (Js.toUpperCase tgt));
        Made (ConsoleError ["translate error"; logged e])]).
Proof.
  intros H1 H2 H3 Hk Hkne Hu Hune. split.
  - intros dl lt t Hd Hdr Hl Hld Ht.
    rewrite (run_translate text src tgt w H1 H2 H3).
    rewrite (run_translate_try_deepl text src tgt key w Hk Hkne).
    rewrite Hd, Hdr, Hu, (proj2 (truthy_Some url) Hune), Hl.
    unfold libre_result. rewrite Hld. cbn [Libre.translatedText].
    rewrite (proj2 (truthy_Some t) Ht). reflexivity.
  - intros e Hd. split.
    + rewrite (run_translate text src tgt w H1 H2 H3).
      rewrite (run_translate_try_deepl text src tgt key w Hk Hkne).
      rewrite Hd. reflexivity.
    + rewrite (calls_translate text src tgt w H1 H2 H3).
      rewrite (calls_translate_try_deepl text src tgt key w Hk Hkne).
      rewrite (run_translate_try_deepl text src tgt key w Hk Hkne).
      rewrite Hd. reflexivity.
Qed.

(** C7 (amended): for a request with all three fields non-empty, when no
    adapter is configured, or every configured adapter answers without
    throwing and without a translation, the response is the input text
    behind the fixed marker, tagged none, and nothing else happens. *)
Theorem translate_fallback (text src tgt : string) (w : world) :
  text <> EmptyString -> src <> EmptyString -> tgt <> EmptyString ->
  (forall key, DEEPL_API_KEY cfg = Some key -> key <> EmptyString ->
     exists dl,
       deepl sv key text (Js.toUpperCase src) (Js.toUpperCase tgt) = Ok dl /\
       deepl_result dl = None) ->
  (forall url, LIBRETRANSLATE_URL cfg = Some url -> url <> EmptyString ->
     exists lt, libre sv (url ++ "/translate") text src tgt = Ok lt /\
                libre_result lt = None) ->
  run sv (translate cfg (mkTranslateBody (Some text) (Some src) (Some tgt))) w
  = (Ok (json (Js.Obj [("translatedText",
                         Js.Str ("(Übersetzung benötigt API) " ++ text));
                       ("provider", Js.Str "none")])), w).
Proof.
  intros H1 H2 H3 Hd Hl.
  rewrite (run_translate text src tgt w H1 H2 H3).
  assert (Hlibre :
    match LIBRETRANSLATE_URL cfg with
    | Some url =>
        if Js.truthy (Some url) then
          match libre sv (url ++ "/translate") text src tgt with
          | Err e => (Err e, w)
          | Ok lt =>
              match libre_result lt with
              | Some res => (Ok res, w)
              | None => (Ok (translated (Js.Str (fallback_text text)) "none"), w)
              end
          end
        else (Ok (translated (Js.Str (fallback_text text)) "none"), w)
    | None => (Ok (translated (Js.Str (fallback_text text)) "none"), w)
    end = (Ok (translated (Js.Str (fallback_text text)) "none"), w)).
  { destruct (LIBRETRANSLATE_URL cfg) as [url|] eqn:Eu; [|reflexivity].
    destruct (Js.truthy (Some url)) eqn:Et; [|reflexivity].
    destruct (Hl url eq_refl (proj1 (truthy_Some url) Et)) as (lt & -> & ->).
    reflexivity. }
  destruct (Js.truthy (DEEPL_API_KEY cfg)) eqn:Ek.
  - destruct (DEEPL_API_KEY cfg) as [key|] eqn:Ekey; [|discriminate].
    pose proof (proj1 (truthy_Some key) Ek) as Hne.
    rewrite (run_translate_try_deepl text src tgt key w Ekey Hne).
    destruct (Hd key eq_refl Hne) as (dl & -> & ->).
    rewrite Hlibre. reflexivity.
  - rewrite (run_translate_try_no_deepl text src tgt w Ek), Hlibre. reflexivity.
Qed.

(** With no adapter configured the hypotheses on the adapters are void. *)
Corollary translate_no_adapter (text src tgt : string) (w : world) :
  text <> EmptyString -> src <> EmptyString -> tgt <> EmptyString ->
  Js.truthy (DEEPL_API_KEY cfg) = false ->
  Js.truthy (LIBRETRANSLATE_URL cfg) = false ->
  fst (run sv (translate cfg (mkTranslateBody (Some text) (Some src) (Some tgt))) w)
  = Ok (translated (Js.Str (fallback_text text)) "none").
Proof.
  intros H1 H2 H3 Hd Hl.
  rewrite (run_translate text src tgt w H1 H2 H3).
  rewrite (run_translate_try_no_deepl text src tgt w Hd).
  destruct (LIBRETRANSLATE_URL cfg) as [url|]; [rewrite Hl|]; reflexivity.
Qed.

(** A request that lacks a field is refused before any call is made. *)
Lemma translate_missing_field (body : translate_body) (w : world) :
  (Js.truthy (q body) && Js.truthy (source body) && Js.truthy (target body))%bool
    = false ->
  run sv (translate cfg body) w = (Ok missing_fields, w).
Proof.
  intros H. unfold translate.
  destruct (q body) as [a|]; [|reflexivity].
  destruct (source body) as [b|]; [|reflexivity].
  destruct (target body) as [c|]; [|reflexivity].
  destruct (Js.truthy (Some a)), (Js.truthy (Some b)), (Js.truthy (Some c));
    try reflexivity. discriminate.
Qed.

End Translate.

Section TranslateOnSample.
Import Server Sample.

(** C6, as it is written, fails: DeepL throws (a time-out), LibreTranslate
    is configured and would answer "Hallo", and the caller gets 500
    Translation failed. *)
Lemma translate_primary_throws :
  (exists e, deepl upstream "deepl-key" "Hello" "EN" "DE" = Err e) /\
  libre upstream "http://libre/translate" "Hello" "en" "de"
    = Ok (Libre.mkResponse (Some (Libre.mkData (Some "Hallo")))) /\
  fst (run upstream (translate configured hello) world_1) = Ok translation_failed /\
  status translation_failed = 500 /\
  translation_failed <> translated (Js.Str "Hallo") "libre".
Proof.
  split; [eexists; reflexivity|]. repeat split. discriminate.
Qed.

(** C7, as it is written, fails: the one configured adapter throws, which
    the description counts as a soft failure, and the response is 500
    Translation failed, not the fallback. *)
Lemma translate_only_adapter_throws :
  LIBRETRANSLATE_URL only_deepl = None /\
  (exists e, deepl upstream "deepl-key" "Hello" "EN" "DE" = Err e) /\
  fst (run upstream (translate only_deepl hello) world_1) = Ok translation_failed /\
  translation_failed <> translated (Js.Str (fallback_text "Hello")) "none".
Proof.
  split; [reflexivity|]. split; [eexists; reflexivity|].
  split; [reflexivity | discriminate].
Qed.

(** DeepL answers an empty list, LibreTranslate answers: the caller gets
    its text. *)
Lemma translate_secondary_after_empty_primary_witness :
  run upstream_secondary (translate configured hello) world_1
  = (Ok (json (Js.Obj [("translatedText", Js.Str "Hallo");
                       ("provider", Js.Str "libre")])), world_1) /\
  calls upstream (translate configured hello) world_1
  = [Made (DeeplPost "deepl-key" "Hello" "EN" "DE");
     Made (ConsoleError ["translate error"; "timeout of 5000ms exceeded"])].
Proof.
  split.
  - refine (proj1 (translate_secondary_after_empty_primary upstream_secondary
                     configured "Hello" "en" "de" "deepl-key" "http://libre"
                     world_1 _ _ _ eq_refl _ eq_refl _)
              (Deepl.mkResponse (Some (Deepl.mkData (Some []))))
              (Libre.mkResponse (Some (Libre.mkData (Some "Hallo"))))
              "Hallo" eq_refl eq_refl eq_refl eq_refl _);
      discriminate.
  - refine (proj2 (proj2 (translate_secondary_after_empty_primary upstream
                            configured "Hello" "en" "de" "deepl-key"
                            "http://libre" world_1 _ _ _ eq_refl _ eq_refl _)
                     (mkError "AxiosError" "timeout of 5000ms exceeded")
                     eq_refl));
      discriminate.
Defined.

(** Both adapters answer without a translation: the caller gets the
    fallback. *)
Lemma translate_fallback_witness :
  run upstream_empty (translate configured hello) world_1
  = (Ok (json (Js.Obj [("translatedText",
                         Js.Str "(Übersetzung benötigt API) Hello");
                       ("provider", Js.Str "none")])), world_1).
Proof.
  refine (translate_fallback upstream_empty configured "Hello" "en" "de" world_1
            _ _ _ _ _); try discriminate.
  - intros key Hk _. eexists. split; reflexivity.
  - intros url Hu _. eexists. split; reflexivity.
Defined.

End TranslateOnSample.

(** ** Registration *)

Section Register.
Import Server.

Variable sv : services.

Lemma find_app_new {A : Type} (f : A -> bool) (l : list A) (a : A) :
  find f l = None -> f a = true -> find f (l ++ [a]) = Some a.
Proof.
  intros Hn Ha. induction l as [|x l IH]; simpl in *.
  - rewrite Ha. reflexivity.
  - destruct (f x); [discriminate|]. apply IH. exact Hn.
Qed.

Lemma has_email_new_user (s : Storage.store) (e : string) :
  Storage.has_email e (Storage.new_user s e) = true.
Proof. unfold Storage.has_email. simpl. apply String.eqb_refl. Qed.

(** The upsert: the row it returns and what it leaves behind. *)
Lemma exec_upsert (e : string) (s : Storage.store) :
  exists u,
    fst (Storage.exec (Storage.UpsertUser e) s) = Ok [u] /\
    Storage.email u = e /\
    find (Storage.has_email e)
         (Storage.users (snd (Storage.exec (Storage.UpsertUser e) s))) = Some u /\
    Storage.purchases (snd (Storage.exec (Storage.UpsertUser e) s))
      = Storage.purchases s /\
    match find (Storage.has_email e) (Storage.users s) with
    | Some u0 => u = u0 /\ snd (Storage.exec (Storage.UpsertUser e) s) = s
    | None =>
        Storage.users (snd (Storage.exec (Storage.UpsertUser e) s))
        = (Storage.users s ++ [u])%list
    end.
Proof.
  simpl. destruct (find (Storage.has_email e) (Storage.users s)) as [u0|] eqn:E.
  - exists u0. simpl. repeat split; try assumption.
    apply find_some in E. destruct E as [_ E].
    unfold Storage.has_email in E. apply String.eqb_eq. exact E.
  - exists (Storage.new_user s e). simpl. repeat split.
    apply find_app_new; [exact E | apply has_email_new_user].
Qed.

Lemma run_register (e : string) (w : world) :
  e <> EmptyString -> hd false (faults w) = false ->
  run sv (register (Some e)) w =
  let w' := mkWorld (snd (Storage.exec (Storage.UpsertUser e) (db w)))
              (tl (faults w)) (console w) in
  match fst (Storage.exec (Storage.UpsertUser e) (db w)) with
  | Ok rows =>
      (Ok (json (match first_row rows with
                 | Some v => v
                 | None => Js.Undefined
                 end)), w')
  | Err err =>
      (Ok db_error, mkWorld (db w') (faults w') (console w' ++ [[message err]]))
  end.
Proof.
  intros He Hf. unfold register. rewrite (proj2 (truthy_Some e) He).
  unfold query. rewrite run_try_catch, run_bind, run_perform.
  rewrite (answer_query_no_fault sv _ w Hf).
  destruct (Storage.exec (Storage.UpsertUser e) (db w)) as [[rows|err] s'];
    reflexivity.
Qed.

(** Registration keeps the emails of the users table distinct. *)
Lemma exec_upsert_emails_unique (e : string) (s : Storage.store) :
  NoDup (map Storage.email (Storage.users s)) ->
  NoDup (map Storage.email
           (Storage.users (snd (Storage.exec (Storage.UpsertUser e) s)))).
Proof.
  intros H. simpl.
  destruct (find (Storage.has_email e) (Storage.users s)) as [u0|] eqn:E;
    [exact H|].
  simpl. rewrite map_app. apply NoDup_app; [exact H | |].
  - constructor; [intros []|constructor].
  - intros x Hx [Hx'|[]]. simpl in Hx'. subst x.
    apply in_map_iff in Hx. destruct Hx as (v & Hv & Hin).
    apply (find_none _ _ E) in Hin. unfold Storage.has_email in Hin.
    rewrite Hv, String.eqb_refl in Hin. discriminate.
Qed.

(** C9: registering the same email twice, with a storage that does not
    fail, returns the same row, hence the same user id, both times; the
    first call adds at most one row, the second changes nothing in the
    store; and when the email was registered before, the first call too
    returns the existing row and changes nothing. *)
Theorem register_idempotent (e : string) (w : world) :
  e <> EmptyString -> reliable w ->
  exists u w1 w2,
    run sv (register (Some e)) w = (Ok (json (Storage.row u)), w1) /\
    run sv (register (Some e)) w1 = (Ok (json (Storage.row u)), w2) /\
    Storage.email u = e /\
    In u (Storage.users (db w1)) /\
    db w2 = db w1 /\
    match find (Storage.has_email e) (Storage.users (db w)) with
    | Some u0 => u = u0 /\ db w1 = db w
    | None => Storage.users (db w1) = (Storage.users (db w) ++ [u])%list
    end.
Proof.
  intros He Hrel.
  destruct (exec_upsert e (db w)) as (u & Hr & Hemail & Hfind & _ & Hcase).
  set (w1 := mkWorld (snd (Storage.exec (Storage.UpsertUser e) (db w)))
               (tl (faults w)) (console w)).
  assert (Hh1 : hd false (faults w1) = false)
    by (apply reliable_hd_tl; exact Hrel).
  destruct (exec_upsert e (db w1)) as (u1 & Hr1 & _ & _ & _ & Hcase1).
  assert (Hdb1 : db w1 = snd (Storage.exec (Storage.UpsertUser e) (db w)))
    by reflexivity.
  rewrite Hdb1 in Hcase1. rewrite Hfind in Hcase1.
  destruct Hcase1 as [-> Hsame].
  exists u, w1,
    (mkWorld (snd (Storage.exec (Storage.UpsertUser e) (db w1)))
       (tl (faults w1)) (console w1)).
  rewrite (run_register e w He (reliable_hd w Hrel)), (run_register e w1 He Hh1).
  cbv zeta. fold w1. rewrite Hr, Hr1. simpl.
  split; [reflexivity|]. split; [reflexivity|].
  split; [exact Hemail|]. split.
  - apply find_some in Hfind. exact (proj1 Hfind).
  - split; [exact Hsame | exact Hcase].
Qed.

End Register.

Section RegisterOnSample.
Import Server Sample.

(** A new email registered twice on the sample world. *)
Lemma register_idempotent_witness :
  exists u w1 w2,
    run upstream (register (Some "astrid@example.org")) world_1
      = (Ok (json (Storage.row u)), w1) /\
    run upstream (register (Some "astrid@example.org")) w1
      = (Ok (json (Storage.row u)), w2) /\
    Storage.email u = "astrid@example.org" /\
    In u (Storage.users (db w1)) /\
    db w2 = db w1 /\
    Storage.users (db w1) = (Storage.users (db world_1) ++ [u])%list.
Proof.
  refine (register_idempotent upstream "astrid@example.org" world_1 _ reliable_world_1).
  discriminate.
Defined.

End RegisterOnSample.

(** ** Deliveries in flight at the same time *)

Section Interleaving.

Variable sv : services.

(** What every single call preserves, whoever makes it. *)
Lemma answer_preserves {R : Type} (c : call R) (w : world) :
  (Storage.ledger_unique (db w) ->
   Storage.ledger_unique (db (snd (answer sv c w)))) /\
  (forall k, In k (map Storage.key (Storage.purchases (db w))) ->
             In k (map Storage.key (Storage.purchases (db (snd (answer sv c w)))))) /\
  (forall uid, existsb (Storage.has_id uid) (Storage.users (db w)) = true ->
               existsb (Storage.has_id uid)
                 (Storage.users (db (snd (answer sv c w)))) = true) /\
  (reliable w -> reliable (snd (answer sv c w))).
Proof.
  destruct c as [payload sig secret|q|k t s d|u q s t|args];
    try (simpl; repeat split; auto; fail).
  rewrite answer_query. destruct (faults w) as [|[|] rest] eqn:Ef.
  - simpl. repeat split.
    + apply exec_ledger_unique.
    + intros k. apply exec_ledger_grows.
    + intros uid. apply exec_users_stay.
    + intros _ b [].
  - simpl. repeat split; auto.
    intros H b Hb. apply H. rewrite Ef. right. exact Hb.
  - simpl. repeat split.
    + apply exec_ledger_unique.
    + intros k. apply exec_ledger_grows.
    + intros uid. apply exec_users_stay.
    + intros H b Hb. apply H. rewrite Ef. right. exact Hb.
Qed.

Lemma step_preserves {A : Type} (p : prog A) (w : world) :
  (Storage.ledger_unique (db w) ->
   Storage.ledger_unique (db (snd (step sv p w)))) /\
  (forall k, In k (map Storage.key (Storage.purchases (db w))) ->
             In k (map Storage.key (Storage.purchases (db (snd (step sv p w)))))) /\
  (forall uid, existsb (Storage.has_id uid) (Storage.users (db w)) = true ->
               existsb (Storage.has_id uid)
                 (Storage.users (db (snd (step sv p w)))) = true) /\
  (reliable w -> reliable (snd (step sv p w))).
Proof.
  destruct p as [a|e|R c k]; try (simpl; repeat split; auto; fail).
  pose proof (answer_preserves c w) as H.
  unfold step. destruct (answer sv c w) as [r w']. exact H.
Qed.

(** The ledger never holds two rows under one key: whatever two programs
    are in flight and however their calls interleave, distinct keys stay
    distinct. *)
Lemma run_pair_ledger_unique {A : Type} (sched : list bool) (p1 p2 : prog A) (w : world) :
  Storage.ledger_unique (db w) ->
  Storage.ledger_unique (db (snd (run_pair sv sched p1 p2 w))).
Proof.
  revert p1 p2 w. induction sched as [|b sched IH]; intros p1 p2 w H;
    [exact H|].
  destruct b; simpl.
  - pose proof (proj1 (step_preserves p1 w) H) as H'.
    destruct (step sv p1 w) as [p1' w']. apply IH. exact H'.
  - pose proof (proj1 (step_preserves p2 w) H) as H'.
    destruct (step sv p2 w) as [p2' w']. apply IH. exact H'.
Qed.

(** Running a program alone is scheduling it until it has finished. *)
Lemma run_pair_alone {A : Type} (p : prog A) (w : world) :
  exists n, forall p2,
    run_pair sv (repeat true n) p p2 w
    = (done_of (fst (run sv p w)), p2, snd (run sv p w)).
Proof.
  revert w. induction p as [a|e|R c k IH]; intros w.
  - exists O. reflexivity.
  - exists O. reflexivity.
  - simpl. destruct (answer sv c w) as [r w'] eqn:Ea.
    destruct (IH r w') as (n & Hn). exists (S n). intros p2. simpl.
    rewrite Ea. apply Hn.
Qed.

(** Under distinct keys, a key has at most one row, and exactly one once
    it is in the ledger. *)
Lemma ledger_rows_le_1 (prov pid : string) (s : Storage.store) :
  Storage.ledger_unique s ->
  (List.length (Storage.ledger_rows prov pid s) <= 1)%nat.
Proof.
  unfold Storage.ledger_unique, Storage.ledger_rows.
  induction (Storage.purchases s) as [|p l IH]; intros H; simpl; [lia|].
  inversion H as [|x xs Hnin Hnd]; subst.
  destruct (Storage.has_key prov pid p) eqn:E; [|apply IH; exact Hnd].
  apply has_key_iff in E.
  assert (Hnone : filter (Storage.has_key prov pid) l = []).
  { destruct (filter (Storage.has_key prov pid) l) as [|y ys] eqn:F; [reflexivity|].
    exfalso. apply Hnin.
    assert (Hy : In y (filter (Storage.has_key prov pid) l))
      by (rewrite F; left; reflexivity).
    apply filter_In in Hy. destruct Hy as [Hy1 Hy2].
    apply has_key_iff in Hy2. rewrite E, <- Hy2. apply in_map. exact Hy1. }
  rewrite Hnone. simpl. lia.
Qed.

Lemma ledger_rows_ge_1 (prov pid : string) (s : Storage.store) :
  In (prov, pid) (map Storage.key (Storage.purchases s)) ->
  (1 <= List.length (Storage.ledger_rows prov pid s))%nat.
Proof.
  intros H. apply in_map_iff in H. destruct H as (p & Hk & Hin).
  assert (Hf : In p (Storage.ledger_rows prov pid s)).
  { unfold Storage.ledger_rows. apply filter_In. split; [exact Hin|].
    apply has_key_iff. exact Hk. }
  destruct (Storage.ledger_rows prov pid s); [contradiction | simpl; lia].
Qed.

End Interleaving.

(** ** The same completion event delivered twice *)

Section DuplicateDelivery.
Import Server.

Variable sv : services.
Variable cfg : env.
Variable req : webhook_request.
Variable event : Stripe.event.

Hypothesis Hget : Js.truthy (header (req_headers req) "get") = false.
Hypothesis Hverified : Server.verification sv cfg req = Ok event.
Hypothesis Hcompleted : Stripe.type event = completed.

#[local] Abbreviation session := (Stripe.object event).
#[local] Abbreviation P := (prog_of_stage cfg req event).

Lemma step_verify (w : world) : step sv (P AtVerify) w = (P AtApply, w).
Proof.
  pose proof Hverified as Hv. rewrite verification_eq in Hv.
  simpl. unfold webhook, signature, verify. rewrite Hget.
  destruct (stripe cfg); [|discriminate].
  simpl. rewrite Hv. reflexivity.
Qed.

Lemma dispatch_absent :
  Js.truthy (session_userId session) = false ->
  dispatch event = after_update session.
Proof.
  intros Hu. unfold dispatch, after_update, apply_session, update_premium.
  rewrite Hcompleted. simpl String.eqb. cbv iota.
  destruct (session_userId session) as [u|]; [rewrite Hu|]; reflexivity.
Qed.

Lemma step_update (u : string) (w : world) :
  session_userId session = Some u -> Js.truthy (Some u) = true ->
  hd false (faults w) = false ->
  step sv (P AtApply) w = (P AtInsert, snd (step sv (P AtApply) w)).
Proof.
  intros Hu Ht Hf. simpl.
  unfold dispatch, after_update, apply_session, update_premium.
  rewrite Hcompleted, Hu, Ht. simpl String.eqb. cbv iota.
  unfold query, perform. cbn [bind try_catch step].
  rewrite (answer_query_no_fault sv _ w Hf). reflexivity.
Qed.

Lemma step_insert (w : world) :
  hd false (faults w) = false ->
  Storage.references_missing_user (purchase_of session) (db w) = false ->
  exists s', step sv (P AtInsert) w = (P s', snd (step sv (P AtInsert) w)) /\
             stage_inv session s' (snd (step sv (P AtInsert) w)).
Proof.
  intros Hf Hfk.
  assert (Hstep :
    step sv (P AtInsert) w =
    (match fst (Storage.exec (Storage.InsertPurchase (purchase_of session)) (db w))
     with
     | Ok _ => P Done
     | Err e => P (AtLog e)
     end,
     mkWorld (snd (Storage.exec (Storage.InsertPurchase (purchase_of session)) (db w)))
       (tl (faults w)) (console w))).
  { cbn [prog_of_stage]. unfold after_update, insert_purchase, query, perform.
    cbn [bind try_catch step].
    rewrite (answer_query_no_fault sv _ w Hf).
    destruct (Storage.exec (Storage.InsertPurchase (purchase_of session)) (db w))
      as [[rows|e] s2]; reflexivity. }
  rewrite Hstep.
  pose proof (exec_insert_key (purchase_of session) (db w) Hfk) as Hkey.
  destruct (Storage.exec (Storage.InsertPurchase (purchase_of session)) (db w))
    as [[rows|e] s2].
  - exists Done. split; [reflexivity | exact Hkey].
  - exists (AtLog e). split; [reflexivity | exact Hkey].
Qed.

Lemma step_log (e : error) (w : world) :
  step sv (P (AtLog e)) w = (P Done, snd (step sv (P (AtLog e)) w)) /\
  db (snd (step sv (P (AtLog e)) w)) = db w.
Proof. split; reflexivity. Qed.

#[local] Abbreviation ready := (ready_for session).

Lemma ready_step {A : Type} (p : prog A) (w : world) :
  ready w -> ready (snd (step sv p w)).
Proof.
  intros [Hrel Hfk].
  destruct (step_preserves sv p w) as (_ & _ & Hus & Hr).
  split; [apply Hr; exact Hrel|].
  unfold Storage.references_missing_user in *.
  destruct (Storage.user_id (purchase_of session)) as [uid|]; [|reflexivity].
  apply negb_false_iff in Hfk. apply negb_false_iff. apply Hus. exact Hfk.
Qed.

Lemma stage_inv_step {A : Type} (s : stage) (p : prog A) (w : world) :
  stage_inv session s w -> stage_inv session s (snd (step sv p w)).
Proof.
  destruct (step_preserves sv p w) as (_ & Hk & _).
  destruct s; simpl; auto.
Qed.

(** One step of a delivery leads from a stage to a stage. *)
Lemma step_stage (s : stage) (w : world) :
  ready w -> stage_inv session s w ->
  exists s', step sv (P s) w = (P s', snd (step sv (P s) w)) /\
             stage_inv session s' (snd (step sv (P s) w)).
Proof.
  intros [Hrel Hfk] Hinv. pose proof (reliable_hd w Hrel) as Hf.
  destruct s as [| | |e|].
  - exists AtApply. rewrite step_verify. split; [reflexivity | exact I].
  - destruct (Js.truthy (session_userId session)) eqn:Ht.
    + destruct (session_userId session) as [u|] eqn:Hu; [|discriminate].
      exists AtInsert. split; [apply (step_update u w Hu Ht Hf) | exact I].
    + change (P AtApply) with (dispatch event). rewrite (dispatch_absent Ht).
      apply step_insert; assumption.
  - apply step_insert; assumption.
  - exists Done. destruct (step_log e w) as [Hs Hdb].
    split; [exact Hs|]. simpl in Hinv |- *. exact Hinv.
  - exists Done. split; [reflexivity | exact Hinv].
Qed.

Lemma run_pair_stages (sched : list bool) (s1 s2 : stage) (w : world) :
  ready w -> stage_inv session s1 w -> stage_inv session s2 w ->
  exists s1' s2' w',
    run_pair sv sched (P s1) (P s2) w = (P s1', P s2', w') /\
    ready w' /\ stage_inv session s1' w' /\ stage_inv session s2' w'.
Proof.
  revert s1 s2 w. induction sched as [|b sched IH]; intros s1 s2 w Hr H1 H2.
  - exists s1, s2, w. split; [reflexivity|]. split; [exact Hr|]. split; assumption.
  - destruct b; simpl.
    + destruct (step_stage s1 w Hr H1) as (s1' & Hs & Hi).
      pose proof (ready_step (P s1) w Hr) as Hr'.
      pose proof (stage_inv_step s2 (P s1) w H2) as H2'.
      rewrite Hs. apply IH; assumption.
    + destruct (step_stage s2 w Hr H2) as (s2' & Hs & Hi).
      pose proof (ready_step (P s2) w Hr) as Hr'.
      pose proof (stage_inv_step s1 (P s2) w H1) as H1'.
      rewrite Hs. apply IH; assumption.
Qed.

Lemma finished_stage (s : stage) : finished (P s) = true -> s = Done.
Proof.
  intros Hfin. destruct s as [| | |e|]; try reflexivity; exfalso.
  - pose proof Hverified as Hv. rewrite verification_eq in Hv.
    cbn [prog_of_stage] in Hfin. unfold webhook, signature, verify in Hfin.
    rewrite Hget in Hfin. destruct (stripe cfg); discriminate.
  - cbn [prog_of_stage] in Hfin.
    unfold dispatch, apply_session, update_premium in Hfin.
    rewrite Hcompleted in Hfin. simpl String.eqb in Hfin. cbv iota in Hfin.
    destruct (session_userId session) as [u|];
      [destruct (Js.truthy (Some u))|]; discriminate.
  - discriminate.
  - discriminate.
Qed.

(** One delivery handled alone, start to end: it is acknowledged and its
    key is in the ledger afterwards. *)
Lemma run_delivery (w : world) :
  Storage.ledger_unique (db w) -> ready w ->
  fst (run sv (webhook cfg req) w) = Ok received /\
  Storage.ledger_unique (db (snd (run sv (webhook cfg req) w))) /\
  ready (snd (run sv (webhook cfg req) w)) /\
  List.length (Storage.ledger_rows "stripe" (Stripe.id session)
                 (db (snd (run sv (webhook cfg req) w)))) = 1%nat.
Proof.
  intros Huniq Hr.
  destruct (run_pair_alone sv (webhook cfg req) w) as (n & Hn).
  specialize (Hn (webhook cfg req)).
  pose proof (run_pair_ledger_unique sv (repeat true n) (webhook cfg req)
                (webhook cfg req) w Huniq) as Hu.
  destruct (run_pair_stages (repeat true n) AtVerify AtVerify w Hr I I)
    as (s1 & s2 & w' & Hst & Hr' & Hi1 & _).
  change (P AtVerify) with (webhook cfg req) in Hst.
  rewrite Hn in Hu, Hst. simpl in Hu.
  injection Hst as H1 _ H3. rewrite <- H3 in Hr', Hi1.
  assert (Hdone : s1 = Done).
  { apply finished_stage. rewrite <- H1.
    destruct (fst (run sv (webhook cfg req) w)); reflexivity. }
  subst s1.
  split.
  - destruct (fst (run sv (webhook cfg req) w)) as [res|e]; simpl in H1;
      [injection H1 as ->; reflexivity | discriminate].
  - split; [exact Hu|]. split; [exact Hr'|].
    apply Nat.le_antisymm.
    + apply ledger_rows_le_1. exact Hu.
    + apply ledger_rows_ge_1. exact Hi1.
Qed.

(** The same event delivered twice, one delivery after the other: one row
    after the first, one row after the second. *)
Corollary run_delivery_twice (w : world) :
  Storage.ledger_unique (db w) -> ready w ->
  let w1 := snd (run sv (webhook cfg req) w) in
  let w2 := snd (run sv (webhook cfg req) w1) in
  fst (run sv (webhook cfg req) w) = Ok received /\
  fst (run sv (webhook cfg req) w1) = Ok received /\
  List.length (Storage.ledger_rows "stripe" (Stripe.id session) (db w1)) = 1%nat /\
  List.length (Storage.ledger_rows "stripe" (Stripe.id session) (db w2)) = 1%nat.
Proof.
  intros Huniq Hr w1 w2.
  destruct (run_delivery w Huniq Hr) as (Ha & Hu1 & Hr1 & Hn1).
  destruct (run_delivery w1 Hu1 Hr1) as (Hb & _ & _ & Hn2).
  repeat split; assumption.
Qed.

(** C2: the same validly signed completion event delivered twice, the two
    deliveries interleaved in any way, call by call (one after the other
    included), on a ledger with distinct keys: at every point the ledger
    has distinct keys and at most one row for the session; and when the
    storage does not fail and the user the row refers to (if any) is
    registered, then once both deliveries have finished both were
    acknowledged and the ledger has exactly one row for the session. *)
Theorem webhook_duplicate_delivery_one_row
  (sched : list bool) (w : world) (p1 p2 : prog response) (w' : world) :
  Storage.ledger_unique (db w) ->
  run_pair sv sched (webhook cfg req) (webhook cfg req) w = (p1, p2, w') ->
  Storage.ledger_unique (db w') /\
  (List.length (Storage.ledger_rows "stripe" (Stripe.id session) (db w')) <= 1)%nat /\
  (reliable w ->
   Storage.references_missing_user (purchase_of session) (db w) = false ->
   finished p1 = true -> finished p2 = true ->
   p1 = Ret received /\ p2 = Ret received /\
   List.length (Storage.ledger_rows "stripe" (Stripe.id session) (db w')) = 1%nat).
Proof.
  intros Huniq Hrun.
  assert (Huniq' : Storage.ledger_unique (db w')).
  { pose proof (run_pair_ledger_unique sv sched (webhook cfg req) (webhook cfg req)
                  w Huniq) as H.
    rewrite Hrun in H. exact H. }
  split; [exact Huniq'|].
  split; [apply ledger_rows_le_1; exact Huniq'|].
  intros Hrel Hfk Hf1 Hf2.
  destruct (run_pair_stages sched AtVerify AtVerify w (conj Hrel Hfk) I I)
    as (s1 & s2 & w2 & Hst & _ & Hi1 & Hi2).
  change (P AtVerify) with (webhook cfg req) in Hst. rewrite Hrun in Hst.
  injection Hst as -> -> ->.
  apply finished_stage in Hf1. apply finished_stage in Hf2. subst s1 s2.
  split; [reflexivity|]. split; [reflexivity|].
  apply Nat.le_antisymm.
  - apply ledger_rows_le_1. exact Huniq'.
  - apply ledger_rows_ge_1. exact Hi1.
Qed.

End DuplicateDelivery.

Section DuplicateDeliveryOnSample.
Import Server Sample.

(** Two deliveries of the sample event, their calls alternating. *)

Lemma ledger_unique_store_1 : Storage.ledger_unique store_1.
Proof. apply NoDup_nil. Defined.

Lemma webhook_duplicate_delivery_one_row_witness :
  exists p1 p2 w',
    run_pair upstream [true; false; false; true; true; false; true; false]
      (webhook configured delivery) (webhook configured delivery) world_1
    = (p1, p2, w') /\
    p1 = Ret received /\ p2 = Ret received /\
    List.length (Storage.ledger_rows "stripe" "cs_test_1" (db w')) = 1%nat.
Proof.
  eexists. eexists. eexists. split; [reflexivity|].
  exact (proj2 (proj2
           (webhook_duplicate_delivery_one_row upstream configured delivery
              event_1 eq_refl eq_refl eq_refl
              [true; false; false; true; true; false; true; false]
              world_1 _ _ _ ledger_unique_store_1 eq_refl))
           reliable_world_1 eq_refl eq_refl eq_refl).
Defined.

End DuplicateDeliveryOnSample.

(** * Further properties of the routes *)

(** ** Translation: refusals, order of the adapters, what it leaves alone *)

Section TranslateMore.
Import Server.

Variable sv : services.
Variable cfg : env.

(** X1: a request that lacks [q], [source] or [target], or has one of them
    empty, is answered 400 Missing q/source/target by a handler that makes
    no call at all. *)
Theorem translate_refuses_missing_field (body : translate_body) :
  (Js.truthy (q body) && Js.truthy (source body) && Js.truthy (target body))%bool
    = false ->
  translate cfg body
  = Ret (status_json 400 (Js.Obj [("error", Js.Str "Missing q/source/target")])).
Proof.
  intros H. unfold translate.
  destruct (q body) as [a|]; [|reflexivity].
  destruct (source body) as [b|]; [|reflexivity].
  destruct (target body) as [c|]; [|reflexivity].
  destruct (Js.truthy (Some a)), (Js.truthy (Some b)), (Js.truthy (Some c));
    try reflexivity. discriminate.
Qed.

(** X2: when the first adapter is configured and its payload has a first
    translation, the response is that translation tagged deepl, whatever
    the second adapter is or would answer, and the second adapter is not
    consulted: the call to the first is the only call made; a first
    translation without a text still wins, with an undefined
    translatedText. *)
Theorem translate_primary_first
  (text src tgt key : string) (dl : Deepl.response) (d : Deepl.data)
  (t : Deepl.translation) (rest : list Deepl.translation) (w : world) :
  text <> EmptyString -> src <> EmptyString -> tgt <> EmptyString ->
  DEEPL_API_KEY cfg = Some key -> key <> EmptyString ->
  deepl sv key text (Js.toUpperCase src) (Js.toUpperCase tgt) = Ok dl ->
  Deepl.response_data dl = Some d ->
  Deepl.translations d = Some (t :: rest) ->
  run sv (translate cfg (mkTranslateBody (Some text) (Some src) (Some tgt))) w
  = (Ok (json (Js.Obj [("translatedText",
                         match Deepl.text t with
                         | Some s => Js.Str s
                         | None => Js.Undefined
                         end);
                       ("provider", Js.Str "deepl")])), w) /\
  calls sv (translate cfg (mkTranslateBody (Some text) (Some src) (Some tgt))) w
  = [Made (DeeplPost key text (Js.toUpperCase src) (Js.toUpperCase tgt))].
Proof.
  intros H1 H2 H3 Hk Hkne Hd Hdata Htr.
  rewrite (calls_translate sv cfg text src tgt w H1 H2 H3).
  rewrite (calls_translate_try_deepl sv cfg text src tgt key w Hk Hkne).
  rewrite (run_translate sv cfg text src tgt w H1 H2 H3).
  rewrite (run_translate_try_deepl sv cfg text src tgt key w Hk Hkne), Hd.
  unfold deepl_result. rewrite Hdata, Htr. split; reflexivity.
Qed.

Lemma run_translate_try_world (text src tgt : string) (w : world) :
  snd (run sv (translate_try cfg text src tgt) w) = w /\
  (forall res, fst (run sv (translate_try cfg text src tgt) w) = Ok res ->
               status res = 200).
Proof.
  assert (Hlibre : forall x,
    x = match LIBRETRANSLATE_URL cfg with
        | Some url =>
            if Js.truthy (Some url) then
              match libre sv (url ++ "/translate") text src tgt with
              | Err e => (Err e, w)
              | Ok lt =>
                  match libre_result lt with
                  | Some res => (Ok res, w)
                  | None => (Ok (translated (Js.Str (fallback_text text)) "none"), w)
                  end
              end
            else (Ok (translated (Js.Str (fallback_text text)) "none"), w)
        | None => (Ok (translated (Js.Str (fallback_text text)) "none"), w)
        end ->
    snd x = w /\ (forall res, fst x = Ok res -> status res = 200)).
  { intros x ->.
    destruct (LIBRETRANSLATE_URL cfg) as [url|];
      [destruct (Js.truthy (Some url));
       [destruct (libre sv (url ++ "/translate") text src tgt) as [lt|e];
        [unfold libre_result; destruct (Libre.response_data lt) as [d|];
         [destruct (Js.truthy (Libre.translatedText d))|]|]|]|];
      simpl; (split; [reflexivity|]); intros res Hres;
      try discriminate; injection Hres as <-; reflexivity. }
  destruct (Js.truthy (DEEPL_API_KEY cfg)) eqn:Ek.
  - destruct (DEEPL_API_KEY cfg) as [key|] eqn:Ekey; [|discriminate].
    rewrite (run_translate_try_deepl sv cfg text src tgt key w Ekey
               (proj1 (truthy_Some key) Ek)).
    destruct (deepl sv key text _ _) as [dl|e].
    + destruct (deepl_result dl) as [res|] eqn:Er.
      * simpl. split; [reflexivity|]. intros res' Hres. injection Hres as <-.
        unfold deepl_result in Er.
        destruct (Deepl.response_data dl) as [d|]; [|discriminate].
        destruct (Deepl.translations d) as [[|t l]|]; try discriminate.
        injection Er as <-. reflexivity.
      * apply Hlibre. reflexivity.
    + simpl. split; [reflexivity | discriminate].
  - rewrite (run_translate_try_no_deepl sv cfg text src tgt w Ek).
    apply Hlibre. reflexivity.
Qed.

(** X3: the translation route always answers and never touches the store:
    for every request, configuration and behaviour of the upstreams the
    handler returns a response with status 200 or 400 and writes nothing
    to the console, or returns 500 Translation failed and writes one
    console line; the tables and the pending storage failures are as they
    were. *)
Theorem translate_always_answers (body : translate_body) (w : world) :
  exists res w',
    run sv (translate cfg body) w = (Ok res, w') /\
    db w' = db w /\ faults w' = faults w /\
    (((status res = 200 \/ status res = 400) /\ console w' = console w) \/
     (res = status_json 500 (Js.Obj [("error", Js.Str "Translation failed")]) /\
      exists e, console w' = (console w ++ [["translate error"; message e]])%list)).
Proof.
  destruct (Js.truthy (q body) && Js.truthy (source body)
            && Js.truthy (target body))%bool eqn:Hf.
  - apply andb_true_iff in Hf. destruct Hf as [Hf H3].
    apply andb_true_iff in Hf. destruct Hf as [H1 H2].
    destruct body as [[text|] [src|] [tgt|]]; simpl in H1, H2, H3;
      try discriminate.
    rewrite (run_translate sv cfg text src tgt w
               (proj1 (truthy_Some text) H1) (proj1 (truthy_Some src) H2)
               (proj1 (truthy_Some tgt) H3)).
    destruct (run_translate_try_world text src tgt w) as [Hw Hs].
    destruct (run sv (translate_try cfg text src tgt) w) as [[res|e] w1];
      simpl in Hw; subst w1.
    + exists res, w. repeat split. left. split; [|reflexivity].
      left. apply Hs. reflexivity.
    + eexists. eexists. split; [reflexivity|]. repeat split.
      right. split; [reflexivity|].
      exists (mkError EmptyString (logged e)). reflexivity.
  - rewrite (translate_missing_field sv cfg body w Hf).
    exists missing_fields, w. repeat split. left. split; [|reflexivity].
    right. reflexivity.
Qed.

(** X4: when the second adapter is the one consulted (the first is not
    configured, or answered without a translation) and its call throws,
    the response is 500 Translation failed and the console gets the line
    translate error with the body of the upstream's answer when the error
    carries one, and with the message of the error otherwise; the fallback
    text is not used. *)
Theorem translate_secondary_throws
  (text src tgt url : string) (e : error) (w : world) :
  text <> EmptyString -> src <> EmptyString -> tgt <> EmptyString ->
  (forall key, DEEPL_API_KEY cfg = Some key -> key <> EmptyString ->
     exists dl,
       deepl sv key text (Js.toUpperCase src) (Js.toUpperCase tgt) = Ok dl /\
       deepl_result dl = None) ->
  LIBRETRANSLATE_URL cfg = Some url -> url <> EmptyString ->
  libre sv (url ++ "/translate") text src tgt = Err e ->
  run sv (translate cfg (mkTranslateBody (Some text) (Some src) (Some tgt))) w
  = (Ok (status_json 500 (Js.Obj [("error", Js.Str "Translation failed")])),
     mkWorld (db w) (faults w)
       (console w ++ [["translate error"; logged e]])).
Proof.
  intros H1 H2 H3 Hd Hu Hune Hl.
  rewrite (run_translate sv cfg text src tgt w H1 H2 H3).
  destruct (Js.truthy (DEEPL_API_KEY cfg)) eqn:Ek.
  - destruct (DEEPL_API_KEY cfg) as [key|] eqn:Ekey; [|discriminate].
    pose proof (proj1 (truthy_Some key) Ek) as Hne.
    rewrite (run_translate_try_deepl sv cfg text src tgt key w Ekey Hne).
    destruct (Hd key eq_refl Hne) as (dl & -> & ->).
    rewrite Hu, (proj2 (truthy_Some url) Hune), Hl. reflexivity.
  - rewrite (run_translate_try_no_deepl sv cfg text src tgt w Ek).
    rewrite Hu, (proj2 (truthy_Some url) Hune), Hl. reflexivity.
Qed.

End TranslateMore.

(** ** The webhook: its unguarded first line, anonymous purchases, a failed
       update, redelivery *)

Section WebhookMore.
Import Server.

Variable sv : services.
Variable cfg : env.

(** X5: a delivery that carries a non-empty header named get is not
    answered at all: the handler throws a TypeError on its first line,
    outside both try blocks, before it makes any call; whether the
    signature is good plays no part. *)
Theorem webhook_get_header_unanswered (req : webhook_request) :
  Js.truthy (header (req_headers req) "get") = true ->
  webhook cfg req
  = Throw (mkError "TypeError" "req.headers.get is not a function").
Proof.
  intros Hget. unfold webhook, signature. rewrite Hget. reflexivity.
Qed.


(** X7: when the update of a verified completion event fails, the insert
    is not attempted: the store is as it was, one storage call was made,
    the error is on the console, and the delivery is acknowledged. *)
Theorem webhook_failed_update_skips_insert
  (req : webhook_request) (w : world) (event : Stripe.event)
  (U : string) (rest : list bool) :
  Js.truthy (header (req_headers req) "get") = false ->
  Server.verification sv cfg req = Ok event ->
  Stripe.type event = completed ->
  session_userId (Stripe.object event) = Some U -> U <> EmptyString ->
  faults w = true :: rest ->
  run sv (webhook cfg req) w
  = (Ok received,
     mkWorld (db w) rest
       (console w ++ [["db webhook handler error";
                       message Storage.unavailable]])).
Proof.
  intros Hget Hv Ht HU Hne Hf.
  rewrite (run_webhook_completed sv cfg req w event Hget Hv Ht).
  rewrite run_apply_session.
  rewrite (run_update_premium_present sv _ U w HU (proj2 (truthy_Some U) Hne)).
  rewrite answer_query, Hf. reflexivity.
Qed.

(** At-least-once delivery.  The same verified completion event
    delivered any number of times, one delivery after the other, on a
    ledger with distinct keys, a storage that does not fail and a
    registered user (if one is named): after the first delivery and after
    every later one the ledger has exactly one row for the session. *)
Corollary webhook_redelivery_one_row
  (req : webhook_request) (event : Stripe.event) (n : nat) (w : world) :
  Js.truthy (header (req_headers req) "get") = false ->
  Server.verification sv cfg req = Ok event ->
  Stripe.type event = completed ->
  Storage.ledger_unique (db w) ->
  ready_for (Stripe.object event) w ->
  List.length (Storage.ledger_rows "stripe" (Stripe.id (Stripe.object event))
                 (db (deliveries sv cfg req (S n) w))) = 1%nat.
Proof.
  intros Hget Hv Ht. revert w.
  induction n as [|n IH]; intros w Hu Hr;
    destruct (run_delivery sv cfg req event Hget Hv Ht w Hu Hr)
      as (_ & Hu1 & Hr1 & Hn1).
  - exact Hn1.
  - change (deliveries sv cfg req (S (S n)) w)
      with (deliveries sv cfg req (S n) (snd (run sv (webhook cfg req) w))).
    apply IH; assumption.
Qed.

End WebhookMore.

(** ** Tables that only grow *)

Section OnlyGrow.

Variable sv : services.

Lemma user_kept_refl (u : Storage.user) : user_kept u u.
Proof. unfold user_kept. auto. Qed.

Lemma user_kept_trans (u v x : Storage.user) :
  user_kept u v -> user_kept v x -> user_kept u x.
Proof.
  unfold user_kept. intros (a1 & a2 & a3 & a4 & a5) (b1 & b2 & b3 & b4 & b5).
  repeat split; try congruence. auto.
Qed.

Lemma kept_refl (l : list Storage.user) : Forall2 user_kept l l.
Proof. induction l; constructor; [apply user_kept_refl | assumption]. Qed.

Lemma kept_trans (l1 l2 l3 : list Storage.user) :
  Forall2 user_kept l1 l2 -> Forall2 user_kept l2 l3 -> Forall2 user_kept l1 l3.
Proof.
  intros H. revert l3. induction H as [|u v l1 l2 Huv _ IH]; intros l3 H23.
  - inversion H23. constructor.
  - inversion H23 as [|v' x l2' l3' Hvx Hrest]; subst.
    constructor; [exact (user_kept_trans u v x Huv Hvx) | apply IH; exact Hrest].
Qed.

Lemma kept_set_premium (uid : string) (l : list Storage.user) :
  Forall2 user_kept l (map (Storage.set_premium uid) l).
Proof.
  induction l as [|u l IH]; constructor; [|exact IH].
  unfold user_kept, Storage.set_premium.
  destruct (Storage.has_id uid u); simpl; auto.
Qed.

Lemma extends_refl (s : Storage.store) : extends s s.
Proof.
  split.
  - exists []. rewrite app_nil_r. reflexivity.
  - exists (Storage.users s), []. rewrite app_nil_r.
    split; [reflexivity | apply kept_refl].
Qed.

Lemma extends_trans (s1 s2 s3 : Storage.store) :
  extends s1 s2 -> extends s2 s3 -> extends s1 s3.
Proof.
  intros [(a1 & Hp1) (k1 & u1 & Hu1 & Hk1)] [(a2 & Hp2) (k2 & u2 & Hu2 & Hk2)].
  split.
  - exists (a1 ++ a2)%list. rewrite Hp2, Hp1, app_assoc. reflexivity.
  - rewrite Hu1 in Hk2. apply Forall2_app_inv_l in Hk2.
    destruct Hk2 as (k2a & k2b & Ha & Hb & ->).
    exists k2a, (k2b ++ u2)%list. split.
    + rewrite Hu2, app_assoc. reflexivity.
    + exact (kept_trans _ _ _ Hk1 Ha).
Qed.

Lemma exec_extends (q : Storage.stmt) (s : Storage.store) :
  extends s (snd (Storage.exec q s)).
Proof.
  destruct q as [uid|p|e|uid]; simpl.
  - split.
    + exists []. simpl. rewrite app_nil_r. reflexivity.
    + exists (map (Storage.set_premium uid) (Storage.users s)), [].
      simpl. rewrite app_nil_r. split; [reflexivity | apply kept_set_premium].
  - destruct (Storage.references_missing_user p s); [apply extends_refl|].
    destruct (existsb _ _); [apply extends_refl|].
    split.
    + exists [p]. reflexivity.
    + exists (Storage.users s), []. simpl. rewrite app_nil_r.
      split; [reflexivity | apply kept_refl].
  - destruct (find (Storage.has_email e) (Storage.users s));
      [apply extends_refl|].
    split.
    + exists []. simpl. rewrite app_nil_r. reflexivity.
    + exists (Storage.users s), [Storage.new_user s e].
      split; [reflexivity | apply kept_refl].
  - apply extends_refl.
Qed.

Lemma answer_extends {R : Type} (c : call R) (w : world) :
  extends (db w) (db (snd (answer sv c w))).
Proof.
  destruct c as [payload sig secret|q|k t s d|u q s t|args];
    try apply extends_refl.
  rewrite answer_query.
  destruct (faults w) as [|[|] rest]; simpl;
    try apply exec_extends. apply extends_refl.
Qed.

Lemma run_extends {A : Type} (p : prog A) (w : world) :
  extends (db w) (db (snd (run sv p w))).
Proof.
  revert w. induction p as [a|e|R c k IH]; intros w; try apply extends_refl.
  simpl. pose proof (answer_extends c w) as H.
  destruct (answer sv c w) as [r w']. simpl in H.
  exact (extends_trans _ _ _ H (IH r w')).
Qed.

Lemma run_pair_extends {A : Type} (sched : list bool) (p1 p2 : prog A) (w : world) :
  extends (db w) (db (snd (run_pair sv sched p1 p2 w))).
Proof.
  revert p1 p2 w.
  assert (Hstep : forall (p : prog A) w, extends (db w) (db (snd (step sv p w)))).
  { intros p w. destruct p as [a|e|R c k]; try apply extends_refl.
    simpl. pose proof (answer_extends c w) as H.
    destruct (answer sv c w) as [r w']. exact H. }
  induction sched as [|b sched IH]; intros p1 p2 w; [apply extends_refl|].
  destruct b; simpl.
  - pose proof (Hstep p1 w) as H. destruct (step sv p1 w) as [p1' w'].
    exact (extends_trans _ _ _ H (IH p1' p2 w')).
  - pose proof (Hstep p2 w) as H. destruct (step sv p2 w) as [p2' w'].
    exact (extends_trans _ _ _ H (IH p1 p2' w')).
Qed.

Lemma extends_nothing_lost (s s' : Storage.store) :
  extends s s' -> nothing_lost s s'.
Proof.
  intros [(a & Hp) (k & added & Hu & Hk)]. split.
  - intros p Hin. rewrite Hp. apply in_or_app. left. exact Hin.
  - intros u Hin. rewrite Hu.
    clear Hu. induction Hk as [|x y l l' Hxy _ IH]; [contradiction|].
    destruct Hin as [<-|Hin].
    + exists y. split; [left; reflexivity | exact Hxy].
    + destruct (IH Hin) as (u' & Hin' & Hrest).
      exists u'. split; [right; exact Hin' | exact Hrest].
Qed.

(** X8: no route takes anything back.  Whatever handler runs, alone or
    with a second one and their calls interleaved, and whatever the
    storage and the upstreams do, every ledger row that was there is still
    there, and so is every user, with the id, email, points and level it
    had and with the premium flag if it had it. *)
Theorem tables_only_grow {A : Type}
  (sched : list bool) (p1 p2 : prog A) (w : world) :
  nothing_lost (db w) (db (snd (run sv p1 w))) /\
  nothing_lost (db w) (db (snd (run_pair sv sched p1 p2 w))).
Proof.
  split; apply extends_nothing_lost.
  - apply run_extends.
  - apply run_pair_extends.
Qed.

End OnlyGrow.

(** ** Registration and profile read *)

Section RegisterMore.
Import Server.

Variable sv : services.

(** X9: a registration without an email, or with an empty one, is
    answered 400 email required by a handler that makes no call. *)
Theorem register_refuses_missing_email (email : option string) :
  Js.truthy email = false ->
  register email
  = Ret (status_json 400 (Js.Obj [("error", Js.Str "email required")])).
Proof.
  intros H. unfold register. destruct email as [e|]; [rewrite H|]; reflexivity.
Qed.

(** X10: when the storage fails, the registration is answered 500 db
    error, the message of the failure goes to the console, and the store
    is as it was. *)
Theorem register_storage_failure (e : string) (w : world) (rest : list bool) :
  e <> EmptyString -> faults w = true :: rest ->
  run sv (register (Some e)) w
  = (Ok (status_json 500 (Js.Obj [("error", Js.Str "db error")])),
     mkWorld (db w) rest (console w ++ [[message Storage.unavailable]])).
Proof.
  intros He Hf. unfold register. rewrite (proj2 (truthy_Some e) He).
  unfold query. rewrite run_try_catch, run_bind, run_perform.
  rewrite answer_query, Hf. reflexivity.
Qed.

Lemma find_none_emails (e : string) (l : list Storage.user) :
  find (Storage.has_email e) l = None -> ~ In e (map Storage.email l).
Proof.
  intros Hn Hin. apply in_map_iff in Hin. destruct Hin as (u & Hu & Hin).
  apply (find_none _ _ Hn) in Hin. unfold Storage.has_email in Hin.
  rewrite Hu, String.eqb_refl in Hin. discriminate.
Qed.

(** X11: whatever the storage does, a registration changes no existing row:
    the ledger is untouched, the users table is as it was or has one more
    row, which carries the email and only when no row carried it before;
    distinct emails stay distinct. *)
Theorem register_adds_at_most_one_row (e : string) (w : world) :
  e <> EmptyString ->
  let w' := snd (run sv (register (Some e)) w) in
  Storage.purchases (db w') = Storage.purchases (db w) /\
  (Storage.users (db w') = Storage.users (db w) \/
   exists u, Storage.users (db w') = (Storage.users (db w) ++ [u])%list /\
             Storage.email u = e /\
             ~ In e (map Storage.email (Storage.users (db w)))) /\
  (NoDup (map Storage.email (Storage.users (db w))) ->
   NoDup (map Storage.email (Storage.users (db w')))).
Proof.
  intros He w'. unfold w'. clear w'.
  destruct (hd false (faults w)) eqn:Hf.
  - destruct (faults w) as [|b rest] eqn:Ef; [discriminate|].
    simpl in Hf. subst b.
    rewrite (register_storage_failure e w rest He Ef). simpl.
    split; [reflexivity|]. split; [left; reflexivity | auto].
  - rewrite (run_register sv e w He Hf). cbv zeta.
    destruct (exec_upsert e (db w)) as (u & Hr & Hemail & _ & Hp & Hcase).
    pose proof (exec_upsert_emails_unique e (db w)) as Hnd.
    rewrite Hr. cbn [fst snd db].
    split; [exact Hp|]. split; [|exact Hnd].
    destruct (find (Storage.has_email e) (Storage.users (db w))) eqn:Efind.
    + left. destruct Hcase as [_ ->]. reflexivity.
    + right. exists u. split; [exact Hcase|]. split; [exact Hemail|].
      apply find_none_emails. exact Efind.
Qed.

Lemma first_row_filter (uid : string) (l : list Storage.user) :
  first_row (filter (Storage.has_id uid) l)
  = option_map Storage.row (find (Storage.has_id uid) l).
Proof.
  induction l as [|u l IH]; simpl; [reflexivity|].
  destruct (Storage.has_id uid u); [reflexivity | exact IH].
Qed.

(** X12: the profile read only reads.  For every id and world the store
    and the console are as they were; when the storage fails the answer is
    500 db error, and otherwise it is the first row of users under the id,
    or null when there is none. *)
Theorem me_only_reads (uid : string) (w : world) :
  exists res w',
    run sv (me uid) w = (Ok res, w') /\
    db w' = db w /\ console w' = console w /\
    res = (if hd false (faults w)
           then status_json 500 (Js.Obj [("error", Js.Str "db error")])
           else json (match find (Storage.has_id uid) (Storage.users (db w)) with
                      | Some u => Storage.row u
                      | None => Js.Null
                      end)).
Proof.
  unfold me, query. rewrite run_try_catch, run_bind, run_perform, answer_query.
  destruct (faults w) as [|[|] rest]; simpl;
    eexists; eexists; (split; [reflexivity|]); repeat split;
    rewrite first_row_filter;
    destruct (find (Storage.has_id uid) (Storage.users (db w))); reflexivity.
Qed.

Lemma find_unique_id (u : Storage.user) (l : list Storage.user) :
  NoDup (map Storage.id l) -> In u l ->
  find (Storage.has_id (Storage.id u)) l = Some u.
Proof.
  induction l as [|v l IH]; intros Hnd Hin; [contradiction|].
  inversion Hnd as [|x xs Hnin Hnd']; subst. simpl.
  destruct Hin as [->|Hin].
  - unfold Storage.has_id. rewrite String.eqb_refl. reflexivity.
  - destruct (Storage.has_id (Storage.id u) v) eqn:E.
    + exfalso. apply Hnin. unfold Storage.has_id in E.
      apply String.eqb_eq in E. rewrite E. apply in_map. exact Hin.
    + apply IH; assumption.
Qed.

(** X13: register, then read.  With a storage that does not fail and ids
    that are distinct after the registration, reading the profile under
    the id the registration returned gives the very row it returned. *)
Theorem register_then_me (e : string) (w : world) :
  e <> EmptyString -> reliable w ->
  NoDup (map Storage.id
           (Storage.users (db (snd (run sv (register (Some e)) w))))) ->
  exists u,
    fst (run sv (register (Some e)) w) = Ok (json (Storage.row u)) /\
    Storage.email u = e /\
    fst (run sv (me (Storage.id u)) (snd (run sv (register (Some e)) w)))
    = Ok (json (Storage.row u)).
Proof.
  intros He Hrel.
  rewrite (run_register sv e w He (reliable_hd w Hrel)). cbv zeta.
  destruct (exec_upsert e (db w)) as (u & Hr & Hemail & Hfind & _ & _).
  rewrite Hr. cbn [fst snd db]. intros Hnd.
  exists u. split; [reflexivity|]. split; [exact Hemail|].
  set (w1 := mkWorld _ _ _).
  assert (Hh1 : hd false (faults w1) = false)
    by (apply reliable_hd_tl; exact Hrel).
  rewrite (run_me sv (Storage.id u) w1 Hh1), first_row_filter.
  unfold w1. cbn [db].
  rewrite (find_unique_id u _ Hnd (proj1 (find_some _ _ Hfind))). reflexivity.
Qed.

End RegisterMore.

(** ** Two registrations of one email in flight at the same time *)

Section ConcurrentRegistration.
Import Server.

Variable sv : services.
Variable e : string.
Hypothesis He : e <> EmptyString.

Lemma step_register (w : world) :
  hd false (faults w) = false ->
  exists u,
    step sv (register (Some e)) w
    = (Ret (json (Storage.row u)),
       mkWorld (snd (Storage.exec (Storage.UpsertUser e) (db w)))
         (tl (faults w)) (console w)) /\
    fst (Storage.exec (Storage.UpsertUser e) (db w)) = Ok [u].
Proof.
  intros Hf. destruct (exec_upsert e (db w)) as (u & Hr & _).
  exists u. split; [|exact Hr].
  unfold register. rewrite (proj2 (truthy_Some e) He).
  unfold query, perform. cbn [bind try_catch step].
  rewrite (answer_query_no_fault sv _ w Hf), Hr. reflexivity.
Qed.

Lemma registering_finished (p : prog response) (w : world) :
  registering e p w -> finished p = true ->
  exists u, p = Ret (json (Storage.row u)) /\
            find (Storage.has_email e) (Storage.users (db w)) = Some u.
Proof.
  intros [->|H] Hfin; [|exact H].
  unfold register in Hfin. rewrite (proj2 (truthy_Some e) He) in Hfin.
  discriminate.
Qed.

(** One step of a registration in flight, and what it does to the other
    one and to the store. *)
Lemma step_registering (s0 : Storage.store) (p q : prog response) (w : world) :
  reliable w -> registered_on e s0 w ->
  registering e p w -> registering e q w ->
  reliable (snd (step sv p w)) /\
  registered_on e s0 (snd (step sv p w)) /\
  registering e (fst (step sv p w)) (snd (step sv p w)) /\
  registering e q (snd (step sv p w)).
Proof.
  intros Hrel Hon Hp Hq.
  destruct Hp as [->|(u & -> & Hfind)].
  - destruct (step_register w (reliable_hd w Hrel)) as (u & -> & Hr).
    destruct (exec_upsert e (db w)) as (u' & Hr' & Hemail & Hfind & Hpur & Hcase).
    rewrite Hr in Hr'. injection Hr' as <-.
    cbn [fst snd].
    split; [apply reliable_tl; exact Hrel|].
    split; [|split].
    + destruct (find (Storage.has_email e) (Storage.users (db w))) as [u0|] eqn:E.
      * destruct Hcase as [_ Hsame]. unfold registered_on in *. cbn [db].
        rewrite Hsame. exact Hon.
      * destruct Hon as [Hs0|(v & Hn & Hev & Hv & _)].
        -- right. exists u. cbn [db]. rewrite <- Hs0.
           repeat split; assumption.
        -- exfalso. rewrite Hv in E.
           rewrite (find_app_new _ _ v Hn) in E; [discriminate|].
           unfold Storage.has_email. rewrite Hev. apply String.eqb_refl.
    + right. exists u. split; [reflexivity | exact Hfind].
    + destruct Hq as [->|(u0 & -> & Hf0)]; [left; reflexivity|].
      right. exists u0. split; [reflexivity|]. cbn [db].
      rewrite Hf0 in Hcase. destruct Hcase as [_ ->]. exact Hf0.
  - simpl. repeat split; try assumption.
    right. exists u. split; [reflexivity | exact Hfind].
Qed.

Lemma run_pair_registering
  (s0 : Storage.store) (sched : list bool) (p1 p2 : prog response) (w : world) :
  reliable w -> registered_on e s0 w ->
  registering e p1 w -> registering e p2 w ->
  let '(p1', p2', w') := run_pair sv sched p1 p2 w in
  registered_on e s0 w' /\ registering e p1' w' /\ registering e p2' w'.
Proof.
  revert p1 p2 w. induction sched as [|b sched IH]; intros p1 p2 w Hrel Hon H1 H2.
  - simpl. repeat split; assumption.
  - destruct b; simpl.
    + destruct (step_registering s0 p1 p2 w Hrel Hon H1 H2) as (Hr & Ho & Ha & Hb).
      destruct (step sv p1 w) as [p1' w']. apply IH; assumption.
    + destruct (step_registering s0 p2 p1 w Hrel Hon H2 H1) as (Hr & Ho & Ha & Hb).
      destruct (step sv p2 w) as [p2' w']. apply IH; assumption.
Qed.

(** X14: two registrations of the same email whose calls interleave in any
    way, on a storage that does not fail: once both have answered, both
    answered with the same row, the ledger is untouched, and the users
    table is as it was or has that one row more. *)
Theorem register_twice_at_once
  (sched : list bool) (w : world) (p1 p2 : prog response) (w' : world) :
  reliable w ->
  run_pair sv sched (register (Some e)) (register (Some e)) w = (p1, p2, w') ->
  finished p1 = true -> finished p2 = true ->
  exists u,
    p1 = Ret (json (Storage.row u)) /\ p2 = Ret (json (Storage.row u)) /\
    Storage.email u = e /\
    Storage.purchases (db w') = Storage.purchases (db w) /\
    (Storage.users (db w') = Storage.users (db w) \/
     Storage.users (db w') = (Storage.users (db w) ++ [u])%list).
Proof.
  intros Hrel Hrun Hf1 Hf2.
  pose proof (run_pair_registering (db w) sched (register (Some e))
                (register (Some e)) w Hrel (or_introl eq_refl)
                (or_introl eq_refl) (or_introl eq_refl)) as H.
  rewrite Hrun in H. destruct H as (Hon & H1 & H2).
  destruct (registering_finished p1 w' H1 Hf1) as (u1 & -> & Hfind1).
  destruct (registering_finished p2 w' H2 Hf2) as (u2 & -> & Hfind2).
  rewrite Hfind1 in Hfind2. injection Hfind2 as <-.
  exists u1. split; [reflexivity|]. split; [reflexivity|].
  assert (Hemail : Storage.email u1 = e).
  { apply find_some in Hfind1. destruct Hfind1 as [_ E].
    unfold Storage.has_email in E. apply String.eqb_eq. exact E. }
  split; [exact Hemail|].
  destruct Hon as [->|(v & Hn & Hev & Hv & Hp)].
  - split; [reflexivity | left; reflexivity].
  - split; [exact Hp|]. right. rewrite Hv. f_equal. f_equal.
    rewrite Hv in Hfind1.
    rewrite (find_app_new _ _ v Hn) in Hfind1.
    + injection Hfind1 as ->. reflexivity.
    + unfold Storage.has_email. rewrite Hev. apply String.eqb_refl.
Qed.

End ConcurrentRegistration.

(** ** From registration to premium *)

Section RegisterPayRead.
Import Server.

Variable sv : services.
Variable cfg : env.

Lemma row_injective (u v : Storage.user) : Storage.row u = Storage.row v -> u = v.
Proof.
  destruct u, v. unfold Storage.row. simpl. intros H.
  injection H as -> -> -> -> ->. reflexivity.
Qed.

Lemma run_reliable {A : Type} (p : prog A) (w : world) :
  reliable w -> reliable (snd (run sv p w)).
Proof.
  revert w. induction p as [a|e|R c k IH]; intros w Hrel; try exact Hrel.
  simpl. pose proof (proj2 (proj2 (proj2 (answer_preserves sv c w))) Hrel) as H.
  destruct (answer sv c w) as [r w']. apply IH. exact H.
Qed.

(** X15: register, pay, read.  With a storage that does not fail: a
    registration answers with a row; a verified completion event whose
    metadata carry the id of that row (an id that is not empty) is
    delivered; the profile read under that id then shows the premium
    flag. *)
Theorem register_pay_read
  (e : string) (w : world) (req : webhook_request) (event : Stripe.event)
  (u : Storage.user) (w1 : world) :
  e <> EmptyString -> reliable w ->
  run sv (register (Some e)) w = (Ok (json (Storage.row u)), w1) ->
  Js.truthy (header (req_headers req) "get") = false ->
  Server.verification sv cfg req = Ok event ->
  Stripe.type event = completed ->
  session_userId (Stripe.object event) = Some (Storage.id u) ->
  Storage.id u <> EmptyString ->
  exists u',
    fst (run sv (me (Storage.id u)) (snd (run sv (webhook cfg req) w1)))
      = Ok (json (Storage.row u')) /\
    Storage.id u' = Storage.id u /\ Storage.is_premium u' = true.
Proof.
  intros He Hrel Hreg Hget Hv Ht HU Hne.
  assert (Hrel1 : reliable w1).
  { pose proof (run_reliable (register (Some e)) w Hrel) as H.
    rewrite Hreg in H. exact H. }
  assert (Hin : In u (Storage.users (db w1))).
  { rewrite (run_register sv e w He (reliable_hd w Hrel)) in Hreg. cbv zeta in Hreg.
    destruct (exec_upsert e (db w)) as (u0 & Hr & _ & Hfind & _).
    rewrite Hr in Hreg. cbn [first_row] in Hreg.
    assert (Hrow : Storage.row u0 = Storage.row u)
      by (unfold json in Hreg; congruence).
    assert (Hw1 : w1 = mkWorld (snd (Storage.exec (Storage.UpsertUser e) (db w)))
                         (tl (faults w)) (console w))
      by congruence.
    apply row_injective in Hrow. subst u0.
    rewrite Hw1. cbn [db]. exact (proj1 (find_some _ _ Hfind)). }
  set (w2 := snd (run sv (webhook cfg req) w1)).
  assert (Hrel2 : reliable w2) by (apply run_reliable; exact Hrel1).
  rewrite (run_me sv (Storage.id u) w2 (reliable_hd w2 Hrel2)).
  unfold w2. rewrite (run_webhook_completed sv cfg req w1 event Hget Hv Ht).
  cbn [snd].
  rewrite (apply_session_users sv _ w1 (reliable_hd w1 Hrel1)).
  rewrite (premium_update_present _ _ _ HU (proj2 (truthy_Some _) Hne)).
  rewrite filter_has_id_set_premium.
  destruct (filter_has_id_nonempty (Storage.id u) u _ Hin eq_refl)
    as (v & r & E & Hv').
  rewrite E. simpl.
  assert (Hhas : Storage.has_id (Storage.id u) v = true).
  { unfold Storage.has_id. rewrite Hv'. apply String.eqb_refl. }
  exists (Storage.set_premium (Storage.id u) v).
  split; [reflexivity|]. rewrite set_premium_id.
  split; [exact Hv' | apply set_premium_premium; exact Hhas].
Qed.

End RegisterPayRead.

(** ** Checkout *)

Section CheckoutFacts.
Import Server Checkout.

(** X16: the checkout route always answers, with 200 or 500.  Without a
    Stripe key it answers 500 Stripe not configured and the provider is
    not called; it answers 200, with the id and url the provider returned,
    exactly when the key is set and the provider's call succeeds; a failed
    call is answered 500 stripe error, its message only on the console. *)
Theorem checkout_answers
  (cfg : env) (public_url userId : option string)
  (create : params -> outcome created) :
  let result := create_checkout_session cfg public_url userId create in
  (stripe cfg = false ->
   forall create', create_checkout_session cfg public_url userId create'
                   = (not_configured, [])) /\
  (forall s, stripe cfg = true -> create (params_of public_url userId) = Ok s ->
             result = (session_json s, [])) /\
  (forall e, stripe cfg = true -> create (params_of public_url userId) = Err e ->
             result = (stripe_error, [[message e]])) /\
  (status (fst result) = 200 <->
   stripe cfg = true /\ exists s, create (params_of public_url userId) = Ok s) /\
  (status (fst result) = 200 \/ status (fst result) = 500).
Proof.
  unfold create_checkout_session. cbv zeta.
  destruct (stripe cfg); simpl.
  - destruct (create (params_of public_url userId)) as [s|e]; simpl.
    + repeat split; try discriminate; try congruence; eauto.
    + repeat split; try discriminate; try congruence.
      * intros [_ (s & Hs)]. discriminate.
      * right. reflexivity.
  - repeat split; try discriminate; auto.
    intros [H _]. discriminate.
Qed.

(** X17: what the checkout puts into a session and what the webhook takes
    out of it agree.  For a session that carries the metadata the checkout
    sent: the ledger row is for the user the checkout was asked for (no
    user when none or an empty one was given), the premium update is sent
    for that user and only then, and the amount and currency the webhook
    falls back on are those of the one line item of the checkout. *)
Theorem checkout_webhook_agree
  (public_url userId : option string) (sid : string)
  (total : option Z) (cur : option string) :
  let p := params_of public_url userId in
  let session := Stripe.mkSession sid (Some (metadata p)) total cur in
  Storage.user_id (purchase_of session) = Js.or_null userId /\
  Storage.provider_id (purchase_of session) = sid /\
  update_premium session
    = (if Js.truthy userId
       then query (Storage.UpdatePremium (Js.or_else userId EmptyString)) ;;; Ret tt
       else Ret tt) /\
  (forall u, userId = Some u -> u <> EmptyString ->
             Storage.user_id (purchase_of session) = Some u) /\
  exists item, line_items p = [item] /\
    (total = None ->
     Storage.amount (purchase_of session)
     = unit_amount (item_price item) * quantity item) /\
    (cur = None ->
     Storage.currency (purchase_of session) = currency (item_price item)).
Proof.
  cbv zeta. unfold purchase_of, update_premium, session_userId. simpl.
  destruct userId as [[|c u]|]; simpl.
  - repeat split; try reflexivity.
    + intros u Hu Hne. injection Hu as <-. contradiction.
    + eexists. split; [reflexivity|]. split; intros ->; reflexivity.
  - repeat split; try reflexivity.
    + intros u' Hu _. exact Hu.
    + eexists. split; [reflexivity|]. split; intros ->; reflexivity.
  - repeat split; try reflexivity.
    + intros u Hu. discriminate.
    + eexists. split; [reflexivity|]. split; intros ->; reflexivity.
Qed.

End CheckoutFacts.



(** ** The certificate: levels written in decimal, and levels that are no integers *)

Section DecimalLevels.
Import Certificate.

#[local] Abbreviation digits d :=
  (list_ascii_of_string (NilEmpty.string_of_uint d)).

Lemma Qred_integer (z : Z) : Qred (Qmake z 1) = Qmake z 1.
Proof.
  unfold Qred.
  pose proof (Z.ggcd_gcd z 1) as Hg.
  pose proof (Z.ggcd_correct_divisors z 1) as Hd.
  destruct (Z.ggcd z 1) as [g [a b]]. simpl in Hg. simpl snd.
  rewrite Z.gcd_1_r in Hg. subst g. destruct Hd as [Ha Hb].
  rewrite Z.mul_1_l in Ha, Hb. subst a. rewrite <- Hb. reflexivity.
Qed.

Lemma round_half_even_1 (a : Z) : Js.round_half_even a 1 = a.
Proof.
  unfold Js.round_half_even. rewrite Z.mod_1_r, Z.div_1_r. reflexivity.
Qed.

Lemma ilog2_integer (p : Z) : 0 < p -> Js.ilog2 p 1 = Z.log2 p.
Proof.
  intros Hp. unfold Js.ilog2, Js.scale2.
  change (Z.log2 1) with 0. rewrite Z.sub_0_r.
  pose proof (Z.log2_nonneg p) as Hl.
  pose proof (Z.log2_spec p Hp) as [Hs _].
  destruct (0 <=? Z.log2 p) eqn:E; [|apply Z.leb_gt in E; lia].
  rewrite Z.mul_1_l.
  destruct (2 ^ Z.log2 p <=? p) eqn:E2; [reflexivity|].
  apply Z.leb_gt in E2. lia.
Qed.

(** An integer below 2^53 is a double. *)
Lemma of_rational_integer (neg : bool) (p : Z) :
  0 < p < 2 ^ 53 ->
  Js.of_rational neg p 1 = Js.Int (if neg then - p else p).
Proof.
  intros [Hp Hlt]. unfold Js.of_rational.
  destruct (p =? 0) eqn:E0; [apply Z.eqb_eq in E0; lia|].
  rewrite (ilog2_integer p Hp).
  pose proof (Z.log2_nonneg p) as Hl.
  assert (He : Z.log2 p < 53) by (apply Z.log2_lt_pow2; assumption).
  rewrite Z.max_l by lia.
  set (u := Z.log2 p - 52).
  unfold Js.scale2.
  destruct (0 <=? u) eqn:Eu.
  - apply Z.leb_le in Eu. assert (Hu : u = 0) by (unfold u in *; lia).
    rewrite Hu. change (2 ^ 0) with 1. rewrite !Z.mul_1_r.
    rewrite round_half_even_1, E0.
    assert (Hbig : (2 ^ 1024 <=? p) = false).
    { apply Z.leb_gt. apply Z.lt_trans with (2 ^ 53); [exact Hlt|].
      apply Z.pow_lt_mono_r; lia. }
    rewrite Hbig. cbn [andb]. rewrite Qred_integer. reflexivity.
  - apply Z.leb_gt in Eu.
    rewrite round_half_even_1.
    assert (Hk : 0 < 2 ^ (- u)) by (apply Z.pow_pos_nonneg; lia).
    destruct (p * 2 ^ (- u) =? 0) eqn:Em; [apply Z.eqb_eq in Em; nia|].
    cbn [andb]. unfold Js.Int. f_equal.
    rewrite <- (Qred_integer (if neg then - p else p)).
    apply Qred_complete. unfold Qeq. cbn [Qnum Qden].
    rewrite Z2Pos.id by exact Hk. destruct neg; ring.
Qed.

Lemma read_digits_cons (acc cnt : Z) (c : ascii) (r : list ascii) :
  Js.read_digits acc cnt (c :: r) =
  match Js.digit_value 10 c with
  | Some d => Js.read_digits (10 * acc + d) (cnt + 1) r
  | None => (acc, cnt, c :: r)
  end.
Proof. reflexivity. Qed.

Ltac digit_step :=
  cbn [NilEmpty.string_of_uint list_ascii_of_string Pos.of_uint_acc Pos.of_uint
       List.length];
  rewrite read_digits_cons;
  match goal with
  | |- context [Js.digit_value 10 ?c] =>
      let v := eval vm_compute in (Js.digit_value 10 c) in
      change (Js.digit_value 10 c) with v
  end;
  cbv iota.

Lemma read_digits_acc (d : Decimal.uint) (acc : positive) (cnt : Z) :
  Js.read_digits (Z.pos acc) cnt (digits d)
  = (Z.pos (Pos.of_uint_acc d acc), cnt + Z.of_nat (List.length (digits d)), []).
Proof.
  revert acc cnt.
  induction d as [|d IH|d IH|d IH|d IH|d IH|d IH|d IH|d IH|d IH|d IH];
    intros acc cnt;
    [cbn; rewrite Z.add_0_r; reflexivity|..];
    digit_step;
    match goal with
    | |- Js.read_digits ?x _ _ = (Z.pos (Pos.of_uint_acc _ ?a), _, _) =>
        replace x with (Z.pos a) by lia
    end;
    rewrite IH; f_equal; f_equal; lia.
Qed.

Lemma read_digits_uint (d : Decimal.uint) (cnt : Z) :
  Js.read_digits 0 cnt (digits d)
  = (Z.of_N (Pos.of_uint d), cnt + Z.of_nat (List.length (digits d)), []).
Proof.
  revert cnt.
  induction d as [|d IH|d IH|d IH|d IH|d IH|d IH|d IH|d IH|d IH|d IH];
    intros cnt;
    [cbn; rewrite Z.add_0_r; reflexivity|..];
    digit_step.
  - change (10 * 0 + 0) with 0. rewrite IH. f_equal. f_equal. lia.
  - change (10 * 0 + 1) with (Z.pos 1). rewrite read_digits_acc. f_equal. f_equal. lia.
  - change (10 * 0 + 2) with (Z.pos 2). rewrite read_digits_acc. f_equal. f_equal. lia.
  - change (10 * 0 + 3) with (Z.pos 3). rewrite read_digits_acc. f_equal. f_equal. lia.
  - change (10 * 0 + 4) with (Z.pos 4). rewrite read_digits_acc. f_equal. f_equal. lia.
  - change (10 * 0 + 5) with (Z.pos 5). rewrite read_digits_acc. f_equal. f_equal. lia.
  - change (10 * 0 + 6) with (Z.pos 6). rewrite read_digits_acc. f_equal. f_equal. lia.
  - change (10 * 0 + 7) with (Z.pos 7). rewrite read_digits_acc. f_equal. f_equal. lia.
  - change (10 * 0 + 8) with (Z.pos 8). rewrite read_digits_acc. f_equal. f_equal. lia.
  - change (10 * 0 + 9) with (Z.pos 9). rewrite read_digits_acc. f_equal. f_equal. lia.
Qed.


(** The characters a decimal integer is written with. *)
Lemma digits_Forall (d : Decimal.uint) :
  Forall (fun c => In c (list_ascii_of_string "0123456789")) (digits d).
Proof.
  induction d; cbn [NilEmpty.string_of_uint list_ascii_of_string];
    constructor; try assumption; cbn; tauto.
Qed.

Lemma strip_cons (back : bool) (a : ascii) (r : list ascii) :
  Js.strip back (a :: r) =
  if Js.space1 a then Js.strip back r
  else
    match r with
    | b :: r2 =>
        if (if back then Js.space2 b a else Js.space2 a b) then Js.strip back r2
        else
          match r2 with
          | c :: r3 =>
              if (if back then Js.space3 c b a else Js.space3 a b c)
              then Js.strip back r3
              else a :: r
          | [] => a :: r
          end
    | [] => a :: r
    end.
Proof. reflexivity. Qed.

(** A digit or a minus sign is no white space and no byte of a white space
    of several bytes that the stripping would look at. *)
Lemma plain_no_space (c : ascii) :
  In c (list_ascii_of_string "0123456789-") ->
  Js.space1 c = false /\
  (forall b, Js.space2 b c = false /\ Js.space2 c b = false) /\
  (forall a b, Js.space3 a b c = false /\ Js.space3 c a b = false).
Proof.
  intros Hc. cbn in Hc.
  repeat (destruct Hc as [<-|Hc]; [|]); try contradiction;
    (split; [reflexivity|]); (split; [intros b | intros a b]); split;
    try reflexivity; unfold Js.space2, Js.space3; cbn;
    rewrite ?andb_false_r; reflexivity.
Qed.

Lemma strip_plain (back : bool) (c : ascii) (r : list ascii) :
  In c (list_ascii_of_string "0123456789-") ->
  Js.strip back (c :: r) = c :: r.
Proof.
  intros Hc. destruct (plain_no_space c Hc) as (H1 & H2 & H3).
  rewrite strip_cons, H1.
  destruct r as [|b [|b2 r3]]; [reflexivity| |].
  - destruct back; [rewrite (proj1 (H2 b)) | rewrite (proj2 (H2 b))]; reflexivity.
  - destruct back.
    + rewrite (proj1 (H2 b)), (proj1 (H3 b2 b)). reflexivity.
    + rewrite (proj2 (H2 b)), (proj2 (H3 b b2)). reflexivity.
Qed.

Lemma digit_is_plain (c : ascii) :
  In c (list_ascii_of_string "0123456789") ->
  In c (list_ascii_of_string "0123456789-").
Proof.
  intros H. change (list_ascii_of_string "0123456789-")
    with (list_ascii_of_string "0123456789" ++ ["-"%char])%list.
  apply in_or_app. left. exact H.
Qed.

(** Nothing is trimmed from a string whose first character is a digit or
    a minus sign and whose last is a digit. *)
Lemma trim_plain (c : ascii) (l : list ascii) (z : ascii) :
  In c (list_ascii_of_string "0123456789-") ->
  In z (list_ascii_of_string "0123456789") ->
  Js.trim (c :: l ++ [z]) = (c :: l ++ [z])%list.
Proof.
  intros Hc Hz. unfold Js.trim. rewrite (strip_plain false c _ Hc).
  change (c :: l ++ [z])%list with ((c :: l) ++ [z])%list.
  rewrite rev_app_distr. set (X := rev (c :: l)).
  change (rev [z] ++ X)%list with (z :: X).
  rewrite (strip_plain true z _ (digit_is_plain z Hz)).
  change (rev (z :: X)) with (rev X ++ [z])%list.
  unfold X. rewrite rev_involutive. reflexivity.
Qed.

Lemma digits_split (d : Decimal.uint) :
  d <> Decimal.Nil ->
  (exists c, digits d = [c] /\ In c (list_ascii_of_string "0123456789")) \/
  (exists c l z, digits d = (c :: l ++ [z])%list /\
                 In c (list_ascii_of_string "0123456789") /\
                 In z (list_ascii_of_string "0123456789")).
Proof.
  intros Hd. pose proof (digits_Forall d) as HF.
  destruct (digits d) as [|c r] eqn:E.
  - destruct d; try contradiction; discriminate.
  - inversion HF as [|? ? Hc Hr]; subst.
    destruct r as [|b0 r0].
    + left. exists c. split; [reflexivity | exact Hc].
    + right.
      destruct (@exists_last _ (b0 :: r0)) as (l & z & El); [discriminate|].
      rewrite El in Hr |- *.
      exists c, l, z. split; [reflexivity|]. split; [exact Hc|].
      apply Forall_app in Hr. destruct Hr as [_ Hb].
      inversion Hb. assumption.
Qed.

Lemma trim_digits (d : Decimal.uint) :
  d <> Decimal.Nil -> Js.trim (digits d) = digits d.
Proof.
  intros Hd. destruct (digits_split d Hd) as [(c & -> & Hc)|(c & l & z & -> & Hc & Hz)].
  - unfold Js.trim. rewrite (strip_plain false c [] (digit_is_plain c Hc)).
    cbn [rev app]. rewrite (strip_plain true c [] (digit_is_plain c Hc)).
    reflexivity.
  - apply trim_plain; [apply digit_is_plain|]; assumption.
Qed.

Lemma trim_minus_digits (d : Decimal.uint) :
  d <> Decimal.Nil -> Js.trim ("-"%char :: digits d) = "-"%char :: digits d.
Proof.
  intros Hd.
  assert (Hm : In "-"%char (list_ascii_of_string "0123456789-")) by (cbn; tauto).
  destruct (digits_split d Hd) as [(c & -> & Hc)|(c & l & z & -> & Hc & Hz)].
  - exact (trim_plain "-" [] c Hm Hc).
  - exact (trim_plain "-" (c :: l) z Hm Hz).
Qed.

Lemma digits_length (d : Decimal.uint) :
  d <> Decimal.Nil -> 0 < Z.of_nat (List.length (digits d)).
Proof. intros Hd. destruct d; try contradiction; cbn [NilEmpty.string_of_uint list_ascii_of_string List.length]; lia. Qed.

Lemma unsigned_literal_digits (neg : bool) (d : Decimal.uint) :
  d <> Decimal.Nil ->
  Js.unsigned_literal neg (digits d)
  = Js.of_rational neg (Z.of_N (Pos.of_uint d)) 1.
Proof.
  intros Hd. unfold Js.unsigned_literal.
  destruct (list_eq_dec ascii_dec (digits d) (list_ascii_of_string "Infinity"))
    as [E|_].
  - exfalso. destruct d; try contradiction; discriminate.
  - unfold Js.decimal_literal. rewrite read_digits_uint.
    pose proof (digits_length d Hd) as Hl.
    destruct (0 <? 0 + Z.of_nat (List.length (digits d))) eqn:E;
      [|apply Z.ltb_ge in E; lia].
    cbn [Js.exponent_part]. unfold Js.of_decimal.
    change (0 <=? 0) with true. cbv iota.
    change (10 ^ 0) with 1. rewrite Z.mul_1_r. reflexivity.
Qed.

Lemma Number_digits (d : Decimal.uint) :
  d <> Decimal.Nil ->
  Js.Number (NilEmpty.string_of_uint d) = Js.unsigned_literal false (digits d).
Proof.
  intros Hd. unfold Js.Number. rewrite (trim_digits d Hd).
  destruct d as [|d|d|d|d|d|d|d|d|d|d]; try contradiction; try reflexivity.
  destruct d; reflexivity.
Qed.

Lemma Number_minus_digits (d : Decimal.uint) :
  d <> Decimal.Nil ->
  Js.Number (String "-" (NilEmpty.string_of_uint d))
  = Js.unsigned_literal true (digits d).
Proof.
  intros Hd. unfold Js.Number. cbn [list_ascii_of_string].
  rewrite (trim_minus_digits d Hd). reflexivity.
Qed.

Lemma string_of_uint_nonnil (d : Decimal.uint) :
  d <> Decimal.Nil -> NilZero.string_of_uint d = NilEmpty.string_of_uint d.
Proof. intros H. destruct d; try contradiction; reflexivity. Qed.

(** What the template literal writes for an integer below 2^53 in size,
    [Number] reads back. *)
Lemma Number_string_of_Z (z : Z) :
  Z.abs z < 2 ^ 53 -> Js.Number (Js.string_of_Z z) = Js.Int z.
Proof.
  intros Hz. unfold Js.string_of_Z. destruct z as [|p|p]; [reflexivity| |];
    cbn [Z.to_int NilZero.string_of_int];
    pose proof (DecimalPos.Unsigned.to_uint_nonnil p) as Hnn;
    rewrite (string_of_uint_nonnil _ Hnn).
  - rewrite (Number_digits _ Hnn), (unsigned_literal_digits false _ Hnn),
      DecimalPos.Unsigned.of_to.
    apply (of_rational_integer false (Z.pos p)). cbn [Z.abs] in Hz. lia.
  - rewrite (Number_minus_digits _ Hnn), (unsigned_literal_digits true _ Hnn),
      DecimalPos.Unsigned.of_to.
    apply (of_rational_integer true (Z.pos p)). cbn [Z.abs] in Hz. lia.
Qed.

Lemma round_half_even_ge (a b : Z) : a / b <= Js.round_half_even a b.
Proof.
  unfold Js.round_half_even.
  destruct (2 * (a mod b) ?= b); [destruct (Z.even (a / b))|..]; lia.
Qed.

(** An integer from 2^53 on is rounded to an integer from 2^53 on, or to
    an infinity. *)
Lemma of_rational_large (neg : bool) (p : Z) :
  2 ^ 53 <= p ->
  (exists n, 2 ^ 53 <= n /\
             Js.of_rational neg p 1 = Js.Int (if neg then - n else n)) \/
  Js.of_rational neg p 1 = Js.Inf neg.
Proof.
  intros Hp.
  assert (H53 : 0 < 2 ^ 53) by (apply Z.pow_pos_nonneg; lia).
  assert (Hpos : 0 < p) by lia.
  unfold Js.of_rational.
  destruct (p =? 0) eqn:E0; [apply Z.eqb_eq in E0; lia|].
  rewrite (ilog2_integer p Hpos).
  assert (He : 53 <= Z.log2 p).
  { rewrite <- (Z.log2_pow2 53) by lia. apply Z.log2_le_mono. exact Hp. }
  rewrite Z.max_l by lia.
  set (u := Z.log2 p - 52).
  assert (Hu : 1 <= u) by (unfold u; lia).
  unfold Js.scale2.
  destruct (0 <=? u) eqn:Eu; [|apply Z.leb_gt in Eu; lia].
  rewrite Z.mul_1_l.
  assert (H2u : 2 <= 2 ^ u).
  { change 2 with (2 ^ 1) at 1. apply Z.pow_le_mono_r; lia. }
  assert (Hm : 2 ^ 52 <= Js.round_half_even p (2 ^ u)).
  { apply Z.le_trans with (p / 2 ^ u); [|apply round_half_even_ge].
    apply Z.div_le_lower_bound; [lia|].
    rewrite <- Z.pow_add_r by lia.
    replace (u + 52) with (Z.log2 p) by (unfold u; lia).
    apply (Z.log2_spec p Hpos). }
  set (m := Js.round_half_even p (2 ^ u)) in *.
  assert (H52 : 0 < 2 ^ 52) by (apply Z.pow_pos_nonneg; lia).
  destruct (m =? 0) eqn:Em; [apply Z.eqb_eq in Em; lia|].
  cbn [andb].
  destruct (2 ^ 1024 <=? m * 2 ^ u); [right; reflexivity|].
  left. exists (m * 2 ^ u). split.
  - change (2 ^ 53) with (2 ^ 52 * 2). nia.
  - rewrite Qred_integer. unfold Js.Int. destruct neg; [|reflexivity].
    f_equal. f_equal. ring.
Qed.

Lemma Number_string_of_Z_rational (z : Z) :
  z <> 0 ->
  Js.Number (Js.string_of_Z z) = Js.of_rational (z <? 0) (Z.abs z) 1.
Proof.
  intros Hz. unfold Js.string_of_Z. destruct z as [|p|p]; [contradiction| |];
    cbn [Z.to_int NilZero.string_of_int];
    pose proof (DecimalPos.Unsigned.to_uint_nonnil p) as Hnn;
    rewrite (string_of_uint_nonnil _ Hnn).
  - rewrite (Number_digits _ Hnn), (unsigned_literal_digits false _ Hnn),
      DecimalPos.Unsigned.of_to. reflexivity.
  - rewrite (Number_minus_digits _ Hnn), (unsigned_literal_digits true _ Hnn),
      DecimalPos.Unsigned.of_to. reflexivity.
Qed.

Lemma string_of_Z_not_empty (z : Z) : Js.string_of_Z z <> EmptyString.
Proof.
  unfold Js.string_of_Z. destruct z as [|p|p]; [discriminate| |];
    cbn [Z.to_int NilZero.string_of_int]; [|discriminate].
  pose proof (DecimalPos.Unsigned.to_uint_nonnil p) as Hnn.
  destruct (Pos.to_uint p); try contradiction; discriminate.
Qed.

Lemma clamp_of_rational (neg : bool) (p : Z) :
  0 < p ->
  clamp (Js.of_rational neg p 1)
  = Js.Int (Z.max 1 (Z.min 20 (if neg then - p else p))).
Proof.
  intros Hp.
  assert (H53 : 2 ^ 53 = 9007199254740992) by reflexivity.
  destruct (Z.lt_ge_cases p (2 ^ 53)) as [Hlt|Hge].
  - rewrite (of_rational_integer neg p (conj Hp Hlt)). apply clamp_Int.
  - destruct (of_rational_large neg p Hge) as [(n & Hn & ->)| ->].
    + rewrite clamp_Int. f_equal. destruct neg; lia.
    + destruct neg; cbn; f_equal; lia.
Qed.

Lemma titleIndex_string_of_Z (z : Z) :
  titleIndex (Js.string_of_Z z) = Js.Int (Z.max 1 (Z.min 20 z)).
Proof.
  unfold titleIndex, level_number.
  rewrite (proj2 (truthy_Some _) (string_of_Z_not_empty z)).
  destruct (Z.eq_dec z 0) as [->|Hz]; [reflexivity|].
  rewrite (Number_string_of_Z_rational z Hz).
  rewrite clamp_of_rational by lia.
  f_equal. destruct (z <? 0) eqn:E;
    [apply Z.ltb_lt in E | apply Z.ltb_ge in E]; lia.
Qed.

(** X21: for every integer, of any size, the request whose level is that
    integer written in decimal gets the level clamped to 1..20: the index
    is the clamped N, the table has an entry at N-1, and the attachment is
    named nfj_certificate_level_N.pdf; an integer below 2^53 in size is
    read back as it is. *)
Theorem certificate_decimal_level (name : string) (z : Z) :
  let n := Z.max 1 (Z.min 20 z) in
  titleIndex (Js.string_of_Z z) = Js.Int n /\
  (exists t, nth_error TITLES (Z.to_nat (n - 1)) = Some t) /\
  header (headers_set (certificate name (Js.string_of_Z z))) "Content-Disposition"
  = Some ("attachment; filename=" ++ dq
            ++ ("nfj_certificate_level_" ++ Js.string_of_Z n ++ ".pdf") ++ dq) /\
  (Z.abs z < 2 ^ 53 -> Js.Number (Js.string_of_Z z) = Js.Int z).
Proof.
  intros n.
  assert (Hn : 1 <= n <= 20) by (unfold n; lia).
  pose proof (titleIndex_string_of_Z z) as Hti. fold n in Hti.
  split; [exact Hti|]. split; [exact (title_in_range n Hn)|].
  split; [|apply Number_string_of_Z].
  unfold certificate, filename. rewrite Hti, (toString_clamped n Hn).
  reflexivity.
Qed.

End DecimalLevels.

Section CertificateMore.
Import Certificate.

Lemma level_number_not_empty (level : string) :
  level <> EmptyString -> level_number level = Js.Number level.
Proof.
  intros H. unfold level_number. rewrite (proj2 (truthy_Some level) H).
  reflexivity.
Qed.

(** X18: levels that are no integers.  A level that is no number is not
    clamped: the index is NaN and the attachment is named
    nfj_certificate_level_NaN.pdf.  A number strictly between 1 and 20 is
    kept as it is, fraction included.  Negative zero and the infinities
    are clamped like integers, to 1, to 20 and to 1. *)
Theorem certificate_level_not_an_integer (name level : string) :
  (Js.Number level = Js.NaN ->
   titleIndex level = Js.NaN /\
   header (headers_set (certificate name level)) "Content-Disposition"
   = Some ("attachment; filename=" ++ dq ++ "nfj_certificate_level_NaN.pdf" ++ dq)) /\
  (forall q, Js.Number level = Js.Fin q ->
             Qle_bool (Qmake 1 1) q = true -> Qle_bool (Qmake 20 1) q = false ->
             titleIndex level = Js.Fin q) /\
  (Js.Number level = Js.NegZero -> titleIndex level = Js.Int 1) /\
  (Js.Number level = Js.Inf false -> titleIndex level = Js.Int 20) /\
  (Js.Number level = Js.Inf true -> titleIndex level = Js.Int 1).
Proof.
  destruct level as [|c r].
  - split; [discriminate|]. split; [|repeat split; discriminate].
    intros q H H1 _. vm_compute in H. injection H as <-. discriminate H1.
  - assert (Hl : level_number (String c r) = Js.Number (String c r))
      by (apply level_number_not_empty; discriminate).
    unfold certificate, filename, titleIndex. rewrite Hl.
    split; [intros ->; split; reflexivity|].
    split; [|repeat split; intros ->; reflexivity].
    intros q -> H1 H20. unfold clamp, Js.min, Js.max, Js.Int, Js.le.
    rewrite H20, H1. reflexivity.
Qed.

End CertificateMore.

(** ** The further properties on the sample deployment *)

Section MoreOnSample.
Import Server Sample Cases.

Lemma translate_refuses_missing_field_witness :
  translate configured no_source
  = Ret (status_json 400 (Js.Obj [("error", Js.Str "Missing q/source/target")])).
Proof. exact (translate_refuses_missing_field configured no_source eq_refl). Defined.

Lemma translate_primary_first_witness :
  run upstream_deepl (translate configured hello) world_1
  = (Ok (json (Js.Obj [("translatedText", Js.Str "Hallo");
                       ("provider", Js.Str "deepl")])), world_1) /\
  calls upstream_deepl (translate configured hello) world_1
  = [Made (DeeplPost "deepl-key" "Hello" "EN" "DE")].
Proof.
  refine (translate_primary_first upstream_deepl configured "Hello" "en" "de"
            "deepl-key" _ _ (Deepl.mkTranslation (Some "Hallo")) [] world_1
            _ _ _ eq_refl _ eq_refl eq_refl eq_refl); discriminate.
Defined.

Lemma translate_secondary_throws_witness :
  run upstream_libre_down (translate configured hello) world_1
  = (Ok (status_json 500 (Js.Obj [("error", Js.Str "Translation failed")])),
     mkWorld (db world_1) (faults world_1)
       (console world_1 ++ [["translate error"; "connect ECONNREFUSED"]])) /\
  run upstream_libre_refuses (translate configured hello) world_1
  = (Ok (status_json 500 (Js.Obj [("error", Js.Str "Translation failed")])),
     mkWorld (db world_1) (faults world_1)
       (console world_1 ++ [["translate error"; "Slowdown: 20 per 1 minute"]])).
Proof.
  split.
  - refine (translate_secondary_throws upstream_libre_down configured
              "Hello" "en" "de" "http://libre"
              (mkError "AxiosError" "connect ECONNREFUSED") world_1
              _ _ _ _ eq_refl _ eq_refl); try discriminate.
    intros key _ _. eexists. split; reflexivity.
  - refine (translate_secondary_throws upstream_libre_refuses configured
              "Hello" "en" "de" "http://libre"
              (mkThrown "AxiosError" "Request failed with status code 429"
                 (Some "Slowdown: 20 per 1 minute")) world_1
              _ _ _ _ eq_refl _ eq_refl); try discriminate.
    intros key _ _. eexists. split; reflexivity.
Defined.

Lemma webhook_get_header_unanswered_witness :
  webhook configured with_get_header
  = Throw (mkError "TypeError" "req.headers.get is not a function").
Proof. exact (webhook_get_header_unanswered configured with_get_header eq_refl). Defined.


Lemma webhook_failed_update_skips_insert_witness :
  run upstream (webhook configured delivery) world_1_next_query_fails
  = (Ok received,
     mkWorld store_1 []
       [["db webhook handler error"; "connection terminated"]]).
Proof.
  refine (webhook_failed_update_skips_insert upstream configured delivery
            world_1_next_query_fails event_1 "1" []
            eq_refl eq_refl eq_refl eq_refl _ eq_refl).
  discriminate.
Defined.

Lemma webhook_redelivery_one_row_witness :
  List.length (Storage.ledger_rows "stripe" "cs_test_1"
                 (db (deliveries upstream configured delivery 3 world_1))) = 1%nat.
Proof.
  exact (webhook_redelivery_one_row upstream configured delivery event_1 2 world_1
           eq_refl eq_refl eq_refl ledger_unique_store_1
           (conj reliable_world_1 eq_refl)).
Defined.

Lemma register_refuses_missing_email_witness :
  register (Some EmptyString)
  = Ret (status_json 400 (Js.Obj [("error", Js.Str "email required")])).
Proof. exact (register_refuses_missing_email (Some EmptyString) eq_refl). Defined.

Lemma register_storage_failure_witness :
  run upstream (register (Some "astrid@example.org")) world_1_next_query_fails
  = (Ok (status_json 500 (Js.Obj [("error", Js.Str "db error")])),
     mkWorld store_1 [] [["connection terminated"]]).
Proof.
  refine (register_storage_failure upstream "astrid@example.org"
            world_1_next_query_fails [] _ eq_refl).
  discriminate.
Defined.

Lemma register_adds_at_most_one_row_witness :
  let w' := snd (run upstream (register (Some "astrid@example.org")) world_1) in
  Storage.purchases (db w') = Storage.purchases (db world_1) /\
  (Storage.users (db w') = Storage.users (db world_1) \/
   exists u, Storage.users (db w') = (Storage.users (db world_1) ++ [u])%list /\
             Storage.email u = "astrid@example.org" /\
             ~ In "astrid@example.org"
                  (map Storage.email (Storage.users (db world_1)))) /\
  (NoDup (map Storage.email (Storage.users (db world_1))) ->
   NoDup (map Storage.email (Storage.users (db w')))).
Proof.
  refine (register_adds_at_most_one_row upstream "astrid@example.org" world_1 _).
  discriminate.
Defined.

Lemma distinct_ids_after_registration :
  NoDup (map Storage.id
           (Storage.users
              (db (snd (run upstream (register (Some "astrid@example.org"))
                          world_1))))).
Proof.
  simpl. constructor; [|constructor; [|constructor]].
  - intros [H|[]]. discriminate.
  - intros [].
Defined.

Lemma register_then_me_witness :
  exists u,
    fst (run upstream (register (Some "astrid@example.org")) world_1)
      = Ok (json (Storage.row u)) /\
    Storage.email u = "astrid@example.org" /\
    fst (run upstream (me (Storage.id u))
           (snd (run upstream (register (Some "astrid@example.org")) world_1)))
    = Ok (json (Storage.row u)).
Proof.
  refine (register_then_me upstream "astrid@example.org" world_1 _
            reliable_world_1 distinct_ids_after_registration).
  discriminate.
Defined.

Lemma astrid_not_empty : "astrid@example.org" <> EmptyString.
Proof. discriminate. Defined.

Lemma register_twice_at_once_witness :
  exists p1 p2 w' u,
    run_pair upstream [false; true]
      (register (Some "astrid@example.org"))
      (register (Some "astrid@example.org")) world_1 = (p1, p2, w') /\
    p1 = Ret (json (Storage.row u)) /\ p2 = Ret (json (Storage.row u)) /\
    Storage.email u = "astrid@example.org" /\
    Storage.users (db w') = (Storage.users (db world_1) ++ [u])%list.
Proof.
  eexists. eexists. eexists.
  destruct (register_twice_at_once upstream "astrid@example.org" astrid_not_empty
              [false; true] world_1 _ _ _ reliable_world_1 eq_refl eq_refl eq_refl)
    as (u & H1 & H2 & He & _ & Hu).
  exists u. split; [reflexivity|]. split; [exact H1|]. split; [exact H2|].
  split; [exact He|].
  destruct Hu as [Hu|Hu]; [discriminate Hu | exact Hu].
Defined.

Lemma register_pay_read_witness :
  exists u',
    fst (run upstream (me "1")
           (snd (run upstream (webhook configured delivery)
                   (snd (run upstream (register (Some "erik@example.org"))
                           world_1)))))
      = Ok (json (Storage.row u')) /\
    Storage.id u' = "1" /\ Storage.is_premium u' = true.
Proof.
  refine (register_pay_read upstream configured "erik@example.org" world_1
            delivery event_1 (Storage.mkUser "1" "erik@example.org" 0 1 false)
            _ _ reliable_world_1 eq_refl eq_refl eq_refl eq_refl eq_refl _);
    discriminate.
Defined.

Lemma certificate_level_not_an_integer_witness :
  Js.Number "gold" = Js.NaN /\
  Certificate.titleIndex "gold" = Js.NaN /\
  header (Certificate.headers_set (Certificate.certificate "Erik" "gold"))
    "Content-Disposition"
  = Some ("attachment; filename=" ++ dq ++ "nfj_certificate_level_NaN.pdf" ++ dq) /\
  Js.Number "2.5" = Js.Fin (Qmake 5 2) /\
  Certificate.titleIndex "2.5" = Js.Fin (Qmake 5 2) /\
  Certificate.filename (Certificate.titleIndex "2.5")
  = "nfj_certificate_level_2.5.pdf" /\
  Certificate.titleIndex "-0" = Js.Int 1 /\
  Certificate.titleIndex "Infinity" = Js.Int 20 /\
  Certificate.titleIndex "-Infinity" = Js.Int 1.
Proof.
  split; [reflexivity|].
  destruct (proj1 (certificate_level_not_an_integer "Erik" "gold") eq_refl)
    as [Hi Hh].
  split; [exact Hi|]. split; [exact Hh|].
  split; [reflexivity|].
  split; [exact (proj1 (proj2 (certificate_level_not_an_integer "Erik" "2.5"))
                   (Qmake 5 2) eq_refl eq_refl eq_refl)|].
  split; [reflexivity|].
  split; [exact (proj1 (proj2 (proj2 (certificate_level_not_an_integer "Erik" "-0")))
                   eq_refl)|].
  split.
  - exact (proj1 (proj2 (proj2 (proj2
             (certificate_level_not_an_integer "Erik" "Infinity")))) eq_refl).
  - exact (proj2 (proj2 (proj2 (proj2
             (certificate_level_not_an_integer "Erik" "-Infinity")))) eq_refl).
Defined.

Lemma certificate_decimal_level_witness :
  Certificate.titleIndex "99" = Js.Int 20 /\
  header (Certificate.headers_set (Certificate.certificate "Erik" "-7"))
    "Content-Disposition"
  = Some ("attachment; filename=" ++ dq ++ "nfj_certificate_level_1.pdf" ++ dq) /\
  Js.Number "99" = Js.Int 99.
Proof.
  split; [exact (proj1 (certificate_decimal_level "Erik" 99))|].
  split; [exact (proj1 (proj2 (proj2 (certificate_decimal_level "Erik" (-7)))))|].
  exact (proj2 (proj2 (proj2 (certificate_decimal_level "Erik" 99))) eq_refl).
Defined.

End MoreOnSample.
